(** * Reconciliation modules for PowerMax and Unity arrays

    A shallow embedding of the Ansible modules
    [dellemc_powermax_hostgroup], [dellemc_powermax_maskingview],
    [dellemc_unity_consistencygroup] and [dellemc_unity_volume].

    Every module is a Python class whose methods talk to the array through a
    vendor SDK and leave through [module.exit_json] or [module.fail_json].
    The embedding keeps that shape: a method is a computation in the monad
    [M], an SDK call is the single primitive [call], and a run yields an
    [outcome], the final state of the array and the trace of SDK calls. *)

From stdpp Require Import gmap strings list sets.
From Stdlib Require Import ZArith Ascii.

Open Scope string_scope.
Open Scope list_scope.

#[global] Set Warnings "-clear-no-such-hyp".

(** ** Python values and exceptions *)

(** The scalar values a YAML document can put in a [dict] option. *)
Inductive pyval : Type :=
| PyNone
| PyBool (b : bool)
| PyInt (n : Z)
| PyStr (s : string).

#[global] Instance pyval_eq_dec : EqDecision pyval.
Proof. solve_decision. Defined.

(** [v is True], [v is False] and [v in [s1, ..., sn]] for string literals. *)
Definition is_True (v : pyval) : bool :=
  match v with PyBool true => true | _ => false end.

Definition is_False (v : pyval) : bool :=
  match v with PyBool false => true | _ => false end.

Definition in_strs (v : pyval) (l : list string) : bool :=
  match v with PyStr s => bool_decide (s ∈ l) | _ => false end.

(** Truthiness of an optional string: [None] and [''] are falsy. *)
Definition truthy_str (o : option string) : bool :=
  match o with Some s => negb (bool_decide (s = "")) | None => false end.

(** Truthiness of an optional list or dict: [None] and the empty one are falsy. *)
Definition truthy_list {A} (o : option (list A)) : bool :=
  match o with Some (_ :: _) => true | _ => false end.

(** Exceptions raised by the SDKs. [PyException] stands for any other
    subclass of [Exception], including the [TypeError] and [KeyError] the
    interpreter raises itself. *)
Inductive exn : Type :=
| HttpError (http_status : Z)
| UnityResourceNotFoundError
| PyException (what : string).

(** A message built with [str.format]: the template and its arguments. *)
Inductive fmt_arg : Type :=
| AStr (s : string)
| AOpt (s : option string)
| AList (l : list string)
| AExn (e : exn).

Record message : Type := Msg { template : string; fmt_args : list fmt_arg }.

(** ** The run monad *)

(** How a computation ends: it returns, it raises an [Exception], or the
    process leaves through [exit_json] or [fail_json]. Both of these raise
    [SystemExit], which no [except Exception] clause catches. *)
Inductive outcome (J A : Type) : Type :=
| Ret (a : A)
| Raise (e : exn)
| ExitJson (r : J)
| FailJson (m : message).

Arguments Ret {J A} a.
Arguments Raise {J A} e.
Arguments ExitJson {J A} r.
Arguments FailJson {J A} m.

(** One SDK call of the trace: the operation and whether it returned
    ([true]) or raised ([false]). *)
Record event (Op : Type → Type) : Type :=
  Event { ev_ret : Type; ev_op : Op ev_ret; ev_ok : bool }.

Arguments Event {Op ev_ret} ev_op ev_ok.
Arguments ev_ret {Op} e.
Arguments ev_op {Op} e.
Arguments ev_ok {Op} e.

(** The array behind the SDK: a state [W] and the effect of every
    operation on it. *)
Class SDK (Op : Type → Type) (W : Type) : Type :=
  exec : ∀ R, Op R → W → (exn + R) * W.

Arguments exec {Op W SDK R} op w.

Definition M (Op : Type → Type) (W J A : Type) : Type :=
  W → list (event Op) → outcome J A * W * list (event Op).

Section Monad.
Context {Op : Type → Type} {W J : Type} `{!SDK Op W}.

Definition ret {A} (a : A) : M Op W J A := λ w t, (Ret a, w, t).

Definition bind {A B} (c : M Op W J A) (k : A → M Op W J B) : M Op W J B :=
  λ w t,
    match c w t with
    | (Ret a, w', t') => k a w' t'
    | (Raise e, w', t') => (Raise e, w', t')
    | (ExitJson r, w', t') => (ExitJson r, w', t')
    | (FailJson m, w', t') => (FailJson m, w', t')
    end.

Definition raise {A} (e : exn) : M Op W J A := λ w t, (Raise e, w, t).

Definition exit_json {A} (r : J) : M Op W J A := λ w t, (ExitJson r, w, t).

Definition fail_json {A} (m : message) : M Op W J A := λ w t, (FailJson m, w, t).

(** An SDK call: the array answers, the call is appended to the trace. *)
Definition call {R} (op : Op R) : M Op W J R :=
  λ w t,
    match exec op w with
    | (inr r, w') => (Ret r, w', t ++ [Event op true])
    | (inl e, w') => (Raise e, w', t ++ [Event op false])
    end.

(** [try: body except Exception as e: handler e]. *)
Definition try_except {A} (body : M Op W J A) (handler : exn → M Op W J A)
  : M Op W J A :=
  λ w t,
    match body w t with
    | (Raise e, w', t') => handler e w' t'
    | r => r
    end.

End Monad.

Notation "'let!' x ':=' c 'in' k" := (bind c (λ x, k))
  (at level 10, x name, c at level 100, k at level 200, only parsing).

Section Loops.
Context {Op : Type → Type} {W J : Type} `{!SDK Op W}.

(** [for x in l: body x]. *)
Fixpoint for_each {A} (l : list A) (body : A → M Op W J unit) : M Op W J unit :=
  match l with
  | [] => ret ()
  | x :: l' => let! _ := body x in for_each l' body
  end.

(** A loop that threads an accumulator. *)
Fixpoint for_fold {A S} (l : list A) (body : S → A → M Op W J S) (s : S)
  : M Op W J S :=
  match l with
  | [] => ret s
  | x :: l' => let! s' := body s x in for_fold l' body s'
  end.

(** [[f x for x in l]], one call after the other. *)
Fixpoint for_collect {A B} (l : list A) (f : A → M Op W J B) : M Op W J (list B) :=
  match l with
  | [] => ret []
  | x :: l' =>
      let! y := f x in
      let! ys := for_collect l' f in
      ret (y :: ys)
  end.

End Loops.

(** The SDK calls of a trace that are marked by [p]. *)
Definition calls_where {Op} (p : ∀ R, Op R → bool) (t : list (event Op))
  : list (event Op) :=
  filter (λ e, p _ (ev_op e) = true) t.

(** An SDK call that is not marked by [p]. *)
Definition unmarked {Op} (p : ∀ R, Op R → bool) (e : event Op) : Prop :=
  p _ (ev_op e) = false.

(** ** String helpers used by the modules *)

(** A Python [str] is written as its UTF-8 encoding: a [string] of bytes. *)

(** The strings all of whose characters are ASCII. *)
Fixpoint ascii_only (s : string) : bool :=
  match s with
  | EmptyString => true
  | String c s' => (nat_of_ascii c <? 128)%nat && ascii_only s'
  end.

(** [str.lower] on ASCII text: the letters [A] to [Z] are lower-cased and
    every other byte is kept. On text with letters outside ASCII
    [str.lower] does more; what is stated about lower-cased names is
    stated for names that are [ascii_only]. *)
Definition lower_ascii (c : ascii) : ascii :=
  let n := nat_of_ascii c in
  if (65 <=? n)%nat && (n <=? 90)%nat then ascii_of_nat (n + 32) else c.

Fixpoint lower (s : string) : string :=
  match s with
  | EmptyString => EmptyString
  | String c s' => String (lower_ascii c) (lower s')
  end.

(** [s.split(',')]: never empty, [''.split(',') = ['']]. *)
Fixpoint split_comma_aux (cur : string) (s : string) : list string :=
  match s with
  | EmptyString => [cur]
  | String c s' =>
      if bool_decide (c = ","%char) then cur :: split_comma_aux "" s'
      else split_comma_aux (cur +:+ String c "") s'
  end.

Definition split_comma (s : string) : list string := split_comma_aux "" s.

(** [re.sub(r'\(.*?\)', '', s)]: every shortest parenthesised run that
    holds no newline is dropped. [pending] is the text read since an
    opening parenthesis that is not closed yet; it is put back when a
    newline or the end of the string comes first. *)
Fixpoint strip_parens_aux (pending : option string) (s : string) : string :=
  match s with
  | EmptyString => default "" pending
  | String c s' =>
      match pending with
      | None =>
          if bool_decide (c = "("%char) then strip_parens_aux (Some "(") s'
          else String c (strip_parens_aux None s')
      | Some buf =>
          if bool_decide (c = ")"%char) then strip_parens_aux None s'
          else if bool_decide (c = "010"%char)
               then buf +:+ String c (strip_parens_aux None s')
               else strip_parens_aux (Some (buf +:+ String c "")) s'
      end
  end.

Definition strip_parens (s : string) : string := strip_parens_aux None s.

(** ** Options shared by the modules *)

(** [state]: [choices=['present', 'absent']]. *)
Inductive state_choice : Type := present | absent.

(** [host_state] and [vol_state]:
    [choices=['present-in-group', 'absent-in-group']]. *)
Inductive member_state : Type := present_in_group | absent_in_group.

#[global] Instance state_choice_eq_dec : EqDecision state_choice.
Proof. solve_decision. Defined.

#[global] Instance member_state_eq_dec : EqDecision member_state.
Proof. solve_decision. Defined.

(** A [dict] read from YAML, in insertion order; [d[k]] is the first entry
    under [k]. *)
Fixpoint dict_get {V} (d : list (string * V)) (k : string) : option V :=
  match d with
  | [] => None
  | (k', v) :: d' => if bool_decide (k' = k) then Some v else dict_get d' k
  end.

(** * PowerMax host group: [dellemc_powermax_hostgroup.py] *)

Module PowerMaxHostGroup.

(** What [provisioning.get_hostgroup] returns. Key ['host'] is only there
    when the group has members; each member is reduced to its ['hostId']. *)
Record hostgroup : Type := HostGroup {
  hostGroupId : string;
  host : option (list string);
  enabled_flags : string;
  disabled_flags : string;
  consistent_lun : bool }.

(** A value of the flags payload: [{'enabled': e, 'override': o}] for a
    host flag, a plain boolean under ['consistent_lun']. *)
Inductive flag_entry : Type :=
| FlagDict (enabled override : bool)
| FlagBool (b : bool).

#[global] Instance flag_entry_eq_dec : EqDecision flag_entry.
Proof. solve_decision. Defined.

Abbreviation flags_dict := (gmap string flag_entry).

(** The keyword argument that [provisioning.modify_hostgroup] is given. *)
Inductive hg_change : Type :=
| host_flag_dict (d : flags_dict)
| remove_host_list (l : list string)
| add_host_list (l : list string)
| new_name_kw (n : string).

(** The calls made on [self.provisioning]. *)
Inductive Op : Type → Type :=
| sdk_get_hostgroup (hostgroup_id : string) : Op (option hostgroup)
| sdk_get_host (host_id : string) : Op unit
| sdk_create_host (host_name : string) (host_flags : flags_dict) : Op unit
| sdk_create_hostgroup (hostgroup_id : string) (host_flags : flags_dict)
    (host_list : list string) : Op unit
| sdk_modify_hostgroup (hostgroup_id : string) (change : hg_change) : Op unit
| sdk_delete_hostgroup (hostgroup_id : string) : Op unit.

(** The calls that change the array. *)
Definition mutating {R} (op : Op R) : bool :=
  match op with
  | sdk_get_hostgroup _ | sdk_get_host _ => false
  | _ => true
  end.

(** A call that leaves the array as it is. *)
Abbreviation quiet := (unmarked (@mutating)).

(** The module options. *)
Record params : Type := Params {
  hostgroup_name : string;
  hosts : option (list string);
  state : state_choice;
  host_state : option member_state;
  host_flags : option (list (string * pyval));
  new_name : option string }.

(** What [exit_json] is given: [changed] and, unless the run leaves from
    [modify_host_flags], ['hostgroup_details'] ([{}] for [state=absent]). *)
Inductive details : Type :=
| NoDetails
| EmptyDetails
| Details (d : option hostgroup).

Record result : Type := Result { changed : bool; hostgroup_details : details }.

Definition host_flags_list : list string :=
  ["volume_set_addressing"; "environ_set"; "disable_q_reset_on_ua"; "openvms";
   "avoid_reset_broadcast"; "scsi_3"; "spc2_protocol_version"; "scsi_support1"].

Definition _set_to_enable (host_flag_name : string) (d : flags_dict) : flags_dict :=
  <[lower host_flag_name := FlagDict true true]> d.

Definition _set_to_disable (host_flag_name : string) (d : flags_dict) : flags_dict :=
  <[lower host_flag_name := FlagDict false true]> d.

Definition _set_to_default (host_flag_name : string) (d : flags_dict) : flags_dict :=
  <[lower host_flag_name := FlagDict false false]> d.

Definition _disable_consistent_lun (d : flags_dict) : flags_dict :=
  <["consistent_lun" := FlagBool false]> d.

Definition _enable_consistent_lun (d : flags_dict) : flags_dict :=
  <["consistent_lun" := FlagBool true]> d.

(** The branch [_create_host_flags_dict] takes for one flag of
    [host_flags_list]. *)
Definition create_flag (received : list (string * pyval)) (d : flags_dict)
    (host_flag_name : string) : flags_dict :=
  match dict_get received host_flag_name with
  | None => _set_to_default host_flag_name d
  | Some v =>
      if in_strs v ["unset"; "Unset"] then _set_to_default host_flag_name d
      else if is_False v || in_strs v ["false"; "False"]
           then _set_to_disable host_flag_name d
           else _set_to_enable host_flag_name d
  end.

Definition _create_host_flags_dict (received_host_flags : list (string * pyval))
    (new_host_flags_dict : flags_dict) : flags_dict :=
  let d := foldl (create_flag received_host_flags) new_host_flags_dict
             host_flags_list in
  match dict_get received_host_flags "consistent_lun" with
  | None => _disable_consistent_lun d
  | Some v =>
      if is_False v || in_strs v ["unset"; "Unset"; "false"; "False"]
      then _disable_consistent_lun d
      else _enable_consistent_lun d
  end.

Definition _get_add_hosts (existing requested : list string) : list string :=
  elements ((list_to_set (existing ++ requested) : gset string)
            ∖ list_to_set existing).

Definition _get_remove_hosts (existing requested : list string) : list string :=
  elements ((list_to_set existing : gset string) ∩ list_to_set requested).

Definition _create_default_host_flags_dict (current_flags : flags_dict)
  : flags_dict :=
  _disable_consistent_lun
    (foldl (λ d flag, _set_to_default flag d) current_flags host_flags_list).

(** One of the two loops of [_recreate_host_flag_dict] over a
    comma-separated list of flag names. *)
Definition set_listed_flags (set : string → flags_dict → flags_dict)
    (listed : string) (d : flags_dict) : flags_dict :=
  foldl (λ d flag,
           if (0 <? String.length flag)%nat then set (strip_parens flag) d else d)
        d (split_comma listed).

Definition _recreate_host_flag_dict (host : hostgroup) (current_flags : flags_dict)
  : flags_dict :=
  let d := _create_default_host_flags_dict current_flags in
  let d := set_listed_flags _set_to_enable (enabled_flags host) d in
  let d := set_listed_flags _set_to_disable (disabled_flags host) d in
  if consistent_lun host then _enable_consistent_lun d
  else _disable_consistent_lun d.

(** The body of the loop of [modify_host_flags] for one received flag. *)
Definition modify_flag (d : flags_dict) (kv : string * pyval) : flags_dict :=
  let '(flag, v) := kv in
  if negb (bool_decide (flag = "consistent_lun")) then
    if is_True v || in_strs v ["True"; "true"] then _set_to_enable flag d
    else if is_False v || in_strs v ["false"; "False"] then _set_to_disable flag d
    else _set_to_default flag d
  else if is_False v || in_strs v ["False"; "false"; "unset"; "Unset"]
       then _disable_consistent_lun d
       else _enable_consistent_lun d.

(** The existing members read off a fetched host group. *)
Definition existing_hosts_of (hg : option hostgroup) : list string :=
  match hg with
  | Some g => default [] (host g)
  | None => []
  end.

Section Methods.
Context {W : Type} `{!SDK Op W}.

Abbreviation run := (M Op W result).

Definition get_hostgroup (hostgroup_name : string) : run (option hostgroup) :=
  try_except
    (let! hostGroupFromGet := call (sdk_get_hostgroup hostgroup_name) in
     ret hostGroupFromGet)
    (λ _, ret None).

Definition create_hostgroup (p : params) (hostgroup_name : string) : run bool :=
  let emptyHostGroupFlag :=
    negb (truthy_list (hosts p))
    || match host_state p with
       | None | Some absent_in_group => true
       | Some present_in_group => false
       end in
  let new_host_flags_dict : flags_dict :=
    if truthy_list (host_flags p)
    then _create_host_flags_dict (default [] (host_flags p)) ∅
    else ∅ in
  try_except
    (if emptyHostGroupFlag then
       let! _ := call (sdk_create_host hostgroup_name new_host_flags_dict) in
       ret true
     else
       let! _ :=
         for_each (default [] (hosts p)) (λ host,
           try_except
             (call (sdk_get_host host))
             (λ _, fail_json
                     (Msg "Create host group {0} failed as the host {1} does not exist"
                          [AStr hostgroup_name; AStr host]))) in
       let! _ := call (sdk_create_hostgroup hostgroup_name new_host_flags_dict
                         (default [] (hosts p))) in
       ret true)
    (λ e, fail_json (Msg "Create host group {0} failed with error {1}"
                         [AStr hostgroup_name; AExn e])).

Definition add_hosts_to_hostgroup (hostgroup_name : string) (hosts : list string)
  : run bool :=
  let! hostgroup := get_hostgroup hostgroup_name in
  let existing_hosts := existing_hosts_of hostgroup in
  if truthy_list (Some hosts)
     && bool_decide ((list_to_set hosts : gset string) ⊆ list_to_set existing_hosts)
  then ret false
  else
    let add_list := _get_add_hosts existing_hosts hosts in
    if (0 <? length add_list)%nat then
      try_except
        (let! _ := call (sdk_modify_hostgroup hostgroup_name
                           (add_host_list add_list)) in
         ret true)
        (λ e, fail_json
                (Msg "Adding host {0} to host group {1} failed with error {2}"
                     [AList add_list; AStr hostgroup_name; AExn e]))
    else ret false.

Definition remove_hosts_from_hostgroup (hostgroup_name : string)
    (hosts : list string) : run bool :=
  let! hostgroup := get_hostgroup hostgroup_name in
  let existing_hosts := existing_hosts_of hostgroup in
  if negb (0 <? length existing_hosts)%nat then ret false
  else
    let rem_list := _get_remove_hosts existing_hosts hosts in
    if (0 <? length rem_list)%nat then
      try_except
        (let! _ := call (sdk_modify_hostgroup hostgroup_name
                           (remove_host_list rem_list)) in
         ret true)
        (λ e, fail_json
                (Msg "Removing host {0} from host group {1} failed with error {2}"
                     [AList rem_list; AStr hostgroup_name; AExn e]))
    else ret false.

Definition rename_hostgroup (hostgroup_name new_name : string) : run bool :=
  try_except
    (let! _ := call (sdk_modify_hostgroup hostgroup_name (new_name_kw new_name)) in
     ret true)
    (λ e, fail_json (Msg "Renaming of host group {0} failed with error {1}"
                         [AStr hostgroup_name; AExn e])).

Definition delete_hostgroup (hostgroup_name : string) : run bool :=
  try_except
    (let! _ := call (sdk_delete_hostgroup hostgroup_name) in
     ret true)
    (λ e, fail_json (Msg "Delete host group {0} failed with error {1}"
                         [AStr hostgroup_name; AExn e])).

(** The flags payload [modify_host_flags] computes from the current one. *)
Definition new_flags_of (current_flags : flags_dict)
    (received_host_flags : list (string * pyval)) : flags_dict :=
  foldl modify_flag current_flags received_host_flags.

(** When the fetch inside fails, [host] is [None] and subscripting it
    raises a [TypeError] that nothing catches. *)
Definition modify_host_flags (hostgroup_name : string)
    (received_host_flags : list (string * pyval)) : run bool :=
  let! fetched := get_hostgroup hostgroup_name in
  match fetched with
  | None => raise (PyException "TypeError")
  | Some host =>
      let current_flags := _recreate_host_flag_dict host ∅ in
      let new_flags_dict := new_flags_of current_flags received_host_flags in
      if bool_decide (new_flags_dict = current_flags) then
        exit_json (Result false NoDetails)
      else
        try_except
          (let! _ := call (sdk_modify_hostgroup hostgroup_name
                             (host_flag_dict new_flags_dict)) in
           ret true)
          (λ e, fail_json (Msg "Modify host group {0} failed with error{1}"
                               [AStr hostgroup_name; AExn e]))
  end.

(** [name] is [self.module.params['hostgroup_name']] at that point: a
    rename has overwritten it. *)
Definition _create_result_dict (p : params) (name : string) (changed : bool)
  : run result :=
  match state p with
  | absent => ret (Result changed EmptyDetails)
  | present =>
      let! d := get_hostgroup name in
      ret (Result changed (Details d))
  end.

Definition perform_module_operation (p : params) : run unit :=
  let hostgroup_name := hostgroup_name p in
  let is_present := bool_decide (state p = present) in
  let! hostgroup := get_hostgroup hostgroup_name in
  let found := bool_decide (is_Some hostgroup) in
  let changed := false in
  let! changed :=
    if is_present && negb found && truthy_str (Some hostgroup_name)
    then create_hostgroup p hostgroup_name
    else ret changed in
  let! changed :=
    if is_present && bool_decide (host_state p = Some present_in_group)
       && found && truthy_list (hosts p)
    then let! r := add_hosts_to_hostgroup hostgroup_name (default [] (hosts p)) in
         ret (r || changed)
    else ret changed in
  let! changed :=
    if is_present && bool_decide (host_state p = Some absent_in_group)
       && found && truthy_list (hosts p)
    then let! r := remove_hosts_from_hostgroup hostgroup_name
                     (default [] (hosts p)) in
         ret (r || changed)
    else ret changed in
  let! changed :=
    if is_present && found && truthy_list (host_flags p)
    then let! r := modify_host_flags hostgroup_name (default [] (host_flags p)) in
         ret (r || changed)
    else ret changed in
  let! renamed :=
    match hostgroup, new_name p with
    | Some g, Some new_name =>
        if is_present && truthy_str (Some new_name)
           && negb (bool_decide (hostGroupId g = new_name))
        then let! r := rename_hostgroup hostgroup_name new_name in
             ret (r, new_name)
        else ret (changed, hostgroup_name)
    | _, _ => ret (changed, hostgroup_name)
    end in
  let '(changed, name) := renamed in
  let! changed :=
    if bool_decide (state p = absent) && found
    then let! r := delete_hostgroup hostgroup_name in ret (r || changed)
    else ret changed in
  let! result := _create_result_dict p name changed in
  exit_json result.

End Methods.

End PowerMaxHostGroup.

(** ** A test double for the PowerMax array

    The array itself is outside the repository. [FakePowerMax] is the
    smallest array on which the host group module can be run: host groups
    by name, as [get_hostgroup] shows them, and the names of the hosts that
    exist. A call is refused where the module's own comments say the REST
    API refuses it. *)

Module FakePowerMax.
Import PowerMaxHostGroup.

Record array : Type := Array {
  groups : gmap string hostgroup;
  known_hosts : gset string }.

Definition refused {R} (a : array) : (exn + R) * array :=
  (inl (PyException "refused by the array"), a).

Definition done {R} (r : R) (a : array) : (exn + R) * array := (inr r, a).

(** The names of the flags whose payload entry is [e], comma-separated. *)
Definition render_flags (e : flag_entry) (d : flags_dict) : string :=
  String.concat "," (map fst (filter (λ kv, kv.2 = e) (map_to_list d))).

Definition with_flags (d : flags_dict) (g : hostgroup) : hostgroup :=
  {| hostGroupId := hostGroupId g;
     host := host g;
     enabled_flags := render_flags (FlagDict true true) d;
     disabled_flags := render_flags (FlagDict false true) d;
     consistent_lun := bool_decide (d !! "consistent_lun" = Some (FlagBool true)) |}.

Definition with_hosts (l : list string) (g : hostgroup) : hostgroup :=
  {| hostGroupId := hostGroupId g;
     host := match l with [] => None | _ => Some l end;
     enabled_flags := enabled_flags g;
     disabled_flags := disabled_flags g;
     consistent_lun := consistent_lun g |}.

Definition with_name (n : string) (g : hostgroup) : hostgroup :=
  {| hostGroupId := n;
     host := host g;
     enabled_flags := enabled_flags g;
     disabled_flags := disabled_flags g;
     consistent_lun := consistent_lun g |}.

Definition put (n : string) (g : hostgroup) (a : array) : array :=
  {| groups := <[n := g]> (groups a); known_hosts := known_hosts a |}.

Definition new_group (n : string) (d : flags_dict) (l : list string) : hostgroup :=
  with_flags d (with_hosts l (HostGroup n None "" "" false)).

Definition modify (n : string) (g : hostgroup) (c : hg_change) (a : array)
  : (exn + unit) * array :=
  let members := default [] (host g) in
  match c with
  | host_flag_dict d => done () (put n (with_flags d g) a)
  | add_host_list l =>
      if bool_decide (Forall (λ h, h ∈ known_hosts a ∧ h ∉ members) l)
      then done () (put n (with_hosts (members ++ l) g) a)
      else refused a
  | remove_host_list l =>
      if bool_decide (Forall (λ h, h ∈ members) l)
      then done () (put n (with_hosts (filter (λ h, h ∉ l) members) g) a)
      else refused a
  | new_name_kw n' =>
      match groups a !! n' with
      | Some _ => refused a
      | None =>
          done () {| groups := <[n' := with_name n' g]> (delete n (groups a));
                     known_hosts := known_hosts a |}
      end
  end.

Definition fake_exec R (op : Op R) (a : array) : (exn + R) * array :=
  match op in Op R return (exn + R) * array with
  | sdk_get_hostgroup n =>
      match groups a !! n with
      | Some g => done (Some g) a
      | None => refused a
      end
  | sdk_get_host h =>
      if bool_decide (h ∈ known_hosts a) then done () a else refused a
  | sdk_create_host n d =>
      match groups a !! n with
      | Some _ => refused a
      | None => done () (put n (new_group n d []) a)
      end
  | sdk_create_hostgroup n d l =>
      match groups a !! n with
      | Some _ => refused a
      | None =>
          if bool_decide (Forall (λ h, h ∈ known_hosts a) l)
          then done () (put n (new_group n d l) a)
          else refused a
      end
  | sdk_modify_hostgroup n c =>
      match groups a !! n with
      | Some g => modify n g c a
      | None => refused a
      end
  | sdk_delete_hostgroup n =>
      match groups a !! n with
      | Some _ => done () {| groups := delete n (groups a);
                             known_hosts := known_hosts a |}
      | None => refused a
      end
  end.

#[global] Instance fake_sdk : SDK Op array := fake_exec.

(** A run of the module from an empty trace. *)
Definition run_module (p : params) (a : array) :=
  perform_module_operation (W := array) p a [].

End FakePowerMax.

(** * PowerMax masking view: [dellemc_powermax_maskingview.py] *)

Module PowerMaxMaskingView.

(** What [provisioning.get_masking_view] returns; a key that is not in the
    dict is [None] here. *)
Record masking_view : Type := MaskingView {
  maskingViewId : string;
  portGroupId : option string;
  storageGroupId : option string;
  hostId : option string;
  hostGroupId : option string }.

Inductive Op : Type → Type :=
| sdk_get_masking_view_list : Op (list string)
| sdk_get_masking_view (masking_view_name : string) : Op (option masking_view)
| sdk_create_masking_view_existing_components
    (port_group_name masking_view_name storage_group_name : string)
    (host_name host_group_name : option string) : Op (option masking_view)
| sdk_delete_masking_view (maskingview_name : string) : Op unit
| sdk_rename_masking_view (masking_view_id new_name : string) : Op unit.

Definition mutating {R} (op : Op R) : bool :=
  match op with
  | sdk_get_masking_view_list | sdk_get_masking_view _ => false
  | _ => true
  end.

(** A call that leaves the array as it is. *)
Abbreviation quiet := (unmarked (@mutating)).

Record params : Type := Params {
  mv_name : string;
  portgroup_name : option string;
  host_name : option string;
  hostgroup_name : option string;
  sg_name : option string;
  new_mv_name : option string;
  state : state_choice }.

(** The result dict. ['create_mv'], ['modify_mv'] and ['delete_mv'] start as
    [''], here [None]; ['mv_details'] is only set on some paths. *)
Record result : Type := Result {
  changed : bool;
  create_mv : option bool;
  modify_mv : option bool;
  delete_mv : option bool;
  mv_details : option (option masking_view) }.

(** [mv[key] != wanted] under [key in mv and wanted is not None]. *)
Definition differs (have wanted : option string) : bool :=
  match have, wanted with
  | Some h, Some w => negb (bool_decide (h = w))
  | _, _ => false
  end.

(** The flag that [is_mv_changed] computes before it fails. The chain of
    [elif] is a disjunction: every branch sets the same flag. *)
Definition mv_changed_flag (p : params) (mv : masking_view) : bool :=
  if differs (portGroupId mv) (portgroup_name p) then true
  else if differs (storageGroupId mv) (sg_name p) then true
  else if differs (hostId mv) (host_name p) then true
  else if differs (hostGroupId mv) (hostgroup_name p) then true
  else if bool_decide (is_Some (hostId mv))
          && bool_decide (is_Some (hostgroup_name p)) then true
  else if bool_decide (is_Some (hostGroupId mv))
          && bool_decide (is_Some (host_name p)) then true
  else false.

(** The groups of options that [__init__] declares [mutually_exclusive]
    when it constructs [AnsibleModule]. *)
Definition mutually_exclusive : list (list string) :=
  [["host_name"; "hostgroup_name"]].

(** The names of the options of a request that are given: every option is
    a string, and [None] stands for one that is left out. *)
Definition supplied (p : params) : list string :=
  ["mv_name"; "state"]
  ++ (if portgroup_name p is Some _ then ["portgroup_name"] else [])
  ++ (if host_name p is Some _ then ["host_name"] else [])
  ++ (if hostgroup_name p is Some _ then ["hostgroup_name"] else [])
  ++ (if sg_name p is Some _ then ["sg_name"] else [])
  ++ (if new_mv_name p is Some _ then ["new_mv_name"] else []).

Definition mutually_exclusive_msg (check : list string) : message :=
  Msg "parameters are mutually exclusive: {0}" [AList check].

(** Modelled from the spec: the validation of mutually exclusive options.
    The module only declares the groups; the check is made by
    [AnsibleModule] while it is constructed, and its code is not in the
    repository. As the specification has it, the options are validated
    before anything else is done, and a request that gives more than one
    option of a group is an error of the caller: the first such group is
    reported. *)
Definition check_mutually_exclusive (terms : list (list string))
    (given : list string) : option message :=
  match List.filter
          (λ check, (1 <? length (List.filter (λ o, bool_decide (o ∈ given))
                                              check))%nat)
          terms with
  | [] => None
  | check :: _ => Some (mutually_exclusive_msg check)
  end.

Section Methods.
Context {W : Type} `{!SDK Op W}.

Abbreviation run := (M Op W result).

Definition get_masking_view (mv_name : string) : run (option masking_view) :=
  try_except
    (let! mv_list := call sdk_get_masking_view_list in
     if negb (bool_decide (mv_name ∈ mv_list)) then ret None
     else call (sdk_get_masking_view mv_name))
    (λ _, ret None).

Definition is_mv_changed (p : params) (mv : masking_view) : run unit :=
  if mv_changed_flag p mv then
    fail_json (Msg ("One or more of parameters (PG, SG, Host/Host Group) "
                    +:+ "provided for the MV {0} differ from the state of "
                    +:+ "the MV on the array.")
                   [AStr (maskingViewId mv)])
  else ret ().

Definition create_masking_view (p : params) (mv_name : string)
  : run (bool * option masking_view) :=
  if truthy_str (host_name p) && truthy_str (hostgroup_name p) then
    fail_json (Msg "Failed to create masking view {0},Please provide either host or hostgroup"
                   [AStr mv_name])
  else
    match portgroup_name p, sg_name p with
    | Some pg_name, Some sg_name =>
        if bool_decide (host_name p = None)
           && bool_decide (hostgroup_name p = None)
        then fail_json (Msg ("Failed to create masking view {0}, Please provide "
                             +:+ "SG, PG and host / host group name to create "
                             +:+ "masking view") [AStr mv_name])
        else
          try_except
            (let! resp := call (sdk_create_masking_view_existing_components
                                  pg_name mv_name sg_name
                                  (host_name p) (hostgroup_name p)) in
             ret (true, resp))
            (λ e, fail_json (Msg "Create masking view {0} failed; error {1}"
                                 [AStr mv_name; AExn e]))
    | _, _ =>
        fail_json (Msg ("Failed to create masking view {0}, Please provide "
                        +:+ "SG, PG and host / host group name to create "
                        +:+ "masking view") [AStr mv_name])
    end.

Definition delete_masking_view (mv_name : string) : run bool :=
  try_except
    (let! _ := call (sdk_delete_masking_view mv_name) in ret true)
    (λ e, fail_json (Msg "Delete masking view {0} failed with error {1}."
                         [AStr mv_name; AExn e])).

Definition rename_masking_view (mv_name new_mv_name : string) : run bool :=
  if bool_decide (mv_name = new_mv_name) then ret false
  else
    try_except
      (let! _ := call (sdk_rename_masking_view mv_name new_mv_name) in ret true)
      (λ e, fail_json (Msg "Rename masking view {0} failed with error {1}."
                           [AStr mv_name; AExn e])).

Definition perform_module_operation (p : params) : run unit :=
  let is_present := bool_decide (state p = present) in
  let mv_name := mv_name p in
  let! masking_view := get_masking_view mv_name in
  let! _ := match masking_view with
            | Some mv => is_mv_changed p mv
            | None => ret ()
            end in
  let found := bool_decide (is_Some masking_view) in
  let result := Result false None None None None in
  let! result :=
    if is_present && negb found && negb (truthy_str (new_mv_name p))
       && truthy_str (Some mv_name)
    then let! created := create_masking_view p mv_name in
         ret (Result false (Some created.1) None None (Some created.2))
    else ret result in
  let! renamed :=
    if is_present && found && truthy_str (new_mv_name p)
    then let new_mv_name := default "" (new_mv_name p) in
         let! r := rename_masking_view mv_name new_mv_name in
         ret (Result false (create_mv result) (Some r) None (mv_details result),
              new_mv_name)
    else ret (result, mv_name) in
  let '(result, mv_name) := renamed in
  let! result :=
    if bool_decide (state p = absent) && found
    then let! r := delete_masking_view mv_name in
         ret (Result false (create_mv result) (modify_mv result) (Some r)
                (mv_details result))
    else ret result in
  let! result :=
    if is_present && found
    then let! updated_mv := get_masking_view mv_name in
         ret (Result false (create_mv result) (modify_mv result)
                (delete_mv result) (Some updated_mv))
    else ret result in
  let changed := default false (create_mv result)
                 || default false (modify_mv result)
                 || default false (delete_mv result) in
  exit_json (Result changed (create_mv result) (modify_mv result)
               (delete_mv result) (mv_details result)).

(** Modelled from the spec: [main] constructs the object and calls
    [perform_module_operation]. Of the construction, which is the work of
    [AnsibleModule], the validation of the declared [mutually_exclusive]
    groups is kept; a request that fails it leaves through [fail_json]
    before [perform_module_operation] starts. *)
Definition main (p : params) : run unit :=
  match check_mutually_exclusive mutually_exclusive (supplied p) with
  | Some m => fail_json m
  | None => perform_module_operation p
  end.

End Methods.

End PowerMaxMaskingView.

(** * Unity consistency group: [dellemc_unity_consistencygroup.py] *)

(** White space, as [str.strip] and [str.isspace] know it, in UTF-8: the
    ASCII characters 9 to 13 and 28 to 32, then U+0085 and U+00A0, then
    U+1680, U+2000 to U+200A, U+2028, U+2029, U+202F, U+205F and U+3000. *)
Definition is_space (c : ascii) : bool :=
  let n := nat_of_ascii c in
  ((9 <=? n)%nat && (n <=? 13)%nat) || ((28 <=? n)%nat && (n <=? 32)%nat).

Definition is_space2 (c1 c2 : ascii) : bool :=
  let n2 := nat_of_ascii c2 in
  (nat_of_ascii c1 =? 194)%nat && ((n2 =? 133)%nat || (n2 =? 160)%nat).

Definition is_space3 (c1 c2 c3 : ascii) : bool :=
  let n1 := nat_of_ascii c1 in
  let n2 := nat_of_ascii c2 in
  let n3 := nat_of_ascii c3 in
  ((n1 =? 225)%nat && (n2 =? 154)%nat && (n3 =? 128)%nat)
  || ((n1 =? 226)%nat && (n2 =? 128)%nat
      && (((128 <=? n3)%nat && (n3 <=? 138)%nat)
          || (n3 =? 168)%nat || (n3 =? 169)%nat || (n3 =? 175)%nat))
  || ((n1 =? 226)%nat && (n2 =? 129)%nat && (n3 =? 159)%nat)
  || ((n1 =? 227)%nat && (n2 =? 128)%nat && (n3 =? 128)%nat).

(** [len(s.strip()) == 0]: [s] holds nothing but white space. *)
Fixpoint is_blank (s : string) : bool :=
  match s with
  | EmptyString => true
  | String c1 s1 =>
      if is_space c1 then is_blank s1
      else match s1 with
           | String c2 s2 =>
               if is_space2 c1 c2 then is_blank s2
               else match s2 with
                    | String c3 s3 => is_space3 c1 c2 c3 && is_blank s3
                    | EmptyString => false
                    end
           | EmptyString => false
           end
  end.

(** [tiering_policy]:
    [choices=['AUTOTIER_HIGH', 'AUTOTIER', 'HIGHEST', 'LOWEST']]. Every
    choice is a member of [utils.TieringPolicyEnum]. *)
Inductive tiering_choice : Type := AUTOTIER_HIGH | AUTOTIER | HIGHEST | LOWEST.

#[global] Instance tiering_choice_eq_dec : EqDecision tiering_choice.
Proof. solve_decision. Defined.

Definition tiering_name (t : tiering_choice) : string :=
  match t with
  | AUTOTIER_HIGH => "AUTOTIER_HIGH"
  | AUTOTIER => "AUTOTIER"
  | HIGHEST => "HIGHEST"
  | LOWEST => "LOWEST"
  end.

Module UnityConsistencyGroup.

(** A consistency group as [unity_conn.get_cg] and [_get_properties] show
    it. [cg_luns] is [None] for a group without volumes and the list of
    (id, name) of its volumes otherwise; [cg_relocation_policy] is the
    member name [X] of the value that prints as ['TieringPolicyEnum.X']. *)
Record cg : Type := CG {
  cg_existed : bool;
  cg_ident : string;
  cg_name_of : string;
  cg_description : option string;
  cg_luns : option (list (string * string));
  cg_snap_schedule : option string;
  cg_relocation_policy : option string }.

(** What [get_details] returns: the properties and the snapshots. *)
Record details : Type := Details { props : cg; snapshots : list string }.

(** A LUN as [unity_conn.get_lun] shows it; [lun_cg] is the (id, name) of
    the consistency group it belongs to, when there is one. *)
Record lun : Type := Lun {
  lun_existed : bool;
  lun_ident : string;
  lun_cg : option (string * string) }.

(** An entry of [volumes]. *)
Record volume : Type := Volume { vol_id : option string; vol_name : option string }.

(** The keyword arguments that [cg_obj.modify] is given. *)
Inductive cg_change : Type :=
| lun_add (ids : list string) (tiering_policy : option tiering_choice)
| lun_remove (ids : list string)
| rename_to (name : string)
| attributes (description : option string)
    (snap_schedule : option (option string))
    (tiering_policy : option tiering_choice)
    (is_snap_schedule_paused : option bool).

Inductive Op : Type → Type :=
| sdk_get_cg (_id name : option string) : Op cg
| sdk_snapshots (cg_id : string) : Op (list string)
| sdk_get_lun (name _id : option string) : Op lun
| sdk_create (name : string) (description : option string)
    (snap_schedule : option string) : Op unit
| sdk_modify (cg_id : string) (change : cg_change) : Op unit
| sdk_delete (cg_id : string) : Op unit.

Definition mutating {R} (op : Op R) : bool :=
  match op with
  | sdk_create _ _ _ | sdk_modify _ _ | sdk_delete _ => true
  | _ => false
  end.

(** A call that leaves the array as it is. *)
Abbreviation quiet := (unmarked (@mutating)).

Record params : Type := Params {
  cg_name : option string;
  cg_id : option string;
  description : option string;
  volumes : option (list volume);
  snap_schedule : option string;
  new_cg_name : option string;
  tiering_policy : option tiering_choice;
  vol_state : option member_state;
  state : state_choice }.

(** The result dict: every flag starts as [''], here [None]. *)
Record result : Type := Result {
  changed : bool;
  create_cg_r : option bool;
  modify_cg_r : option bool;
  rename_cg_r : option bool;
  add_vols_to_cg_r : option bool;
  remove_vols_from_cg_r : option bool;
  delete_cg_r : option bool;
  consistency_group_details : option details }.

Definition flag (o : option bool) : bool := default false o.

(** The first loop of [add_volumes_to_cg] and [remove_volumes_from_cg]:
    the ids and the names that were asked for, without repetition. *)
Definition split_volume (lists : list string * list string) (vol : volume)
  : list string * list string :=
  let '(vol_id_list, vol_name_list) := lists in
  let by_name :=
    match vol_name vol with
    | Some n =>
        if negb (bool_decide (n ∈ vol_name_list))
        then (vol_id_list, vol_name_list ++ [n])
        else lists
    | None => lists
    end in
  match vol_id vol with
  | Some i =>
      if negb (bool_decide (i ∈ vol_id_list))
      then (vol_id_list ++ [i], vol_name_list)
      else by_name
  | None => by_name
  end.

Definition split_volumes (volumes : list volume) : list string * list string :=
  foldl split_volume ([], []) volumes.

(** The selection steps of the loops of [add_volumes_to_cg] and
    [remove_volumes_from_cg], once the id of the volume is known. *)
Definition add_by_name (existing_vol_ids ids_to_add : list string) (id : string)
  : list string :=
  if negb (bool_decide (id = "")) && negb (bool_decide (id ∈ existing_vol_ids))
  then if negb (bool_decide (id ∈ ids_to_add)) then ids_to_add ++ [id]
       else ids_to_add
  else ids_to_add.

Definition add_by_id (existing_vol_ids ids_to_add : list string)
    (vol_by_id : string) : list string :=
  if negb (bool_decide (vol_by_id ∈ existing_vol_ids))
  then if negb (bool_decide (vol_by_id ∈ ids_to_add))
       then ids_to_add ++ [vol_by_id] else ids_to_add
  else ids_to_add.

Definition remove_by_name (existing_vol_ids ids_to_remove : list string)
    (id : string) : list string :=
  if negb (bool_decide (id = "")) && bool_decide (id ∈ existing_vol_ids)
  then if negb (bool_decide (id ∈ ids_to_remove)) then ids_to_remove ++ [id]
       else ids_to_remove
  else ids_to_remove.

Definition remove_by_id (existing_vol_ids ids_to_remove : list string)
    (vol : string) : list string :=
  if bool_decide (vol ∈ existing_vol_ids)
     && negb (bool_decide (vol ∈ ids_to_remove))
  then ids_to_remove ++ [vol] else ids_to_remove.

Definition existing_vol_ids_of (c : cg) : list string :=
  match cg_luns c with
  | Some l => map fst l
  | None => []
  end.

(** The flag [is_cg_modified] returns when it does not fail. *)
Definition cg_modified_flag (p : params) (c : cg) : bool :=
  let modified :=
    if match cg_description c, description p with
       | Some have, Some want => negb (bool_decide (have = want))
       | None, Some _ => true
       | _, None => false
       end then true
    else match cg_snap_schedule c, snap_schedule p with
         | Some have, Some want => negb (bool_decide (have = want))
         | None, o => truthy_str o
         | Some _, None => false
         end in
  match cg_relocation_policy c, tiering_policy p with
  | Some tier, Some want =>
      if negb (bool_decide (tier = tiering_name want)) then true else modified
  | _, _ => modified
  end.

Section Methods.
Context {W : Type} `{!SDK Op W}.

Abbreviation run := (M Op W result).

(** The handle that is returned is the id of the group. *)
Definition return_cg_instance (cg_name : option string) : run string :=
  try_except
    (let! cg_details := call (sdk_get_cg None cg_name) in
     ret (cg_ident cg_details))
    (λ e, fail_json
            (Msg "Failed to get the consistency group {0} instance with error {1}"
                 [AOpt cg_name; AExn e])).

Definition get_details (cg_id cg_name : option string) : run (option details) :=
  let id_or_name := if truthy_str cg_id then cg_id else cg_name in
  let errormsg := "Failed to get details of consistency group {0} with error {1}" in
  try_except
    (let! cg_details := call (sdk_get_cg cg_id cg_name) in
     let cg_name := match cg_name with
                    | None => Some (cg_name_of cg_details)
                    | Some n => Some n
                    end in
     if cg_existed cg_details then
       let! cg_obj := return_cg_instance cg_name in
       let! snapshots := call (sdk_snapshots cg_obj) in
       ret (Some (Details cg_details snapshots))
     else ret None)
    (λ e, match e with
          | UnityResourceNotFoundError => ret None
          | _ => fail_json (Msg errormsg [AOpt id_or_name; AExn e])
          end).

Definition get_volume_details (p : params) (vol_name vol_id : option string)
  : run string :=
  let id_or_name := if truthy_str vol_id then vol_id else vol_name in
  try_except
    (let! lun := call (sdk_get_lun vol_name vol_id) in
     let! cg :=
       if lun_existed lun then ret (lun_cg lun)
       else fail_json (Msg "The volume {0} not found." [AOpt id_or_name]) in
     let! cg_details := get_details (cg_id p) (cg_name p) in
     match cg with
     | None => ret (lun_ident lun)
     | Some (cg_ident_of_lun, cg_name_of_lun) =>
         let errormsg :=
           Msg "The volume {0} is already part of consistency group {1}"
               [AOpt id_or_name; AStr cg_name_of_lun] in
         match cg_details with
         | None => fail_json errormsg
         | Some d =>
             if negb (bool_decide (cg_ident_of_lun = cg_ident (props d)))
             then fail_json errormsg
             else ret (lun_ident lun)
         end
     end)
    (λ e, fail_json (Msg "Failed to get the volume {0} with error {1}"
                         [AOpt id_or_name; AExn e])).

(** The two loops that fill [ids_to_remove]. *)
Definition ids_to_remove_of (p : params) (cg_name : option string)
    (volumes : list volume) : run (list string) :=
  let! cg_details := call (sdk_get_cg None cg_name) in
  let existing_vol_ids := existing_vol_ids_of cg_details in
  let '(vol_id_list, vol_name_list) := split_volumes volumes in
  let! ids_to_remove :=
    for_fold vol_name_list
      (λ ids_to_remove vol,
         let! id := get_volume_details p (Some vol) None in
         ret (remove_by_name existing_vol_ids ids_to_remove id))
      [] in
  ret (foldl (remove_by_id existing_vol_ids) ids_to_remove vol_id_list).

Definition remove_volumes_from_cg (p : params) (cg_name : option string)
    (volumes : list volume) : run bool :=
  let! ids_to_remove := ids_to_remove_of p cg_name volumes in
  if bool_decide (length ids_to_remove = 0%nat) then ret false
  else
    let! cg_obj := return_cg_instance cg_name in
    try_except
      (let! _ := call (sdk_modify cg_obj (lun_remove ids_to_remove)) in
       ret true)
      (λ e, fail_json
              (Msg "Remove existing volumes from consistency group {0} failed with error {1}"
                   [AOpt cg_name; AExn e])).

(** The two loops that fill [ids_to_add]. *)
Definition ids_to_add_of (p : params) (cg_name : option string)
    (volumes : list volume) : run (list string) :=
  let! cg_details := call (sdk_get_cg None cg_name) in
  let existing_vol_ids := existing_vol_ids_of cg_details in
  let '(vol_id_list, vol_name_list) := split_volumes volumes in
  let! ids_to_add :=
    for_fold vol_name_list
      (λ ids_to_add vol,
         let! id := get_volume_details p (Some vol) None in
         ret (add_by_name existing_vol_ids ids_to_add id))
      [] in
  for_fold vol_id_list
    (λ ids_to_add vol,
       let! vol_by_id := get_volume_details p None (Some vol) in
       ret (add_by_id existing_vol_ids ids_to_add vol_by_id))
    ids_to_add.

Definition add_volumes_to_cg (p : params) (cg_name : option string)
    (volumes : list volume) (tiering_policy : option tiering_choice) : run bool :=
  let! ids_to_add := ids_to_add_of p cg_name volumes in
  if bool_decide (length ids_to_add = 0%nat) then ret false
  else
    let! cg_obj := return_cg_instance cg_name in
    let policy_enum := tiering_policy in
    try_except
      (let! _ := call (sdk_modify cg_obj (lun_add ids_to_add policy_enum)) in
       ret true)
      (λ e, fail_json
              (Msg "Add existing volumes to consistency group {0} failed with error {1}"
                   [AOpt cg_name; AExn e])).

Definition rename_cg (cg_name : option string) (new_cg_name : string) : run bool :=
  let! cg_obj := return_cg_instance cg_name in
  try_except
    (let! _ := call (sdk_modify cg_obj (rename_to new_cg_name)) in ret true)
    (λ e, fail_json
            (Msg "Rename operation of consistency group {0} failed with error {1}"
                 [AOpt cg_name; AExn e])).

Definition is_cg_modified (p : params) (cg_details : details) : run bool :=
  if bool_decide (is_Some (tiering_policy p))
     && bool_decide (cg_luns (props cg_details) = None)
     && bool_decide (volumes p = None)
  then fail_json (Msg "The system cannot assign a tiering policy to an empty Consistency group."
                      [])
  else ret (cg_modified_flag p (props cg_details)).

Definition create_cg (cg_name : string) (description snap_schedule : option string)
  : run bool :=
  try_except
    (let! _ := call (sdk_create cg_name description snap_schedule) in ret true)
    (λ e, fail_json
            (Msg "Create operation of consistency group {0} failed with error {1}"
                 [AStr cg_name; AExn e])).

Definition modify_cg (p : params) (cg_name : option string)
    (description snap_schedule : option string)
    (tiering_policy : option tiering_choice) : run bool :=
  let! cg_obj := return_cg_instance cg_name in
  let is_snap_schedule_paused :=
    if bool_decide (UnityConsistencyGroup.snap_schedule p = Some "")
    then Some false else None in
  let snap_schedule :=
    match snap_schedule with
    | None => None
    | Some s => if bool_decide (s = "") then Some None else Some (Some s)
    end in
  let policy_enum := tiering_policy in
  try_except
    (let! _ := call (sdk_modify cg_obj
                       (attributes description snap_schedule policy_enum
                                   is_snap_schedule_paused)) in
     ret true)
    (λ e, fail_json
            (Msg "Modify operation of consistency group {0} failed with error {1}"
                 [AOpt cg_name; AExn e])).

Definition delete_cg (cg_name : option string) : run bool :=
  let! cg_obj := return_cg_instance cg_name in
  try_except
    (let! _ := call (sdk_delete cg_obj) in ret true)
    (λ e, fail_json
            (Msg "Delete operation of consistency group {0} failed with error {1}"
                 [AOpt cg_name; AExn e])).

Definition validate_volumes (p : params) (volumes : list volume) : run unit :=
  for_each volumes (λ vol,
    match vol_id vol, vol_name vol with
    | Some _, Some _ =>
        fail_json (Msg ("Both name and id are found for volume {0}. No action "
                        +:+ "would be taken. Please specify either name or id.")
                       [AOpt (vol_id vol); AOpt (vol_name vol)])
    | Some i, None =>
        if is_blank i
        then fail_json (Msg "vol_id is blank. Please specify valid vol_id." [])
        else let! _ := get_volume_details p None (Some i) in ret ()
    | None, Some n =>
        if is_blank n
        then fail_json (Msg "vol_name is blank. Please specify valid vol_name." [])
        else let! _ := get_volume_details p (Some n) None in ret ()
    | None, None =>
        fail_json (Msg "Expected either vol_name or vol_id, found neither for volume {0}"
                       [])
    end).

Definition perform_module_operation (p : params) : run unit :=
  let volumes := volumes p in
  let is_present := bool_decide (state p = present) in
  let! cg_details := get_details (cg_id p) (cg_name p) in
  let '(cg_id, cg_name) :=
    match cg_name p, cg_details with
    | None, Some d => (None, Some (cg_name_of (props d)))
    | _, _ => (cg_id p, cg_name p)
    end in
  let! _ := if truthy_list volumes
            then validate_volumes p (default [] volumes)
            else ret () in
  let! modified := match cg_details with
                   | Some d => is_cg_modified p d
                   | None => ret false
                   end in
  let! _ := if bool_decide (is_Some (vol_state p)) && negb (truthy_list volumes)
            then fail_json (Msg "Specify volumes along with vol_state" [])
            else ret () in
  (* [found]: the truth value of [cg_details], a dict or, after a
     creation, the object that was created *)
  let found := bool_decide (is_Some cg_details) in
  let! step :=
    if is_present && negb found then
      let! _ := if negb (truthy_list volumes)
                   && bool_decide (is_Some (tiering_policy p))
                then fail_json (Msg "The system cannot assign a tiering policy to an empty Consistency group"
                                    [])
                else ret () in
      let! _ := if negb (truthy_str cg_name)
                then fail_json (Msg "The parameter cg_name length is 0. It is too short. The min length is 1."
                                    [])
                else ret () in
      let! _ := if truthy_str (new_cg_name p)
                then fail_json (Msg "Invalid argument, new_cg_name is not required" [])
                else ret () in
      let! r := create_cg (default "" cg_name) (description p) (snap_schedule p) in
      ret (Some r, None, true)
    else if bool_decide (state p = absent) && found then
      let! _ := if bool_decide (is_Some (cg_details ≫= (λ d, cg_luns (props d))))
                then fail_json (Msg ("Please remove all volumes which are part "
                                     +:+ "of consistency group before deleting it.")
                                    [])
                else ret () in
      let! r := delete_cg cg_name in
      ret (None, Some r, found)
    else ret (None, None, found) in
  let '(create_r, delete_r, found) := step in
  let! members :=
    if is_present && bool_decide (vol_state p = Some present_in_group)
       && found && truthy_list volumes
    then let! r := add_volumes_to_cg p cg_name (default [] volumes)
                     (tiering_policy p) in
         ret (Some r, None)
    else if is_present && bool_decide (vol_state p = Some absent_in_group)
            && found && truthy_list volumes
    then let! r := remove_volumes_from_cg p cg_name (default [] volumes) in
         ret (None, Some r)
    else ret (None, None) in
  let '(add_r, remove_r) := members in
  let! renamed :=
    match new_cg_name p with
    | Some new_cg_name =>
        if is_present then
          let! _ := if negb (truthy_str (Some new_cg_name))
                    then fail_json (Msg "The parameter new_cg_name length is 0. It is too short. The min length is 1."
                                        [])
                    else ret () in
          if negb (bool_decide (cg_name = Some new_cg_name))
          then let! r := rename_cg cg_name new_cg_name in
               ret (Some r, Some new_cg_name)
          else ret (None, cg_name)
        else ret (None, cg_name)
    | None => ret (None, cg_name)
    end in
  let '(rename_r, cg_name) := renamed in
  let! modify_r :=
    if is_present && found && modified
    then let! r := modify_cg p cg_name (description p) (snap_schedule p)
                     (tiering_policy p) in
         ret (Some r)
    else ret None in
  let changed := flag create_r || flag modify_r || flag add_r || flag remove_r
                 || flag delete_r || flag rename_r in
  let! final := get_details cg_id cg_name in
  exit_json (Result changed create_r modify_r rename_r add_r remove_r delete_r
               final).

End Methods.

End UnityConsistencyGroup.

(** * Unity volume: [dellemc_unity_volume.py] *)

Module UnityVolume.

(** [cap_unit]: [choices=['GB', 'TB']]; [sp]: [choices=['SPA', 'SPB']];
    [mapping_state]: [choices=['mapped', 'unmapped']]. *)
Inductive cap_choice : Type := GB | TB.
Inductive sp_choice : Type := SPA | SPB.
Inductive mapping_choice : Type := mapped | unmapped.

#[global] Instance sp_choice_eq_dec : EqDecision sp_choice.
Proof. solve_decision. Defined.

#[global] Instance mapping_choice_eq_dec : EqDecision mapping_choice.
Proof. solve_decision. Defined.

Definition sp_name (s : sp_choice) : string :=
  match s with SPA => "SPA" | SPB => "SPB" end.

(** A volume as the SDK object shows it. [current_node] and
    [vol_tiering_policy] hold the member name of the enum value;
    [host_access] lists the (id, name) of the hosts the volume is mapped
    to. *)
Record vol : Type := Vol {
  existed : bool;
  vol_ident : string;
  name : string;
  vol_description : option string;
  size_total : Z;
  is_data_reduction_enabled : option bool;
  is_thin_enabled : option bool;
  current_node : option string;
  vol_tiering_policy : option string;
  vol_io_limit_policy : option string;
  vol_snap_schedule : option string;
  host_access : option (list (string * string)) }.

(** A host, an I/O limit policy or a pool: whether it exists and its id. *)
Record entity : Type := Entity { ent_existed : bool; ent_ident : string }.

(** The change-set of [volume_modify_required], [to_update]: a key that is
    not in the dict is [None]. *)
Record to_update : Type := ToUpdate {
  u_name : option string;
  u_description : option string;
  u_size : option Z;
  u_is_compression : option bool;
  u_sp : option sp_choice;
  u_tiering_policy : option tiering_choice;
  u_io_limit_policy : option string;
  u_snap_schedule : option string;
  u_is_snap_schedule_paused : option bool }.

Definition empty_update : to_update :=
  ToUpdate None None None None None None None None None.

#[global] Instance to_update_eq_dec : EqDecision to_update.
Proof. solve_decision. Defined.

(** The keyword arguments of [obj_pool.create_lun]. *)
Record create_args : Type := CreateArgs {
  c_lun_name : option string;
  c_size_gb : Z;
  c_sp : option sp_choice;
  c_host_access : option (string * option Z);
  c_is_thin : option bool;
  c_description : option string;
  c_tiering_policy : option tiering_choice;
  c_snap_schedule : option string;
  c_io_limit_policy : option string;
  c_is_compression : option bool }.

(** The calls on the Unity connection and on the objects it hands out.
    The objects are named by their id. [sdk_attach_to] and
    [sdk_detach_from] answer with the truth value of the response. *)
Inductive Op : Type → Type :=
| sdk_get_lun (name _id : option string) : Op vol
| sdk_get_host (name _id : option string) : Op entity
| sdk_host_luns (host_id : string) : Op (option Z)
| sdk_get_io_limit_policy (_id name : option string) : Op entity
| sdk_snap_schedule_list (name : string) : Op (list string)
| sdk_get_pool (name _id : option string) : Op entity
| sdk_lun_update (vol_id : string) : Op vol
| sdk_create_lun (pool_id : string) (args : create_args) : Op vol
| sdk_lun_modify (vol_id : string) (change : to_update) : Op unit
| sdk_attach_to (vol_id host_id : string) (hlu : option Z) : Op bool
| sdk_detach_from (vol_id host_id : string) : Op bool
| sdk_lun_delete (vol_id : string) : Op unit.

Definition mutating {R} (op : Op R) : bool :=
  match op with
  | sdk_create_lun _ _ | sdk_lun_modify _ _ | sdk_attach_to _ _ _
  | sdk_detach_from _ _ | sdk_lun_delete _ => true
  | _ => false
  end.

(** A call that leaves the array as it is. *)
Abbreviation quiet := (unmarked (@mutating)).

Record params : Type := Params {
  vol_name : option string;
  vol_id : option string;
  description : option string;
  pool_name : option string;
  pool_id : option string;
  size : option Z;
  cap_unit : option cap_choice;
  is_thin : option bool;
  compression : option bool;
  sp : option sp_choice;
  io_limit_policy : option string;
  snap_schedule : option string;
  host_name : option string;
  host_id : option string;
  hlu : option Z;
  mapping_state : option mapping_choice;
  new_vol_name : option string;
  tiering_policy : option tiering_choice;
  state : state_choice }.

(** The class attributes that [perform_module_operation] fills in. *)
Record attrs : Type := Attrs {
  param_host_id : option string;
  param_io_limit_pol_id : option string;
  param_snap_schedule_name : option string }.

(** What is shown of a volume: its properties and the (name, id, hlu) of
    the hosts it is mapped to. *)
Record volume_details : Type := VolumeDetails {
  vd_props : vol;
  vd_host_access : option (list (string * string * Z)) }.

Record result : Type := Result {
  changed : bool;
  volume_details_r : option volume_details }.

(** Truth value of an [int] option: [None] and [0] are falsy. *)
Definition truthy_int (o : option Z) : bool :=
  match o with Some n => negb (n =? 0)%Z | None => false end.

(** [x != y] for a wanted value and what the object holds. *)
Definition differs_from {A} `{EqDecision A} (want : A) (have : option A) : bool :=
  negb (bool_decide (have = Some want)).

Definition update_is_empty (u : to_update) : bool := bool_decide (u = empty_update).

(** [to_update.update({key: value})] for every key. *)
Definition set_name (v : string) (u : to_update) : to_update :=
  ToUpdate (Some v) (u_description u) (u_size u) (u_is_compression u) (u_sp u)
    (u_tiering_policy u) (u_io_limit_policy u) (u_snap_schedule u)
    (u_is_snap_schedule_paused u).

Definition set_description (v : string) (u : to_update) : to_update :=
  ToUpdate (u_name u) (Some v) (u_size u) (u_is_compression u) (u_sp u)
    (u_tiering_policy u) (u_io_limit_policy u) (u_snap_schedule u)
    (u_is_snap_schedule_paused u).

Definition set_size (v : Z) (u : to_update) : to_update :=
  ToUpdate (u_name u) (u_description u) (Some v) (u_is_compression u) (u_sp u)
    (u_tiering_policy u) (u_io_limit_policy u) (u_snap_schedule u)
    (u_is_snap_schedule_paused u).

Definition set_is_compression (v : bool) (u : to_update) : to_update :=
  ToUpdate (u_name u) (u_description u) (u_size u) (Some v) (u_sp u)
    (u_tiering_policy u) (u_io_limit_policy u) (u_snap_schedule u)
    (u_is_snap_schedule_paused u).

Definition set_sp (v : sp_choice) (u : to_update) : to_update :=
  ToUpdate (u_name u) (u_description u) (u_size u) (u_is_compression u) (Some v)
    (u_tiering_policy u) (u_io_limit_policy u) (u_snap_schedule u)
    (u_is_snap_schedule_paused u).

Definition set_tiering_policy (v : tiering_choice) (u : to_update) : to_update :=
  ToUpdate (u_name u) (u_description u) (u_size u) (u_is_compression u) (u_sp u)
    (Some v) (u_io_limit_policy u) (u_snap_schedule u)
    (u_is_snap_schedule_paused u).

Definition set_io_limit_policy (v : string) (u : to_update) : to_update :=
  ToUpdate (u_name u) (u_description u) (u_size u) (u_is_compression u) (u_sp u)
    (u_tiering_policy u) (Some v) (u_snap_schedule u)
    (u_is_snap_schedule_paused u).

Definition set_snap_schedule (v : string) (u : to_update) : to_update :=
  ToUpdate (u_name u) (u_description u) (u_size u) (u_is_compression u) (u_sp u)
    (u_tiering_policy u) (u_io_limit_policy u) (Some v)
    (u_is_snap_schedule_paused u).

Definition set_is_snap_schedule_paused (v : bool) (u : to_update) : to_update :=
  ToUpdate (u_name u) (u_description u) (u_size u) (u_is_compression u) (u_sp u)
    (u_tiering_policy u) (u_io_limit_policy u) (u_snap_schedule u) (Some v).

(** [if cond: to_update.update({key: value})]. *)
Definition update_if (cond : bool) (f : to_update → to_update) (u : to_update)
  : to_update :=
  if cond then f u else u.

Section Methods.
Context {W : Type} `{!SDK Op W}.

(** [utils.get_size_bytes] and [utils.get_size_in_gb] are not part of the
    module: they are parameters here. *)
Variable get_size_bytes : Z → cap_choice → Z.
Variable get_size_in_gb : Z → cap_choice → Z.

Abbreviation run := (M Op W result).

Definition get_volume (vol_name vol_id : option string) : run (option vol) :=
  let id_or_name := if truthy_str vol_id then vol_id else vol_name in
  let errormsg := "Failed to get the volume {0} with error {1}" in
  try_except
    (let! obj_vol := call (sdk_get_lun vol_name vol_id) in
     if truthy_str vol_id && existed obj_vol then ret (Some obj_vol)
     else if truthy_str vol_name then ret (Some obj_vol)
     else ret None)
    (λ e, match e with
          | UnityResourceNotFoundError => ret None
          | _ => fail_json (Msg errormsg [AOpt id_or_name; AExn e])
          end).

Definition get_host (host_name host_id : option string) : run entity :=
  let id_or_name := if truthy_str host_id then host_id else host_name in
  try_except
    (let! obj_host := call (sdk_get_host host_name host_id) in
     if truthy_str host_id && ent_existed obj_host then ret obj_host
     else if truthy_str host_name then ret obj_host
     else fail_json (Msg "Failed to get the host {0}" [AOpt id_or_name]))
    (λ e, fail_json (Msg "Failed to get the host {0} with error {1}"
                         [AOpt id_or_name; AExn e])).

(** The name of the first schedule of the list that is returned, which is
    what [perform_module_operation] keeps of it. *)
Definition get_snap_schedule (name : string) : run string :=
  try_except
    (let! obj_ss := call (sdk_snap_schedule_list name) in
     match obj_ss with
     | first :: _ => ret first
     | [] => fail_json (Msg "Failed to get snapshot schedule with name {0}"
                            [AStr name])
     end)
    (λ e, fail_json (Msg "Failed to get the snapshot schedule {0} with error {1}"
                         [AStr name; AExn e])).

Definition get_io_limit_policy (name id : option string) : run entity :=
  let id_or_name := if truthy_str name then name else id in
  try_except
    (let! obj_iopol := call (sdk_get_io_limit_policy id name) in
     if truthy_str id && ent_existed obj_iopol then ret obj_iopol
     else if truthy_str name then ret obj_iopol
     else fail_json (Msg "Failed to get the io limit policy with {0}"
                         [AOpt id_or_name]))
    (λ e, fail_json (Msg "Failed to get the io limit policy {0} with error {1}"
                         [AOpt name; AExn e])).

Definition get_pool (pool_name pool_id : option string) : run entity :=
  let id_or_name := if truthy_str pool_id then pool_id else pool_name in
  try_except
    (let! obj_pool := call (sdk_get_pool pool_name pool_id) in
     if truthy_str pool_id && ent_existed obj_pool then ret obj_pool
     else if truthy_str pool_name then ret obj_pool
     else fail_json (Msg "Failed to get the pool with {0}" [AOpt id_or_name]))
    (λ e, fail_json (Msg "Failed to get the pool {0} with error {1}"
                         [AOpt id_or_name; AExn e])).

Definition create_volume (p : params) (a : attrs) (obj_pool : entity) (size : Z)
    (host_access : option (string * option Z)) : run vol :=
  try_except
    (let! io_limit_policy :=
       if truthy_str (io_limit_policy p)
       then let! pol := get_io_limit_policy None (param_io_limit_pol_id a) in
            ret (Some (ent_ident pol))
       else ret None in
     let snap_schedule :=
       if truthy_str (param_snap_schedule_name a)
       then param_snap_schedule_name a else None in
     call (sdk_create_lun (ent_ident obj_pool)
             (CreateArgs (vol_name p) size (sp p) host_access (is_thin p)
                (description p) (tiering_policy p) snap_schedule
                io_limit_policy (compression p))))
    (λ e, fail_json (Msg "Create volume operation {0} failed with error {1}"
                         [AOpt (vol_name p); AExn e])).

Definition host_access_modify_required (p : params) (a : attrs)
    (host_access_list : list (string * string)) : run bool :=
  try_except
    (let! host_id_list :=
       for_fold host_access_list
         (λ host_id_list host_access,
            let! host := get_host None (Some host_access.1) in
            let! _ := call (sdk_host_luns (ent_ident host)) in
            ret (host_id_list ++ [host_access.1]))
         [] in
     let listed := match param_host_id a with
                   | Some h => bool_decide (h ∈ host_id_list)
                   | None => false
                   end in
     let to_modify :=
       if bool_decide (mapping_state p = Some mapped) && negb listed then true
       else false in
     let to_modify :=
       if bool_decide (mapping_state p = Some unmapped) && listed then true
       else to_modify in
     ret to_modify)
    (λ e, fail_json (Msg "Failed to compare the host_access with error {0} {1}"
                         [AList (map fst host_access_list); AExn e])).

Definition volume_modify_required (p : params) (a : attrs) (obj_vol : vol)
    (cap_unit : option cap_choice) : run (option to_update) :=
  try_except
    (let to_update := empty_update in
     let to_update :=
       match new_vol_name p with
       | Some n => update_if (truthy_str (Some n)
                              && negb (bool_decide (name obj_vol = n)))
                             (set_name n) to_update
       | None => to_update
       end in
     let to_update :=
       match description p with
       | Some d => update_if (truthy_str (Some d)
                              && differs_from d (vol_description obj_vol))
                             (set_description d) to_update
       | None => to_update
       end in
     let! to_update :=
       match size p, cap_unit with
       | Some size, Some cap_unit =>
           if truthy_int (Some size) then
             let size_byte := get_size_bytes size cap_unit in
             if (size_byte <? size_total obj_vol)%Z
             then fail_json (Msg "Volume size can be expanded only" [])
             else ret (update_if (size_total obj_vol <? size_byte)%Z
                                 (set_size size_byte) to_update)
           else ret to_update
       | _, _ => ret to_update
       end in
     let to_update :=
       match compression p with
       | Some c => update_if (differs_from c (is_data_reduction_enabled obj_vol))
                             (set_is_compression c) to_update
       | None => to_update
       end in
     let! _ :=
       match is_thin p with
       | Some t => if differs_from t (is_thin_enabled obj_vol)
                   then fail_json (Msg "Modifying is_thin is not allowed" [])
                   else ret ()
       | None => ret ()
       end in
     let to_update :=
       match sp p with
       | Some s => update_if (differs_from (sp_name s) (current_node obj_vol))
                             (set_sp s) to_update
       | None => to_update
       end in
     let to_update :=
       match tiering_policy p with
       | Some t => update_if (differs_from (tiering_name t)
                                           (vol_tiering_policy obj_vol))
                             (set_tiering_policy t) to_update
       | None => to_update
       end in
     let to_update :=
       match param_io_limit_pol_id a with
       | Some i => update_if (truthy_str (Some i)
                              && differs_from i (vol_io_limit_policy obj_vol))
                             (set_io_limit_policy i) to_update
       | None => to_update
       end in
     let to_update :=
       match param_snap_schedule_name a with
       | Some n => update_if (truthy_str (Some n)
                              && differs_from n (vol_snap_schedule obj_vol))
                             (set_snap_schedule n) to_update
       | None => to_update
       end in
     let to_update :=
       update_if (bool_decide (param_snap_schedule_name a = Some "")
                  && bool_decide (is_Some (vol_snap_schedule obj_vol)))
                 (set_is_snap_schedule_paused false) to_update in
     if negb (update_is_empty to_update) then ret (Some to_update)
     else ret None)
    (λ e, fail_json
            (Msg "Failed to determine if volume {0},requires modification, with error {1}"
                 [AStr (name obj_vol); AExn e])).

Definition attach_to (host : entity) (obj_vol : vol) (hlu : option Z) : run bool :=
  try_except
    (call (sdk_attach_to (vol_ident obj_vol) (ent_ident host) hlu))
    (λ e, fail_json (Msg "Failed to attach host {0} with volume {1} ,  with error {2} "
                         [AStr (ent_ident host); AStr (name obj_vol); AExn e])).

Definition detach_from (host : entity) (obj_vol : vol) : run bool :=
  try_except
    (call (sdk_detach_from (vol_ident obj_vol) (ent_ident host)))
    (λ e, fail_json (Msg "Detach host {0} from volume {1} operation failed with error {2}"
                         [AStr (ent_ident host); AStr (name obj_vol); AExn e])).

Definition modify_volume (obj_vol : vol) (to_modify_dict : to_update) : run unit :=
  try_except
    (let! io_limit_policy :=
       match u_io_limit_policy to_modify_dict with
       | Some i => let! pol := get_io_limit_policy None (Some i) in
                   ret (Some (ent_ident pol))
       | None => ret None
       end in
     call (sdk_lun_modify (vol_ident obj_vol)
             (ToUpdate (u_name to_modify_dict) (u_description to_modify_dict)
                (u_size to_modify_dict) (u_is_compression to_modify_dict)
                (u_sp to_modify_dict) (u_tiering_policy to_modify_dict)
                io_limit_policy (u_snap_schedule to_modify_dict)
                (u_is_snap_schedule_paused to_modify_dict))))
    (λ e, fail_json (Msg "Failed to modify the volume {0} with error {1}"
                         [AStr (name obj_vol); AExn e])).

(** When [get_volume] gives [None], the attribute access on it raises
    inside the [try] and the handler fails the run. *)
Definition delete_volume (vol_id : string) : run bool :=
  try_except
    (let! obj_vol := get_volume None (Some vol_id) in
     match obj_vol with
     | Some v => let! _ := call (sdk_lun_delete (vol_ident v)) in ret true
     | None => raise (PyException "AttributeError")
     end)
    (λ e, fail_json (Msg "Delete operation of volume id:{0} failed with error {1}"
                         [AExn e])).

Definition get_volume_display_attributes (obj_vol : vol) : run volume_details :=
  try_except
    (let! obj_vol := call (sdk_lun_update (vol_ident obj_vol)) in
     let! host_list :=
       if truthy_list (host_access obj_vol) then
         for_fold (default [] (host_access obj_vol))
           (λ host_list host_access,
              let! host := get_host None (Some host_access.1) in
              let! hlu := call (sdk_host_luns (ent_ident host)) in
              match hlu with
              | Some hlu => ret (host_list ++ [(host_access.2, host_access.1, hlu)])
              | None => raise (PyException "KeyError")
              end)
           []
       else ret [] in
     ret (VolumeDetails obj_vol (Some host_list)))
    (λ e, fail_json (Msg "Failed to display the volume {0} with error {1}"
                         [AStr (name obj_vol); AExn e])).

(** The string options that [validate_input_string] looks at, with their
    keys: those of the module that are neither a choice nor in
    [no_chk_list]. *)
Definition checked_strings (p : params) : list (string * option string) :=
  [("vol_name", vol_name p); ("vol_id", vol_id p); ("pool_name", pool_name p);
   ("pool_id", pool_id p); ("io_limit_policy", io_limit_policy p);
   ("host_name", host_name p); ("host_id", host_id p);
   ("new_vol_name", new_vol_name p)].

(** ['Invalid input parameter "" for {0}']; the character 34 is the
    quotation mark. *)
Definition invalid_input : string :=
  "Invalid input parameter " +:+ String "034" (String "034" " for {0}").

Definition validate_input_string (p : params) : run unit :=
  try_except
    (for_each (checked_strings p) (λ kv,
       if bool_decide (kv.2 = Some "")
       then fail_json (Msg invalid_input [AStr kv.1])
       else ret ()))
    (λ e, fail_json (Msg "Failed to validate the module param with error {0}"
                         [AExn e])).

Definition perform_module_operation (p : params) : run unit :=
  let no_host := negb (truthy_str (host_name p)) && negb (truthy_str (host_id p)) in
  let is_present := bool_decide (state p = present) in
  let! _ := validate_input_string p in
  let! _ := if bool_decide (size p = Some 0%Z)
            then fail_json (Msg "Size can not be 0 (Zero)" [])
            else ret () in
  let cap_unit :=
    if truthy_int (size p) && negb (bool_decide (is_Some (cap_unit p)))
    then Some GB else cap_unit p in
  let! _ := if bool_decide (is_Some cap_unit) && negb (truthy_int (size p))
            then fail_json (Msg "cap_unit can be specified along with size" [])
            else ret () in
  let! _ := if truthy_int (hlu p) && no_host
            then fail_json (Msg "hlu can be specified with host_id or host_name" [])
            else ret () in
  let! _ := if bool_decide (is_Some (mapping_state p)) && no_host
            then fail_json (Msg "mapping_state can be specified with host_id or host_name"
                                [])
            else ret () in
  let! obj_vol := get_volume (vol_name p) (vol_id p) in
  let! param_host_id :=
    if negb no_host then
      let! _ := if negb (bool_decide (is_Some (mapping_state p)))
                then fail_json (Msg "'mapping_state' is required along with 'host_name' or 'host_id'"
                                    [])
                else ret () in
      let! host := get_host (host_name p) (host_id p) in
      ret (Some (ent_ident host))
    else ret None in
  let! param_io_limit_pol_id :=
    if truthy_str (io_limit_policy p)
    then let! pol := get_io_limit_policy (io_limit_policy p) None in
         ret (Some (ent_ident pol))
    else ret None in
  let! param_snap_schedule_name :=
    match snap_schedule p with
    | Some s => if truthy_str (Some s)
                then let! n := get_snap_schedule s in ret (Some n)
                else ret (Some s)
    | None => ret None
    end in
  let a := Attrs param_host_id param_io_limit_pol_id param_snap_schedule_name in
  let! fetched :=
    match obj_vol with
    | Some v =>
        let! to_modify_dict := volume_modify_required p a v cap_unit in
        let! to_modify_host :=
          if truthy_list (host_access v)
          then host_access_modify_required p a (default [] (host_access v))
          else ret (truthy_str param_host_id) in
        ret (to_modify_dict, to_modify_host)
    | None => ret (None, false)
    end in
  let '(to_modify_dict, to_modify_host) := fetched in
  let changed := false in
  let! created :=
    match obj_vol with
    | None =>
        if is_present then
          let! _ := if negb (truthy_str (vol_name p))
                    then fail_json (Msg ("volume with id {0} is not found, unable to "
                                         +:+ "create a volume without a valid vol_name")
                                        [AOpt (vol_id p)])
                    else ret () in
          let! _ := if bool_decide (snap_schedule p = Some "")
                    then fail_json (Msg "Invalid snap_schedule" [])
                    else ret () in
          let! _ := if truthy_str (new_vol_name p)
                    then fail_json (Msg "new_vol_name is not required to create a new volume"
                                        [])
                    else ret () in
          let! _ := if negb (truthy_str (pool_name p)) && negb (truthy_str (pool_id p))
                    then fail_json (Msg "pool_id or pool_name is required to create new volume"
                                        [])
                    else ret () in
          let! _ := if negb (truthy_int (size p))
                    then fail_json (Msg "Size is required to create a volume" [])
                    else ret () in
          let! host_access :=
            if truthy_str param_host_id
            then let! host := get_host None param_host_id in
                 ret (Some (ent_ident host,
                            if truthy_int (hlu p) then hlu p else None))
            else ret None in
          let size := get_size_in_gb (default 0%Z (size p))
                        (default GB cap_unit) in
          let! obj_pool := get_pool (pool_name p) (pool_id p) in
          let! v := create_volume p a obj_pool size host_access in
          ret (Some v, true)
        else ret (None, changed)
    | Some v => ret (Some v, changed)
    end in
  let '(obj_vol, changed) := created in
  match obj_vol with
  | None => exit_json (Result changed None)
  | Some v =>
      let! changed :=
        if is_present && bool_decide (is_Some to_modify_dict)
        then let! _ := modify_volume v (default empty_update to_modify_dict) in
             ret true
        else ret changed in
      let! changed :=
        if is_present && bool_decide (mapping_state p = Some mapped)
           && to_modify_host
        then let! host := get_host None param_host_id in
             let! resp := attach_to host v (hlu p) in
             ret resp
        else ret changed in
      let! changed :=
        if is_present && bool_decide (mapping_state p = Some unmapped)
           && to_modify_host
        then let! host := get_host None param_host_id in
             let! resp := detach_from host v in
             ret resp
        else ret changed in
      match state p with
      | absent =>
          let! changed := delete_volume (vol_ident v) in
          exit_json (Result changed None)
      | present =>
          let! volume_details := get_volume_display_attributes v in
          exit_json (Result changed (Some volume_details))
      end
  end.

End Methods.

End UnityVolume.

(** * Specifications *)

(** ** What a computation does to the trace and how it ends *)

Section Logic.
Context {Op : Type → Type} {W J : Type} `{!SDK Op W}.

(** A predicate on outcomes from one predicate per way of ending. *)
Definition post {A} (R : A → Prop) (X : exn → Prop) (E : J → Prop)
    (F : message → Prop) (o : outcome J A) : Prop :=
  match o with
  | Ret a => R a
  | Raise e => X e
  | ExitJson r => E r
  | FailJson m => F m
  end.

(** [emits P Q c]: from any array and any trace, [c] only appends SDK
    calls that satisfy [P], and it ends in an outcome that satisfies [Q]. *)
Definition emits {A} (P : event Op → Prop) (Q : outcome J A → Prop)
    (c : M Op W J A) : Prop :=
  ∀ w t, ∃ Δ, (c w t).2 = t ++ Δ ∧ Forall P Δ ∧ Q (c w t).1.1.

End Logic.

Definition any {A} : A → Prop := λ _, True.
Definition never {A} : A → Prop := λ _, False.

(** ** Runs on the test double *)

Module Scenarios.
Import PowerMaxHostGroup FakePowerMax.

(** An array with the host group [hg1], whose only member is [h1] and
    whose flags are all at their default, and the hosts [h1] and [h2]. *)
Definition one_group : array :=
  Array {[ "hg1" := HostGroup "hg1" (Some ["h1"]) "" "" false ]}
        {[ "h1"; "h2" ]}.

(** Add [h2] to [hg1] and ask for a flag state that [hg1] already has. *)
Definition add_host_keep_flags : params :=
  Params "hg1" (Some ["h2"]) present (Some present_in_group)
         (Some [("openvms", PyStr "unset")]) None.

(** Add the host [ghost], which the array does not know, to [hg1]. *)
Definition add_unknown_host : params :=
  Params "hg1" (Some ["ghost"]) present (Some present_in_group) None None.


(** Create [hg9] with two hosts and three flags. *)
Definition create_group : params :=
  Params "hg9" (Some ["h1"; "h2"]) present (Some present_in_group)
         (Some [("openvms", PyBool true); ("scsi_3", PyStr "false");
                ("environ_set", PyStr "unset")]) None.

End Scenarios.


(** What the array answers to [get_hostgroup], as the module reads it. *)
Definition fetched_hostgroup (r : exn + option PowerMaxHostGroup.hostgroup)
  : option PowerMaxHostGroup.hostgroup :=
  match r with inr g => g | inl _ => None end.


(** The entry that a fetch of the host group [name] leaves in the trace. *)
Definition fetch_ev (name : string) (r : exn + option PowerMaxHostGroup.hostgroup)
  : event PowerMaxHostGroup.Op :=
  Event (PowerMaxHostGroup.sdk_get_hostgroup name)
        (if r is inr _ then true else false).


(** The message that refuses to delete a consistency group with volumes. *)
Definition refusal : message :=
  Msg ("Please remove all volumes which are part "
       +:+ "of consistency group before deleting it.") [].

(** The ids that [add_volumes_to_cg] and [remove_volumes_from_cg] select,
    from the ids the array gave for the names that were asked for
    ([by_name]) and for the ids that were asked for ([by_id]). *)
Definition select_to_add (existing_vol_ids by_name by_id : list string)
  : list string :=
  foldl (UnityConsistencyGroup.add_by_id existing_vol_ids)
        (foldl (UnityConsistencyGroup.add_by_name existing_vol_ids) [] by_name)
        by_id.

Definition select_to_remove (existing_vol_ids by_name vol_id_list : list string)
  : list string :=
  foldl (UnityConsistencyGroup.remove_by_id existing_vol_ids)
        (foldl (UnityConsistencyGroup.remove_by_name existing_vol_ids) [] by_name)
        vol_id_list.

Section Factored.
Import UnityConsistencyGroup.
Context {W : Type} `{!SDK Op W}.

(** [ids_to_add_of] and [ids_to_remove_of] with the look-ups taken out of
    the loops: fetch the group, resolve the names, resolve the ids, select. *)
Definition ids_to_add_factored (p : params) (cg_name : option string)
    (volumes : list volume) : M Op W result (list string) :=
  let! cg_details := call (sdk_get_cg None cg_name) in
  let! by_name :=
    for_collect (split_volumes volumes).2
      (λ vol, get_volume_details p (Some vol) None) in
  let! by_id :=
    for_collect (split_volumes volumes).1
      (λ vol, get_volume_details p None (Some vol)) in
  ret (select_to_add (existing_vol_ids_of cg_details) by_name by_id).

Definition ids_to_remove_factored (p : params) (cg_name : option string)
    (volumes : list volume) : M Op W result (list string) :=
  let! cg_details := call (sdk_get_cg None cg_name) in
  let! by_name :=
    for_collect (split_volumes volumes).2
      (λ vol, get_volume_details p (Some vol) None) in
  ret (select_to_remove (existing_vol_ids_of cg_details) by_name
         (split_volumes volumes).1).

End Factored.


(** ** Membership and its directive *)

(** What the host group module may ask of the array under the directive of
    the request: hosts are added only under [present-in-group] and removed
    only under [absent-in-group], in both cases hosts of the request only,
    and a group is created with hosts only under [present-in-group], with
    the hosts of the request. *)
Definition hg_follows_directive (p : PowerMaxHostGroup.params)
    (e : event PowerMaxHostGroup.Op) : Prop :=
  match ev_op e with
  | PowerMaxHostGroup.sdk_modify_hostgroup _ (PowerMaxHostGroup.add_host_list l) =>
      PowerMaxHostGroup.host_state p = Some present_in_group
      ∧ l ⊆ default [] (PowerMaxHostGroup.hosts p)
  | PowerMaxHostGroup.sdk_modify_hostgroup _
      (PowerMaxHostGroup.remove_host_list l) =>
      PowerMaxHostGroup.host_state p = Some absent_in_group
      ∧ l ⊆ default [] (PowerMaxHostGroup.hosts p)
  | PowerMaxHostGroup.sdk_create_hostgroup _ _ l =>
      PowerMaxHostGroup.host_state p = Some present_in_group
      ∧ PowerMaxHostGroup.hosts p = Some l
  | _ => True
  end.

(** The same for the volumes of a consistency group. *)
Definition cg_follows_directive (p : UnityConsistencyGroup.params)
    (e : event UnityConsistencyGroup.Op) : Prop :=
  match ev_op e with
  | UnityConsistencyGroup.sdk_modify _ (UnityConsistencyGroup.lun_add _ _) =>
      UnityConsistencyGroup.vol_state p = Some present_in_group
  | UnityConsistencyGroup.sdk_modify _ (UnityConsistencyGroup.lun_remove _) =>
      UnityConsistencyGroup.vol_state p = Some absent_in_group
  | _ => True
  end.

(** An entry of [volumes] that names a volume by its id or by its name,
    not by both. *)
Definition one_of_id_and_name (v : UnityConsistencyGroup.volume) : Prop :=
  UnityConsistencyGroup.vol_id v = None ∨ UnityConsistencyGroup.vol_name v = None.

(** Add [vol2], which is in no group, to [cg1] of
    [FakeUnityGroups.one_group]. *)
Definition add_second_volume : UnityConsistencyGroup.params :=
  UnityConsistencyGroup.Params (Some "cg1") None None
    (Some [UnityConsistencyGroup.Volume None (Some "vol2")]) None None None
    (Some present_in_group) present.

(** Remove [sv_1], which [cg1] holds, and [sv_2], which it does not. *)
Definition remove_both_volumes : UnityConsistencyGroup.params :=
  UnityConsistencyGroup.Params (Some "cg1") None None
    (Some [UnityConsistencyGroup.Volume (Some "sv_1") None;
           UnityConsistencyGroup.Volume (Some "sv_2") None]) None None None
    (Some absent_in_group) present.

(** ** Host flags *)

(** The truth value of a received value. *)
Definition truthy (v : pyval) : bool :=
  match v with
  | PyNone => false
  | PyBool b => b
  | PyInt n => negb (n =? 0)%Z
  | PyStr s => negb (bool_decide (s = ""))
  end.

(** The spellings of the three documented values. *)
Definition says_unset (v : pyval) : bool := in_strs v ["unset"; "Unset"].
Definition says_false (v : pyval) : bool :=
  is_False v || in_strs v ["false"; "False"].
Definition says_true (v : pyval) : bool :=
  is_True v || in_strs v ["True"; "true"].

Definition flag_default : PowerMaxHostGroup.flag_entry :=
  PowerMaxHostGroup.FlagDict false false.
Definition flag_disabled : PowerMaxHostGroup.flag_entry :=
  PowerMaxHostGroup.FlagDict false true.
Definition flag_enabled : PowerMaxHostGroup.flag_entry :=
  PowerMaxHostGroup.FlagDict true true.

(** The tri-state rule as it is claimed: a flag that is omitted or [unset]
    goes to its default, [false] disables it, any other truthy value
    enables it. The rule says nothing of the other falsy values. *)
Definition flag_rule (received : option pyval)
  : option PowerMaxHostGroup.flag_entry :=
  match received with
  | None => Some flag_default
  | Some v =>
      if says_unset v then Some flag_default
      else if says_false v then Some flag_disabled
      else if truthy v then Some flag_enabled
      else None
  end.

(** The claim that creation and modification both follow [flag_rule]. *)
Definition tri_state_on_both_paths : Prop :=
  ∀ (received : list (string * pyval)) (current : PowerMaxHostGroup.flags_dict)
    (name : string) (e : PowerMaxHostGroup.flag_entry),
    name ∈ PowerMaxHostGroup.host_flags_list →
    flag_rule (dict_get received name) = Some e →
    PowerMaxHostGroup._create_host_flags_dict received ∅ !! name = Some e
    ∧ PowerMaxHostGroup.new_flags_of current received !! name = Some e.

(** The entry that [_create_host_flags_dict] writes for a flag of
    [host_flags_list], and the one that [modify_host_flags] writes under
    the lower-cased key of a received flag. *)
Definition create_entry (received : option pyval) : PowerMaxHostGroup.flag_entry :=
  match received with
  | None => flag_default
  | Some v =>
      if says_unset v then flag_default
      else if says_false v then flag_disabled
      else flag_enabled
  end.

Definition modify_entry (flag : string) (v : pyval) : PowerMaxHostGroup.flag_entry :=
  if negb (bool_decide (flag = "consistent_lun")) then
    if says_true v then flag_enabled
    else if says_false v then flag_disabled
    else flag_default
  else if is_False v || in_strs v ["False"; "false"; "unset"; "Unset"]
       then PowerMaxHostGroup.FlagBool false
       else PowerMaxHostGroup.FlagBool true.

(** The flags payload with which [create_hostgroup] creates a group: the
    one [_create_host_flags_dict] computes from the flags of the request,
    or the empty one when the request has none. *)
Definition hg_create_carries (p : PowerMaxHostGroup.params)
    (e : event PowerMaxHostGroup.Op) : Prop :=
  let payload : PowerMaxHostGroup.flags_dict :=
    if truthy_list (PowerMaxHostGroup.host_flags p)
    then PowerMaxHostGroup._create_host_flags_dict
           (default [] (PowerMaxHostGroup.host_flags p)) ∅
    else ∅ in
  match ev_op e with
  | PowerMaxHostGroup.sdk_create_host _ d => d = payload
  | PowerMaxHostGroup.sdk_create_hostgroup _ d _ => d = payload
  | _ => True
  end.

(** A request whose flag names are ASCII text. *)
Definition ascii_keys (received : list (string * pyval)) : Prop :=
  Forall (λ kv, ascii_only kv.1 = true) received.

(** ** Masking view: host and host group together *)

(** The failure of [is_mv_changed] for the view [mv]. *)
Definition differs_msg (mv : PowerMaxMaskingView.masking_view) : message :=
  Msg ("One or more of parameters (PG, SG, Host/Host Group) "
       +:+ "provided for the MV {0} differ from the state of "
       +:+ "the MV on the array.")
      [AStr (PowerMaxMaskingView.maskingViewId mv)].

(** The failure of [create_masking_view] when both a host and a host group
    are named. *)
Definition either_host_or_hostgroup (mv_name : string) : message :=
  Msg "Failed to create masking view {0},Please provide either host or hostgroup"
      [AStr mv_name].

(** ** Renaming *)

(** A rename call of the masking view module names two different names. *)
Definition mv_rename_differs (e : event PowerMaxMaskingView.Op) : Prop :=
  match ev_op e with
  | PowerMaxMaskingView.sdk_rename_masking_view old new => old ≠ new
  | _ => True
  end.

(** A call of the masking view module that does not create a view. *)
Definition mv_no_create (e : event PowerMaxMaskingView.Op) : Prop :=
  match ev_op e with
  | PowerMaxMaskingView.sdk_create_masking_view_existing_components _ _ _ _ _ =>
      False
  | _ => True
  end.

(** A call of the consistency group module that is not a rename. *)
Definition cg_no_rename (e : event UnityConsistencyGroup.Op) : Prop :=
  match ev_op e with
  | UnityConsistencyGroup.sdk_modify _ (UnityConsistencyGroup.rename_to _) => False
  | _ => True
  end.

(** The name [perform_module_operation] compares [new_cg_name] with: the
    option [cg_name] or, when the group was looked up by id, the name the
    array gives. *)
Definition current_cg_name (p : UnityConsistencyGroup.params)
    (d : UnityConsistencyGroup.details) : string :=
  match UnityConsistencyGroup.cg_name p with
  | Some n => n
  | None => UnityConsistencyGroup.cg_name_of (UnityConsistencyGroup.props d)
  end.

(** ** Size of a Unity volume *)

(** [cap_unit] as [perform_module_operation] hands it to
    [volume_modify_required]: ['GB'] when a size comes without a unit. *)
Definition effective_cap_unit (p : UnityVolume.params)
  : option UnityVolume.cap_choice :=
  if UnityVolume.truthy_int (UnityVolume.size p)
     && negb (bool_decide (is_Some (UnityVolume.cap_unit p)))
  then Some UnityVolume.GB else UnityVolume.cap_unit p.

(** The size that is asked for, in bytes: [size_byte], when
    [volume_modify_required] computes it. *)
Definition requested_bytes (get_size_bytes : Z → UnityVolume.cap_choice → Z)
    (p : UnityVolume.params) (cap_unit : option UnityVolume.cap_choice)
  : option Z :=
  match UnityVolume.size p, cap_unit with
  | Some size, Some cap_unit =>
      if UnityVolume.truthy_int (Some size)
      then Some (get_size_bytes size cap_unit) else None
  | _, _ => None
  end.

Definition expand_only : message := Msg "Volume size can be expanded only" [].

(** A check that makes no call: it passes or fails where it stands. *)
Definition stands {Op : Type → Type} {W J : Type} (c : M Op W J ()) : Prop :=
  ∀ w t, c w t = (Ret (), w, t) ∨ ∃ m, c w t = (FailJson m, w, t).

(** ** A test double for the Unity consistency groups *)

Module FakeUnityGroups.
Import UnityConsistencyGroup.

(** The groups, and the (id, name) of the volumes of the array. The group
    a volume belongs to is read off the groups. *)
Record array : Type := Array {
  groups : list cg;
  volumes_of : list (string * string) }.

Definition refused {R} (a : array) : (exn + R) * array :=
  (inl (PyException "refused by the array"), a).

Definition names_group (_id name : option string) (c : cg) : bool :=
  match _id, name with
  | Some i, _ => bool_decide (cg_ident c = i)
  | None, Some n => bool_decide (cg_name_of c = n)
  | None, None => false
  end.

Definition names_volume (name _id : option string) (v : string * string) : bool :=
  match _id, name with
  | Some i, _ => bool_decide (v.1 = i)
  | None, Some n => bool_decide (v.2 = n)
  | None, None => false
  end.

Definition holds (id : string) (c : cg) : bool :=
  bool_decide (id ∈ existing_vol_ids_of c).

Definition with_luns (l : list (string * string)) (c : cg) : cg :=
  CG (cg_existed c) (cg_ident c) (cg_name_of c) (cg_description c)
     (match l with [] => None | _ => Some l end)
     (cg_snap_schedule c) (cg_relocation_policy c).

Definition change (a : array) (ch : cg_change) (c : cg) : cg :=
  match ch with
  | lun_add ids tp =>
      let added := List.filter (λ v, bool_decide (v.1 ∈ ids)) (volumes_of a) in
      CG (cg_existed c) (cg_ident c) (cg_name_of c) (cg_description c)
         (Some (default [] (cg_luns c) ++ added)) (cg_snap_schedule c)
         (match tp with
          | Some t => Some (tiering_name t)
          | None => cg_relocation_policy c
          end)
  | lun_remove ids =>
      with_luns (List.filter (λ v, negb (bool_decide (v.1 ∈ ids)))
                             (default [] (cg_luns c))) c
  | rename_to n =>
      CG (cg_existed c) (cg_ident c) n (cg_description c) (cg_luns c)
         (cg_snap_schedule c) (cg_relocation_policy c)
  | attributes d s tp _ =>
      CG (cg_existed c) (cg_ident c) (cg_name_of c)
         (match d with Some _ => d | None => cg_description c end) (cg_luns c)
         (match s with Some s' => s' | None => cg_snap_schedule c end)
         (match tp with
          | Some t => Some (tiering_name t)
          | None => cg_relocation_policy c
          end)
  end.

Definition fake_exec R (op : Op R) (a : array) : (exn + R) * array :=
  match op in Op R return (exn + R) * array with
  | sdk_get_cg _id name =>
      match List.find (names_group _id name) (groups a) with
      | Some c => (inr c, a)
      | None => (inl UnityResourceNotFoundError, a)
      end
  | sdk_snapshots _ => (inr [], a)
  | sdk_get_lun name _id =>
      match List.find (names_volume name _id) (volumes_of a) with
      | Some v =>
          (inr (Lun true v.1
                  ((λ c, (cg_ident c, cg_name_of c))
                     <$> List.find (holds v.1) (groups a))), a)
      | None => (inr (Lun false "" None), a)
      end
  | sdk_create name d s =>
      match List.find (names_group None (Some name)) (groups a) with
      | Some _ => refused a
      | None =>
          (inr (), Array (groups a ++ [CG true ("res_" +:+ name) name d None s None])
                         (volumes_of a))
      end
  | sdk_modify id ch =>
      match List.find (names_group (Some id) None) (groups a) with
      | Some _ =>
          (inr (), Array (map (λ c, if names_group (Some id) None c
                                    then change a ch c else c) (groups a))
                         (volumes_of a))
      | None => refused a
      end
  | sdk_delete id =>
      match List.find (names_group (Some id) None) (groups a) with
      | Some _ =>
          (inr (), Array (List.filter (λ c, negb (names_group (Some id) None c))
                                      (groups a))
                         (volumes_of a))
      | None => refused a
      end
  end.

#[global] Instance fake_sdk : SDK Op array := fake_exec.

Definition run_module (p : params) (a : array) :=
  perform_module_operation (W := array) p a [].

(** An array with the group [cg1], which holds the volume [sv_1], and with
    a second volume [sv_2] that is in no group. *)
Definition one_group : array :=
  Array [CG true "res_1" "cg1" None (Some [("sv_1", "vol1")]) None None]
        [("sv_1", "vol1"); ("sv_2", "vol2")].

Definition request (cg_name : string) (state : state_choice) : params :=
  Params (Some cg_name) None None None None None None None state.

(** Delete [cg1]. *)
Definition delete_group : params := request "cg1" absent.

(** Rename [cg1] to the name it has. *)
Definition rename_to_itself : params :=
  Params (Some "cg1") None None None None (Some "cg1") None None present.

(** Add [vol1], which [cg1] holds already. *)
Definition add_member_again : params :=
  Params (Some "cg1") None None (Some [Volume None (Some "vol1")]) None None
         None (Some present_in_group) present.

(** Remove [vol2], which [cg1] does not hold. *)
Definition remove_stranger : params :=
  Params (Some "cg1") None None (Some [Volume (Some "sv_2") None]) None None
         None (Some absent_in_group) present.

End FakeUnityGroups.

(** ** A test double for the PowerMax masking views *)

Module FakePowerMaxViews.
Import PowerMaxMaskingView.

(** The masking views of the array. *)
Definition array : Type := list masking_view.

Definition refused {R} (a : array) : (exn + R) * array :=
  (inl (PyException "refused by the array"), a).

Definition named (n : string) (mv : masking_view) : bool :=
  bool_decide (maskingViewId mv = n).

Definition fake_exec R (op : Op R) (a : array) : (exn + R) * array :=
  match op in Op R return (exn + R) * array with
  | sdk_get_masking_view_list => (inr (map maskingViewId a), a)
  | sdk_get_masking_view n =>
      match List.find (named n) a with
      | Some mv => (inr (Some mv), a)
      | None => refused a
      end
  | sdk_create_masking_view_existing_components pg n sg h hg =>
      match List.find (named n) a with
      | Some _ => refused a
      | None =>
          let mv := MaskingView n (Some pg) (Some sg) h hg in
          (inr (Some mv), a ++ [mv])
      end
  | sdk_delete_masking_view n =>
      match List.find (named n) a with
      | Some _ => (inr (), List.filter (λ mv, negb (named n mv)) a)
      | None => refused a
      end
  | sdk_rename_masking_view n n' =>
      match List.find (named n) a, List.find (named n') a with
      | Some _, None =>
          (inr (), map (λ mv, if named n mv
                              then MaskingView n' (portGroupId mv)
                                     (storageGroupId mv) (hostId mv)
                                     (hostGroupId mv)
                              else mv) a)
      | _, _ => refused a
      end
  end.

#[global] Instance fake_sdk : SDK Op array := fake_exec.

Definition run_module (p : params) (a : array) := main (W := array) p a [].

(** An array with the masking view [mv1] of the host [h1]. *)
Definition one_view : array :=
  [MaskingView "mv1" (Some "pg1") (Some "sg1") (Some "h1") None].

(** Rename [mv1] to the name it has. *)
Definition rename_to_itself : params :=
  Params "mv1" None None None None (Some "mv1") present.

(** Rename [mv1] to [mv2]. *)
Definition rename_view : params :=
  Params "mv1" None None None None (Some "mv2") present.

(** Create [mv9] and name both a host and a host group. *)
Definition both_targets : params :=
  Params "mv9" (Some "pg1") (Some "h1") (Some "hg1") (Some "sg1") None present.

(** Ask for [mv1] and name both a host and a host group. *)
Definition both_targets_on_view : params :=
  Params "mv1" None (Some "h1") (Some "hg1") None None present.

(** Create [mv9] for the host [h1]. *)
Definition create_view : params :=
  Params "mv9" (Some "pg1") (Some "h1") None (Some "sg1") None present.

End FakePowerMaxViews.

(** ** A test double for the Unity volumes *)

Module FakeUnityVolumes.
Import UnityVolume.

(** The conversions that [utils] is taken to make: binary units. *)
Definition size_bytes (size : Z) (cap_unit : cap_choice) : Z :=
  match cap_unit with
  | GB => size * 2 ^ 30
  | TB => size * 2 ^ 40
  end.

Definition size_in_gb (size : Z) (cap_unit : cap_choice) : Z :=
  match cap_unit with
  | GB => size
  | TB => size * 1024
  end.

(** The volumes of the array and the (id, name) of its hosts, pools,
    I/O limit policies and snapshot schedules. *)
Record array : Type := Array {
  vols : list vol;
  hosts_of : list (string * string);
  pools_of : list (string * string);
  policies_of : list (string * string);
  schedules_of : list string }.

Definition refused {R} (a : array) : (exn + R) * array :=
  (inl (PyException "refused by the array"), a).

Definition names_vol (name _id : option string) (v : vol) : bool :=
  match _id, name with
  | Some i, _ => bool_decide (vol_ident v = i)
  | None, Some n => bool_decide (UnityVolume.name v = n)
  | None, None => false
  end.

Definition names_entity (name _id : option string) (e : string * string) : bool :=
  match _id, name with
  | Some i, _ => bool_decide (e.1 = i)
  | None, Some n => bool_decide (e.2 = n)
  | None, None => false
  end.

Definition lookup_entity (l : list (string * string))
    (name _id : option string) (a : array) : (exn + entity) * array :=
  match List.find (names_entity name _id) l with
  | Some e => (inr (Entity true e.1), a)
  | None => (inl UnityResourceNotFoundError, a)
  end.

Definition put_vols (l : list vol) (a : array) : array :=
  Array l (hosts_of a) (pools_of a) (policies_of a) (schedules_of a).

Definition on_vol (id : string) (f : vol → vol) (a : array) : array :=
  put_vols (map (λ v, if names_vol None (Some id) v then f v else v) (vols a)) a.

Definition created (id : string) (c : create_args) (a : array) : vol :=
  Vol true id (default "" (c_lun_name c)) (c_description c)
      (c_size_gb c * 2 ^ 30) (c_is_compression c) (c_is_thin c)
      (sp_name <$> c_sp c) (tiering_name <$> c_tiering_policy c)
      (c_io_limit_policy c) (c_snap_schedule c)
      (match c_host_access c with
       | Some (h, _) =>
           Some (List.filter (λ e, bool_decide (e.1 = h)) (hosts_of a))
       | None => None
       end).

Definition modified (u : to_update) (v : vol) : vol :=
  Vol (existed v) (vol_ident v)
      (default (UnityVolume.name v) (u_name u))
      (match u_description u with Some d => Some d | None => vol_description v end)
      (default (size_total v) (u_size u))
      (match u_is_compression u with
       | Some c => Some c
       | None => is_data_reduction_enabled v
       end)
      (is_thin_enabled v)
      (match u_sp u with Some s => Some (sp_name s) | None => current_node v end)
      (match u_tiering_policy u with
       | Some t => Some (tiering_name t)
       | None => vol_tiering_policy v
       end)
      (match u_io_limit_policy u with
       | Some i => Some i
       | None => vol_io_limit_policy v
       end)
      (match u_is_snap_schedule_paused u, u_snap_schedule u with
       | Some false, _ => None
       | _, Some n => Some n
       | _, None => vol_snap_schedule v
       end)
      (host_access v).

Definition with_access (l : list (string * string)) (v : vol) : vol :=
  Vol (existed v) (vol_ident v) (UnityVolume.name v) (vol_description v)
      (size_total v) (is_data_reduction_enabled v) (is_thin_enabled v)
      (current_node v) (vol_tiering_policy v) (vol_io_limit_policy v)
      (vol_snap_schedule v) (match l with [] => None | _ => Some l end).

Definition fake_exec R (op : Op R) (a : array) : (exn + R) * array :=
  match op in Op R return (exn + R) * array with
  | sdk_get_lun name _id =>
      match List.find (names_vol name _id) (vols a) with
      | Some v => (inr v, a)
      | None => (inl UnityResourceNotFoundError, a)
      end
  | sdk_get_host name _id => lookup_entity (hosts_of a) name _id a
  | sdk_host_luns _ => (inr (Some 0%Z), a)
  | sdk_get_io_limit_policy _id name =>
      lookup_entity (policies_of a) name _id a
  | sdk_snap_schedule_list name =>
      (inr (List.filter (λ n, bool_decide (n = name)) (schedules_of a)), a)
  | sdk_get_pool name _id => lookup_entity (pools_of a) name _id a
  | sdk_lun_update id =>
      match List.find (names_vol None (Some id)) (vols a) with
      | Some v => (inr v, a)
      | None => (inl UnityResourceNotFoundError, a)
      end
  | sdk_create_lun pool c =>
      match List.find (names_vol (c_lun_name c) None) (vols a) with
      | Some _ => refused a
      | None =>
          let v := created ("sv_" +:+ default "" (c_lun_name c)) c a in
          (inr v, put_vols (vols a ++ [v]) a)
      end
  | sdk_lun_modify id u => (inr (), on_vol id (modified u) a)
  | sdk_attach_to id h _ =>
      (inr true,
       on_vol id (λ v, with_access
                         (default [] (host_access v)
                          ++ List.filter (λ e, bool_decide (e.1 = h)) (hosts_of a))
                         v) a)
  | sdk_detach_from id h =>
      (inr true,
       on_vol id (λ v, with_access
                         (List.filter (λ e, negb (bool_decide (e.1 = h)))
                                      (default [] (host_access v)))
                         v) a)
  | sdk_lun_delete id =>
      match List.find (names_vol None (Some id)) (vols a) with
      | Some _ =>
          (inr (), put_vols (List.filter (λ v, negb (names_vol None (Some id) v))
                                         (vols a)) a)
      | None => refused a
      end
  end.

#[global] Instance fake_sdk : SDK Op array := fake_exec.

Definition run_module (p : params) (a : array) :=
  perform_module_operation (W := array) size_bytes size_in_gb p a [].

(** An array with the pool [poolA], the host [host1] and no volume. *)
Definition no_volume : array :=
  Array [] [("Host_1", "host1")] [("pool_1", "poolA")] [] ["sched1"].

(** A request for the volume [vol1]. *)
Definition request (size : option Z) (state : state_choice) : params :=
  Params (Some "vol1") None None (Some "poolA") None size (Some GB) (Some true)
         None None None None None None None None None None state.

(** Create [vol1] in [poolA] with a size of 2 GB. *)
Definition create_2gb : params := request (Some 2%Z) present.

(** Ask for 1 GB. *)
Definition shrink_to_1gb : params := request (Some 1%Z) present.

(** Ask for 5 GB. *)
Definition grow_to_5gb : params := request (Some 5%Z) present.

(** The array after [create_2gb]. *)
Definition one_volume : array := (run_module create_2gb no_volume).1.2.

End FakeUnityVolumes.

(** ** Arrays and requests of the examples *)

Module Examples.



(** [hg9] as that array shows it. *)
Definition hg9 : PowerMaxHostGroup.hostgroup :=
  PowerMaxHostGroup.HostGroup "hg9" (Some ["h1"; "h2"]) "openvms" "scsi_3" false.

(** The volume [vol1] of [FakeUnityVolumes.one_volume]. *)
Definition vol1 : UnityVolume.vol :=
  UnityVolume.Vol true "sv_vol1" "vol1" None 2147483648 None (Some true) None
    None None None None.

(** [cg1] as [FakeUnityGroups.one_group] shows it. *)
Definition cg1 : UnityConsistencyGroup.details :=
  UnityConsistencyGroup.Details
    (UnityConsistencyGroup.CG true "res_1" "cg1" None (Some [("sv_1", "vol1")])
       None None) [].

(** A flags dict with three spellings. *)
Definition three_flags : list (string * pyval) :=
  [("openvms", PyBool true); ("scsi_3", PyStr "false");
   ("environ_set", PyStr "unset")].

End Examples.

(** * Further specifications *)

(** ** Calls and outcome together *)

Section Tracking.
Context {Op : Type → Type} {W J : Type} `{!SDK Op W}.

(** [tracks Q c]: from any array and any trace, the SDK calls that [c]
    appends and the outcome it ends in are related by [Q]. *)
Definition tracks {A} (Q : list (event Op) → outcome J A → Prop)
    (c : M Op W J A) : Prop :=
  ∀ w t, ∃ Δ, (c w t).2 = t ++ Δ ∧ Q Δ (c w t).1.1.

(** A relation between calls and outcome from one relation per way of
    ending. *)
Definition tpost {A} (R : list (event Op) → A → Prop)
    (X : list (event Op) → exn → Prop) (E : list (event Op) → J → Prop)
    (F : list (event Op) → message → Prop)
    (Δ : list (event Op)) (o : outcome J A) : Prop :=
  match o with
  | Ret a => R Δ a
  | Raise e => X Δ e
  | ExitJson r => E Δ r
  | FailJson m => F Δ m
  end.

End Tracking.

Definition any2 {A B} : A → B → Prop := λ _ _, True.
Definition never2 {A B} : A → B → Prop := λ _ _, False.

(** Whether a call marked by [p] returned in the trace [t]: with
    [p := mutating], whether the run changed the array. *)
Definition did_change {Op} (p : ∀ R, Op R → bool) (t : list (event Op)) : bool :=
  existsb (λ e, p _ (ev_op e) && ev_ok e) t.


(** ** Masking view *)

(** The three flags of the result dict of the masking view module, or-ed
    as [perform_module_operation] does for ['changed']. *)
Definition mv_flags (r : PowerMaxMaskingView.result) : bool :=
  default false (PowerMaxMaskingView.create_mv r)
  || default false (PowerMaxMaskingView.modify_mv r)
  || default false (PowerMaxMaskingView.delete_mv r).

(** * Proofs *)

(** ** Rules for [emits] *)

Section LogicRules.
Context {Op : Type → Type} {W J : Type} `{!SDK Op W}.

Implicit Types P : event Op → Prop.

Lemma emits_ret {A} P (Q : outcome J A → Prop) (a : A) :
  Q (Ret a) → emits (W:=W) P Q (ret a).
Proof. intros HQ w t. exists []. rewrite app_nil_r. by cbn. Qed.

Lemma emits_raise {A} P (Q : outcome J A → Prop) (e : exn) :
  Q (Raise e) → emits (W:=W) P Q (raise e).
Proof. intros HQ w t. exists []. rewrite app_nil_r. by cbn. Qed.

Lemma emits_fail_json {A} P (Q : outcome J A → Prop) (m : message) :
  Q (FailJson m) → emits (W:=W) P Q (fail_json m).
Proof. intros HQ w t. exists []. rewrite app_nil_r. by cbn. Qed.

Lemma emits_exit_json {A} P (Q : outcome J A → Prop) (r : J) :
  Q (ExitJson r) → emits (W:=W) P Q (exit_json r).
Proof. intros HQ w t. exists []. rewrite app_nil_r. by cbn. Qed.

Lemma emits_call {R} P (Q : outcome J R → Prop) (op : Op R) :
  P (Event op true) → P (Event op false) →
  (∀ r, Q (Ret r)) → (∀ e, Q (Raise e)) →
  emits P Q (call op).
Proof.
  intros Hok Hko Hr He w t. unfold call.
  destruct (exec op w) as [[e | r] w']; cbn.
  - exists [Event op false]. split_and!; [done | by constructor | done].
  - exists [Event op true]. split_and!; [done | by constructor | done].
Qed.

Lemma emits_bind {A B} P (Q1 : outcome J A → Prop) (Q : outcome J B → Prop)
    (c : M Op W J A) (k : A → M Op W J B) :
  emits P Q1 c →
  (∀ a, Q1 (Ret a) → emits P Q (k a)) →
  (∀ e, Q1 (Raise e) → Q (Raise e)) →
  (∀ r, Q1 (ExitJson r) → Q (ExitJson r)) →
  (∀ m, Q1 (FailJson m) → Q (FailJson m)) →
  emits P Q (bind c k).
Proof.
  intros Hc Hk HX HE HF w t. unfold bind.
  destruct (Hc w t) as (Δ & Ht & HP & HQ).
  destruct (c w t) as [[o w'] t']; cbn in *; subst t'.
  destruct o as [a | e | r | m]; cbn.
  - destruct (Hk a HQ w' (t ++ Δ)) as (Δ' & Ht' & HP' & HQ').
    exists (Δ ++ Δ'). rewrite Ht', app_assoc.
    split_and!; [done | by apply Forall_app | done].
  - exists Δ. auto.
  - exists Δ. auto.
  - exists Δ. auto.
Qed.

Lemma emits_try_except {A} P (Q1 Q : outcome J A → Prop)
    (body : M Op W J A) (handler : exn → M Op W J A) :
  emits P Q1 body →
  (∀ e, Q1 (Raise e) → emits P Q (handler e)) →
  (∀ a, Q1 (Ret a) → Q (Ret a)) →
  (∀ r, Q1 (ExitJson r) → Q (ExitJson r)) →
  (∀ m, Q1 (FailJson m) → Q (FailJson m)) →
  emits P Q (try_except body handler).
Proof.
  intros Hc Hh HR HE HF w t. unfold try_except.
  destruct (Hc w t) as (Δ & Ht & HP & HQ).
  destruct (body w t) as [[o w'] t']; cbn in *; subst t'.
  destruct o as [a | e | r | m]; cbn.
  - exists Δ. auto.
  - destruct (Hh e HQ w' (t ++ Δ)) as (Δ' & Ht' & HP' & HQ').
    exists (Δ ++ Δ'). rewrite Ht', app_assoc.
    split_and!; [done | by apply Forall_app | done].
  - exists Δ. auto.
  - exists Δ. auto.
Qed.

Lemma emits_weaken {A} P P' (Q Q' : outcome J A → Prop) (c : M Op W J A) :
  emits P Q c → (∀ e, P e → P' e) → (∀ o, Q o → Q' o) → emits P' Q' c.
Proof.
  intros Hc HP HQ w t. destruct (Hc w t) as (Δ & Ht & HΔ & Ho).
  exists Δ. split_and!; [done | by eapply Forall_impl | by apply HQ].
Qed.

(** The loops never exit through [exit_json] unless their body does. *)
Lemma emits_for_each {A} P (X : exn → Prop) (E : J → Prop) (F : message → Prop)
    (l : list A) (body : A → M Op W J unit) :
  (∀ x, x ∈ l → emits P (post any X E F) (body x)) →
  emits P (post any X E F) (for_each l body).
Proof.
  induction l as [| x l IH]; intros Hb; cbn.
  - by apply emits_ret.
  - eapply emits_bind; [apply Hb; left | | done..].
    intros _ _. apply IH. intros y Hy. apply Hb. by right.
Qed.

Lemma emits_for_fold {A S} P (I : S → Prop) (X : exn → Prop) (E : J → Prop)
    (F : message → Prop) (l : list A) (body : S → A → M Op W J S) (s : S) :
  I s →
  (∀ s x, I s → x ∈ l → emits P (post I X E F) (body s x)) →
  emits P (post I X E F) (for_fold l body s).
Proof.
  revert s. induction l as [| x l IH]; intros s Hs Hb; cbn.
  - by apply emits_ret.
  - eapply emits_bind; [apply Hb; [done | left] | | done..].
    intros s' Hs'. apply IH; [done |]. intros s'' y Hs'' Hy. apply Hb; [done |].
    by right.
Qed.

(** What [emits] says of one run. *)
Lemma emits_run {A} P (Q : outcome J A → Prop) (c : M Op W J A) w t o w' t' :
  emits P Q c → c w t = (o, w', t') → ∃ Δ, t' = t ++ Δ ∧ Forall P Δ ∧ Q o.
Proof. intros Hc Hrun. destruct (Hc w t) as (Δ & ? & ? & ?). rewrite Hrun in *. eauto. Qed.

End LogicRules.

Lemma calls_where_unmarked {Op} (p : ∀ R, Op R → bool) (Δ : list (event Op)) :
  Forall (unmarked p) Δ → calls_where p Δ = [].
Proof.
  unfold calls_where, unmarked. induction 1 as [| e Δ He _ IH]; [done |].
  rewrite filter_cons_False; [done |]. by rewrite He.
Qed.

Lemma calls_where_app {Op} (p : ∀ R, Op R → bool) (t Δ : list (event Op)) :
  calls_where p (t ++ Δ) = calls_where p t ++ calls_where p Δ.
Proof. apply filter_app. Qed.

(** * Host group *)

Section HostGroupFacts.
Import PowerMaxHostGroup FakePowerMax Scenarios.

(** C1. [changed] is not "true iff a mutating call succeeded": the run
    below adds the host [h2] to [hg1], the array accepts the call, and
    [modify_host_flags] then finds the flags unchanged and leaves through
    [exit_json(changed=False)], without the details of the group. *)
Theorem hostgroup_flags_exit_hides_added_host :
  ∃ a' t,
    run_module add_host_keep_flags one_group
      = (ExitJson (Result false NoDetails), a', t)
    ∧ calls_where (@mutating) t
      = [Event (sdk_modify_hostgroup "hg1" (add_host_list ["h2"])) true]
    ∧ host <$> groups a' !! "hg1" = Some (Some ["h1"; "h2"]).
Proof. eexists _, _. split_and!; [vm_compute; reflexivity | done | done]. Qed.

(** C8. No existence check comes before the mutating call when hosts are
    added to an existing group: the run below asks for the unknown host
    [ghost], the first calls are the two fetches of the group, and the next
    one already is [modify_hostgroup(add_host_list=['ghost'])]. The failure
    that ends the run relays the error of the array. *)
Theorem hostgroup_add_has_no_host_check :
  ∃ e a' t,
    run_module add_unknown_host one_group
      = (FailJson (Msg "Adding host {0} to host group {1} failed with error {2}"
                       [AList ["ghost"]; AStr "hg1"; AExn e]), a', t)
    ∧ t = [Event (sdk_get_hostgroup "hg1") true;
           Event (sdk_get_hostgroup "hg1") true;
           Event (sdk_modify_hostgroup "hg1" (add_host_list ["ghost"])) false].
Proof. eexists _, _, _. split; vm_compute; reflexivity. Qed.


End HostGroupFacts.

Section HostGroupSettled.
Import PowerMaxHostGroup.
Context {W : Type} `{!SDK Op W}.



Lemma get_add_hosts_nil existing requested :
  _get_add_hosts existing requested = []
  ↔ (list_to_set requested : gset string) ⊆ list_to_set existing.
Proof.
  unfold _get_add_hosts. rewrite elements_empty_iff, list_to_set_app.
  generalize (list_to_set existing : gset string) (list_to_set requested : gset string).
  intros X Y. split.
  - intros HE x Hx. destruct (decide (x ∈ X)) as [| Hn]; [done |].
    destruct (not_elem_of_empty (C:=gset string) x). rewrite <- HE.
    apply elem_of_difference. split; [apply elem_of_union; by right | done].
  - intros Hsub x. rewrite elem_of_difference, elem_of_union. split.
    + intros [[? | Hy] Hn]; [done |]. destruct Hn. by apply Hsub.
    + intros []%not_elem_of_empty.
Qed.

Lemma get_remove_hosts_nil existing requested :
  _get_remove_hosts existing requested = []
  ↔ (list_to_set existing : gset string) ∩ list_to_set requested = ∅.
Proof.
  unfold _get_remove_hosts. rewrite elements_empty_iff.
  generalize (list_to_set existing : gset string) (list_to_set requested : gset string).
  intros X Y. split; [intros HE; by apply leibniz_equiv | by intros ->].
Qed.




End HostGroupSettled.

Section VolumeSettled.
Import UnityVolume.
Context {W : Type} `{!SDK Op W}.
Variable get_size_bytes : Z → cap_choice → Z.


Lemma differs_from_same {A} `{EqDecision A} (x : A) : differs_from x (Some x) = false.
Proof. unfold differs_from. by rewrite bool_decide_eq_true_2. Qed.

End VolumeSettled.

(** ** Rules for outcomes given by [post] *)

Section PostRules.
Context {Op : Type → Type} {W J : Type} `{!SDK Op W}.

Implicit Types (P : event Op → Prop) (X : exn → Prop) (E : J → Prop)
  (F : message → Prop).

Lemma emits_post_bind {A B} P (R1 : A → Prop) (R : B → Prop) X E F
    (c : M Op W J A) (k : A → M Op W J B) :
  emits P (post R1 X E F) c →
  (∀ a, R1 a → emits P (post R X E F) (k a)) →
  emits P (post R X E F) (bind c k).
Proof. intros Hc Hk. eapply emits_bind; [exact Hc | exact Hk | done..]. Qed.

Lemma emits_post_try {A} P (R : A → Prop) X1 X E F
    (body : M Op W J A) (handler : exn → M Op W J A) :
  emits P (post R X1 E F) body →
  (∀ e, X1 e → emits P (post R X E F) (handler e)) →
  emits P (post R X E F) (try_except body handler).
Proof. intros Hc Hh. eapply emits_try_except; [exact Hc | exact Hh | done..]. Qed.

Lemma emits_post_call {R} P E F (op : Op R) :
  P (Event op true) → P (Event op false) →
  emits P (post any any E F) (call op).
Proof. intros. by apply emits_call. Qed.

Lemma emits_post_weaken {A} P (R R' : A → Prop) X X' E E' F F'
    (c : M Op W J A) :
  emits P (post R X E F) c →
  (∀ a, R a → R' a) → (∀ e, X e → X' e) → (∀ r, E r → E' r) →
  (∀ m, F m → F' m) →
  emits P (post R' X' E' F') c.
Proof.
  intros Hc HR HX HE HF. eapply emits_weaken; [exact Hc | done |].
  intros [a | e | r | m]; cbn; auto.
Qed.

End PostRules.

(** One step of a proof of [emits]: the rule for the head of the
    computation. *)
Ltac emits_step :=
  lazymatch goal with
  | |- emits _ _ (ret _) => by apply emits_ret
  | |- emits _ _ (fail_json _) => by apply emits_fail_json
  | |- emits _ _ (exit_json _) => by apply emits_exit_json
  | |- emits _ _ (raise _) => by apply emits_raise
  | |- emits _ (post _ _ _ _) (call _) =>
      apply emits_call; [done | done | by unfold any | by unfold any]
  | |- emits _ (post _ _ _ _) (bind _ _) =>
      eapply (emits_post_bind _ any); [| intros ? _]
  | |- emits _ (post _ _ _ _) (try_except _ _) =>
      eapply (emits_post_try _ _ any); [| intros ? _]
  | |- emits _ _ (if ?b then _ else _) => destruct b
  | |- emits _ _ (match ?x with _ => _ end) => destruct x
  | |- emits _ _ (let '(_, _) := ?x in _) => destruct x
  end.

(** A lemma [H] about a callee closes the goal once its outcomes are
    weakened to the ones that are asked for. *)
Ltac emits_by H :=
  eapply emits_post_weaken; [eapply H | by unfold any, never; auto..].

Section ConsistencyGroupQuiet.
Import UnityConsistencyGroup.
Context {W : Type} `{!SDK Op W}.

Lemma return_cg_instance_quiet cg_name :
  emits (W:=W) quiet (post any never never any) (return_cg_instance cg_name).
Proof. unfold return_cg_instance. repeat emits_step. Qed.

Lemma get_details_quiet cg_id cg_name :
  emits (W:=W) quiet (post any never never any) (get_details cg_id cg_name).
Proof.
  unfold get_details.
  repeat (emits_step || emits_by return_cg_instance_quiet).
Qed.

Lemma get_volume_details_quiet p vol_name vol_id :
  emits (W:=W) quiet (post any never never any)
    (get_volume_details p vol_name vol_id).
Proof.
  unfold get_volume_details.
  repeat (emits_step || emits_by get_details_quiet).
Qed.

Lemma validate_volumes_quiet p volumes :
  emits (W:=W) quiet (post any never never any) (validate_volumes p volumes).
Proof.
  unfold validate_volumes. apply emits_for_each. intros vol _.
  repeat (emits_step || emits_by get_volume_details_quiet).
Qed.

Lemma is_cg_modified_quiet p d :
  emits (W:=W) quiet (post any never never any) (is_cg_modified p d).
Proof. unfold is_cg_modified. repeat emits_step. Qed.

Lemma ids_to_add_of_quiet p cg_name volumes :
  emits (W:=W) quiet (post any any never any) (ids_to_add_of p cg_name volumes).
Proof.
  unfold ids_to_add_of. emits_step; [emits_step |]. emits_step.
  emits_step.
  - apply (emits_for_fold _ any); [done |]. intros ids vol _ _.
    repeat (emits_step || emits_by get_volume_details_quiet).
  - apply (emits_for_fold _ any); [done |]. intros ids vol _ _.
    repeat (emits_step || emits_by get_volume_details_quiet).
Qed.

Lemma ids_to_remove_of_quiet p cg_name volumes :
  emits (W:=W) quiet (post any any never any)
    (ids_to_remove_of p cg_name volumes).
Proof.
  unfold ids_to_remove_of. emits_step; [emits_step |]. emits_step.
  emits_step; [| emits_step].
  apply (emits_for_fold _ any); [done |]. intros ids vol _ _.
  repeat (emits_step || emits_by get_volume_details_quiet).
Qed.

End ConsistencyGroupQuiet.

Section ConsistencyGroupDelete.
Import UnityConsistencyGroup.
Context {W : Type} `{!SDK Op W}.

Lemma cg_delete_refused_aux p (w : W) d w1 t1 v l :
  state p = absent →
  get_details (cg_id p) (cg_name p) w [] = (Ret (Some d), w1, t1) →
  cg_luns (props d) = Some (v :: l) →
  ∃ m w' t',
    perform_module_operation p w [] = (FailJson m, w', t')
    ∧ calls_where (@mutating) t' = []
    ∧ (truthy_list (volumes p) = false → vol_state p = None → m = refusal).
Proof.
  intros Hst Hget Hluns.
  unfold perform_module_operation. unfold bind at 1. rewrite Hget.
  rewrite Hst.
  rewrite (bool_decide_eq_false_2 (absent = present)) by done.
  rewrite (bool_decide_eq_true_2 (absent = absent)) by done.
  rewrite (bool_decide_eq_true_2 (is_Some (Some d))) by done.
  cbn [andb negb mbind option_bind]. rewrite Hluns.
  rewrite (bool_decide_eq_true_2 (is_Some (Some (v :: l)))) by done.
  set (F := λ m : message,
         truthy_list (volumes p) = false → vol_state p = None → m = refusal).
  match goal with
  | |- ∃ m w' t', ?c w1 t1 = _ ∧ _ =>
      assert (emits quiet (post never never never F) c) as Hc
  end.
  { destruct (cg_name p) as [n |].
    all: eapply (emits_post_bind _ any);
      [destruct (truthy_list (volumes p)) eqn:Hv;
       [eapply emits_post_weaken;
        [apply validate_volumes_quiet | done | done | done | by intros m _ ?]
       | emits_step]
      | intros _ _].
    all: eapply (emits_post_bind _ any);
      [unfold is_cg_modified; rewrite Hluns;
       rewrite (bool_decide_eq_false_2 (Some (v :: l) = None)) by done;
       rewrite andb_false_r; cbn [andb]; emits_step
      | intros _ _].
    all: eapply (emits_post_bind _ any);
      [destruct (bool_decide (is_Some (vol_state p)) && _) eqn:Hcond;
       [apply emits_fail_json; intros _ Hvs; by rewrite Hvs in Hcond | emits_step]
      | intros _ _].
    all: eapply (emits_post_bind _ never); [| by intros ? []].
    all: eapply (emits_post_bind _ never); [| by intros ? []].
    all: by apply emits_fail_json. }
  destruct (Hc w1 t1) as (Δ & Ht & HΔ & Ho).
  destruct (get_details_quiet (cg_id p) (cg_name p) w []) as (Δ1 & Ht1 & HΔ1 & _).
  rewrite Hget in Ht1. cbn in Ht1. subst t1.
  match goal with
  | |- ∃ m w' t', ?c w1 Δ1 = _ ∧ _ => destruct (c w1 Δ1) as [[o w'] t'] eqn:Hrun
  end.
  cbn in Ht, Ho. destruct o as [? | ? | ? | m]; try done.
  exists m, w', t'. split_and!; [done | | done].
  subst t'. apply calls_where_unmarked. by apply Forall_app.
Qed.
End ConsistencyGroupDelete.

(** ** Empty add and remove lists *)

Section EmptyLists.
Context {W : Type}.

Lemma hostgroup_get_is_quiet `{!SDK PowerMaxHostGroup.Op W} name (w : W) t :
  ∃ hg w1 t1,
    PowerMaxHostGroup.get_hostgroup name w t = (Ret hg, w1, t1)
    ∧ calls_where (@PowerMaxHostGroup.mutating) t1
      = calls_where (@PowerMaxHostGroup.mutating) t.
Proof.
  unfold PowerMaxHostGroup.get_hostgroup, try_except, bind, call, ret.
  destruct (exec _ w) as [[e | hg] w1]; eexists _, _, _; (split; [done |]);
    by rewrite calls_where_app, app_nil_r.
Qed.

Lemma hostgroup_empty_add_list `{!SDK PowerMaxHostGroup.Op W} name hosts (w : W) t :
  ∃ hg w1 t1,
    PowerMaxHostGroup.get_hostgroup name w t = (Ret hg, w1, t1)
    ∧ calls_where (@PowerMaxHostGroup.mutating) t1
      = calls_where (@PowerMaxHostGroup.mutating) t
    ∧ (PowerMaxHostGroup._get_add_hosts
         (PowerMaxHostGroup.existing_hosts_of hg) hosts = [] →
       PowerMaxHostGroup.add_hosts_to_hostgroup name hosts w t
       = (Ret false, w1, t1)).
Proof.
  destruct (hostgroup_get_is_quiet name w t) as (hg & w1 & t1 & Hget & Hq).
  exists hg, w1, t1. split_and!; [done | done |]. intros Hnil.
  unfold PowerMaxHostGroup.add_hosts_to_hostgroup, bind. rewrite Hget, Hnil.
  by destruct (_ && _).
Qed.

Lemma hostgroup_empty_remove_list `{!SDK PowerMaxHostGroup.Op W} name hosts
    (w : W) t :
  ∃ hg w1 t1,
    PowerMaxHostGroup.get_hostgroup name w t = (Ret hg, w1, t1)
    ∧ calls_where (@PowerMaxHostGroup.mutating) t1
      = calls_where (@PowerMaxHostGroup.mutating) t
    ∧ (PowerMaxHostGroup._get_remove_hosts
         (PowerMaxHostGroup.existing_hosts_of hg) hosts = [] →
       PowerMaxHostGroup.remove_hosts_from_hostgroup name hosts w t
       = (Ret false, w1, t1)).
Proof.
  destruct (hostgroup_get_is_quiet name w t) as (hg & w1 & t1 & Hget & Hq).
  exists hg, w1, t1. split_and!; [done | done |]. intros Hnil.
  unfold PowerMaxHostGroup.remove_hosts_from_hostgroup, bind.
  rewrite Hget, Hnil. by destruct (negb _).
Qed.

Lemma cg_empty_add_list `{!SDK UnityConsistencyGroup.Op W} p cg_name volumes
    tiering (w : W) t w1 t1 :
  UnityConsistencyGroup.ids_to_add_of p cg_name volumes w t = (Ret [], w1, t1) →
  UnityConsistencyGroup.add_volumes_to_cg p cg_name volumes tiering w t
  = (Ret false, w1, t1)
  ∧ calls_where (@UnityConsistencyGroup.mutating) t1
    = calls_where (@UnityConsistencyGroup.mutating) t.
Proof.
  intros Hids. split.
  - unfold UnityConsistencyGroup.add_volumes_to_cg, bind. by rewrite Hids.
  - destruct (emits_run _ _ _ _ _ _ _ _
                (ids_to_add_of_quiet p cg_name volumes) Hids) as (Δ & -> & HΔ & _).
    by rewrite calls_where_app, (calls_where_unmarked _ Δ), app_nil_r.
Qed.

Lemma cg_empty_remove_list `{!SDK UnityConsistencyGroup.Op W} p cg_name volumes
    (w : W) t w1 t1 :
  UnityConsistencyGroup.ids_to_remove_of p cg_name volumes w t
  = (Ret [], w1, t1) →
  UnityConsistencyGroup.remove_volumes_from_cg p cg_name volumes w t
  = (Ret false, w1, t1)
  ∧ calls_where (@UnityConsistencyGroup.mutating) t1
    = calls_where (@UnityConsistencyGroup.mutating) t.
Proof.
  intros Hids. split.
  - unfold UnityConsistencyGroup.remove_volumes_from_cg, bind. by rewrite Hids.
  - destruct (emits_run _ _ _ _ _ _ _ _
                (ids_to_remove_of_quiet p cg_name volumes) Hids)
      as (Δ & -> & HΔ & _).
    by rewrite calls_where_app, (calls_where_unmarked _ Δ), app_nil_r.
Qed.

End EmptyLists.

(** ** Membership: what is added and what is removed *)

Section Collect.
Context {Op : Type → Type} {W J : Type} `{!SDK Op W}.

Lemma for_fold_collect {A B S} (l : list A) (f : A → M Op W J B)
    (g : S → B → S) (s : S) w t :
  for_fold l (λ s x, let! y := f x in ret (g s y)) s w t
  = (let! ys := for_collect l f in ret (foldl g s ys)) w t.
Proof.
  revert s w t. induction l as [| x l IH]; intros s w t; [done |].
  cbn [for_fold for_collect]. unfold bind at 1 2 4 5.
  destruct (f x w t) as [[[y | e | r | m] w1] t1]; cbn [ret]; try done.
  rewrite IH. unfold bind.
  by destruct (for_collect l f w1 t1) as [[[ys | e | r | m] w2] t2].
Qed.

Lemma bind_ext_l {A B} (c1 c2 : M Op W J A) (k : A → M Op W J B) w t :
  (∀ w t, c1 w t = c2 w t) → bind c1 k w t = bind c2 k w t.
Proof. intros H. unfold bind. by rewrite H. Qed.

Lemma bind_ext_r {A B} (c : M Op W J A) (k1 k2 : A → M Op W J B) w t :
  (∀ a w t, k1 a w t = k2 a w t) → bind c k1 w t = bind c k2 w t.
Proof.
  intros H. unfold bind. destruct (c w t) as [[[a | e | r | m] w1] t1]; auto.
Qed.

Lemma bind_assoc {A B C} (c : M Op W J A) (f : A → M Op W J B)
    (g : B → M Op W J C) w t :
  bind (bind c f) g w t = bind c (λ x, bind (f x) g) w t.
Proof. unfold bind. by destruct (c w t) as [[[a | e | r | m] w1] t1]. Qed.

End Collect.

Section Membership.
Import UnityConsistencyGroup.

Lemma hostgroup_add_set existing requested :
  (list_to_set (PowerMaxHostGroup._get_add_hosts existing requested) : gset string)
  = list_to_set requested ∖ list_to_set existing.
Proof.
  unfold PowerMaxHostGroup._get_add_hosts.
  rewrite list_to_set_elements_L, list_to_set_app_L.
  apply set_eq. intros x. rewrite !elem_of_difference, elem_of_union. tauto.
Qed.

Lemma hostgroup_remove_set existing requested :
  (list_to_set (PowerMaxHostGroup._get_remove_hosts existing requested)
   : gset string)
  = list_to_set existing ∩ list_to_set requested.
Proof.
  unfold PowerMaxHostGroup._get_remove_hosts. by rewrite list_to_set_elements_L.
Qed.

Lemma elem_of_add_by_name ex acc l x :
  x ∈ foldl (add_by_name ex) acc l ↔ x ∈ acc ∨ (x ∈ l ∧ x ≠ "" ∧ x ∉ ex).
Proof.
  revert acc. induction l as [| y l IH]; intros acc; cbn [foldl].
  - rewrite elem_of_nil. tauto.
  - rewrite IH, elem_of_cons. unfold add_by_name.
    repeat case_bool_decide; cbn; rewrite ?elem_of_app, ?list_elem_of_singleton;
      naive_solver.
Qed.

Lemma elem_of_add_by_id ex acc l x :
  x ∈ foldl (add_by_id ex) acc l ↔ x ∈ acc ∨ (x ∈ l ∧ x ∉ ex).
Proof.
  revert acc. induction l as [| y l IH]; intros acc; cbn [foldl].
  - rewrite elem_of_nil. tauto.
  - rewrite IH, elem_of_cons. unfold add_by_id.
    repeat case_bool_decide; cbn; rewrite ?elem_of_app, ?list_elem_of_singleton;
      naive_solver.
Qed.

Lemma elem_of_remove_by_name ex acc l x :
  x ∈ foldl (remove_by_name ex) acc l ↔ x ∈ acc ∨ (x ∈ l ∧ x ≠ "" ∧ x ∈ ex).
Proof.
  revert acc. induction l as [| y l IH]; intros acc; cbn [foldl].
  - rewrite elem_of_nil. tauto.
  - rewrite IH, elem_of_cons. unfold remove_by_name.
    repeat case_bool_decide; cbn; rewrite ?elem_of_app, ?list_elem_of_singleton;
      naive_solver.
Qed.

Lemma elem_of_remove_by_id ex acc l x :
  x ∈ foldl (remove_by_id ex) acc l ↔ x ∈ acc ∨ (x ∈ l ∧ x ∈ ex).
Proof.
  revert acc. induction l as [| y l IH]; intros acc; cbn [foldl].
  - rewrite elem_of_nil. tauto.
  - rewrite IH, elem_of_cons. unfold remove_by_id.
    repeat case_bool_decide; cbn; rewrite ?elem_of_app, ?list_elem_of_singleton;
      naive_solver.
Qed.

Lemma elem_of_select_to_add ex by_name by_id x :
  x ∈ select_to_add ex by_name by_id
  ↔ ((x ∈ by_name ∧ x ≠ "") ∨ x ∈ by_id) ∧ x ∉ ex.
Proof.
  unfold select_to_add. rewrite elem_of_add_by_id, elem_of_add_by_name, elem_of_nil.
  tauto.
Qed.

Lemma elem_of_select_to_remove ex by_name by_id x :
  x ∈ select_to_remove ex by_name by_id
  ↔ ((x ∈ by_name ∧ x ≠ "") ∨ x ∈ by_id) ∧ x ∈ ex.
Proof.
  unfold select_to_remove.
  rewrite elem_of_remove_by_id, elem_of_remove_by_name, elem_of_nil. tauto.
Qed.

Context {W : Type} `{!SDK Op W}.

Lemma ids_to_add_of_factored p cg_name volumes (w : W) t :
  ids_to_add_of p cg_name volumes w t = ids_to_add_factored p cg_name volumes w t.
Proof.
  unfold ids_to_add_of, ids_to_add_factored, select_to_add.
  apply bind_ext_r. clear w t. intros c w t.
  destruct (split_volumes volumes) as [ids names]. cbn [fst snd].
  etrans; [apply bind_ext_l; intros; apply for_fold_collect |].
  rewrite bind_assoc. apply bind_ext_r. clear w t. intros by_name w t.
  unfold bind at 1. cbn [ret]. apply for_fold_collect.
Qed.

Lemma ids_to_remove_of_factored p cg_name volumes (w : W) t :
  ids_to_remove_of p cg_name volumes w t
  = ids_to_remove_factored p cg_name volumes w t.
Proof.
  unfold ids_to_remove_of, ids_to_remove_factored, select_to_remove.
  apply bind_ext_r. clear w t. intros c w t.
  destruct (split_volumes volumes) as [ids names]. cbn [fst snd].
  etrans; [apply bind_ext_l; intros; apply for_fold_collect |].
  rewrite bind_assoc. apply bind_ext_r. clear w t. intros by_name w t.
  by unfold bind.
Qed.

End Membership.


(** ** Host flags *)

Section HostFlags.
Import PowerMaxHostGroup.

(** C4, as stated, fails on the modification path. The group [hg9] shows
    [openvms] enabled. The value ['TRUE'] is truthy and neither [unset] nor
    [false], so the rule asks for the flag to be enabled, yet
    [modify_host_flags] resets it to its default; and for a flag that the
    request omits the rule asks for the default, yet the flag keeps the
    entry it has. *)
Lemma flags_paths_differ :
  ¬ tri_state_on_both_paths
  ∧ (flag_rule (dict_get [("openvms", PyStr "TRUE")] "openvms")
     = Some flag_enabled
     ∧ new_flags_of (_recreate_host_flag_dict Examples.hg9 ∅)
         [("openvms", PyStr "TRUE")] !! "openvms"
       = Some flag_default)
  ∧ (flag_rule (dict_get [("environ_set", PyBool true)] "openvms")
     = Some flag_default
     ∧ new_flags_of (_recreate_host_flag_dict Examples.hg9 ∅)
         [("environ_set", PyBool true)] !! "openvms"
       = Some flag_enabled).
Proof.
  split_and!.
  - intros H.
    destruct (H [("openvms", PyStr "TRUE")]
                (_recreate_host_flag_dict Examples.hg9 ∅) "openvms" flag_enabled)
      as [_ Hm].
    + apply (bool_decide_unpack _). by vm_compute.
    + done.
    + vm_compute in Hm. by simplify_eq.
  - reflexivity.
  - vm_compute. reflexivity.
  - reflexivity.
  - vm_compute. reflexivity.
Qed.

Example modify_keeps_omitted_flag :
  new_flags_of {[ "openvms" := flag_enabled ]} [("scsi_3", PyBool true)]
    !! "openvms" = Some flag_enabled.
Proof. by vm_compute. Qed.

Lemma create_flag_insert received d n :
  create_flag received d n = <[lower n := create_entry (dict_get received n)]> d.
Proof.
  unfold create_flag, create_entry, says_unset, says_false.
  destruct (dict_get received n) as [v |]; [| done].
  destruct (in_strs v ["unset"; "Unset"]); [done |].
  by destruct (is_False v || in_strs v ["false"; "False"]).
Qed.

Lemma modify_flag_insert d k v :
  modify_flag d (k, v) = <[lower k := modify_entry k v]> d.
Proof.
  unfold modify_flag, modify_entry, says_true, says_false.
  case_bool_decide as Hk; cbn [negb].
  - subst k. by destruct (_ || _).
  - destruct (is_True v || in_strs v ["True"; "true"]); [done |].
    by destruct (is_False v || in_strs v ["false"; "False"]).
Qed.

Lemma create_fold_lookup received l d name :
  Forall (λ n, lower n = n) l →
  foldl (create_flag received) d l !! name
  = if bool_decide (name ∈ l) then Some (create_entry (dict_get received name))
    else d !! name.
Proof.
  revert d. induction l as [| n l IH]; intros d Hl; [done |].
  inversion_clear Hl as [| ? ? Hn Hl']. cbn [foldl]. rewrite IH by done.
  rewrite create_flag_insert, Hn.
  destruct (decide (name ∈ l)) as [Hin | Hnin].
  - rewrite !bool_decide_eq_true_2; [done | by right | done].
  - rewrite (bool_decide_eq_false_2 (name ∈ l)) by done.
    destruct (decide (n = name)) as [-> | Hne].
    + rewrite lookup_insert_eq, bool_decide_eq_true_2; [done | by left].
    + rewrite lookup_insert_ne by done.
      rewrite bool_decide_eq_false_2; [done |].
      intros [? | ?]%elem_of_cons; by simplify_eq.
Qed.

Lemma create_path_lookup received name :
  name ∈ host_flags_list →
  _create_host_flags_dict received ∅ !! name
  = Some (create_entry (dict_get received name)).
Proof.
  intros Hin. unfold _create_host_flags_dict.
  assert (name ≠ "consistent_lun") as Hne.
  { intros ->. revert Hin. apply (bool_decide_eq_false_1 _). by vm_compute. }
  assert (foldl (create_flag received) ∅ host_flags_list !! name
          = Some (create_entry (dict_get received name))) as Hfold.
  { rewrite create_fold_lookup.
    - by rewrite bool_decide_eq_true_2.
    - apply (bool_decide_unpack _). by vm_compute. }
  unfold _disable_consistent_lun, _enable_consistent_lun.
  destruct (dict_get received "consistent_lun") as [v |];
    [destruct (_ || _) |]; by rewrite lookup_insert_ne.
Qed.

Lemma modify_fold_untouched l d name :
  name ∉ map (lower ∘ fst) l →
  foldl modify_flag d l !! name = d !! name.
Proof.
  revert d. induction l as [| [k v] l IH]; intros d Hnin; [done |].
  cbn [foldl]. rewrite IH.
  - rewrite modify_flag_insert, lookup_insert_ne; [done |].
    intros Heq. apply Hnin. cbn [map]. apply elem_of_cons. by left.
  - intros Hin. apply Hnin. cbn [map]. apply elem_of_cons. by right.
Qed.

Lemma modify_fold_lookup l d k v :
  NoDup (map (lower ∘ fst) l) → (k, v) ∈ l →
  foldl modify_flag d l !! lower k = Some (modify_entry k v).
Proof.
  revert d. induction l as [| [k' v'] l IH]; intros d Hnd Hin.
  - by apply elem_of_nil in Hin.
  - cbn [map] in Hnd. apply NoDup_cons in Hnd as [Hfresh Hnd]. cbn [foldl].
    apply elem_of_cons in Hin as [Heq | Hin].
    + simplify_eq. rewrite modify_fold_untouched by done.
      by rewrite modify_flag_insert, lookup_insert_eq.
    + by apply IH.
Qed.

End HostFlags.

(** * Masking view *)

Section MaskingViewFacts.
Import PowerMaxMaskingView.
Context {W : Type} `{!SDK Op W}.

Lemma bind_ret_l {Op' W' J' A B} (a : A) (k : A → M Op' W' J' B) :
  bind (ret a) k = k a.
Proof. reflexivity. Qed.

Lemma get_masking_view_quiet mv_name :
  emits (W:=W) quiet (post any never never never) (get_masking_view mv_name).
Proof. unfold get_masking_view. repeat emits_step. Qed.

Lemma is_mv_changed_quiet p mv :
  emits (W:=W) quiet (post any never never any) (is_mv_changed p mv).
Proof. unfold is_mv_changed. repeat emits_step. Qed.

Lemma quiet_rename_differs (e : event Op) : quiet e → mv_rename_differs e.
Proof. destruct e as [R op ok]. unfold unmarked, mv_rename_differs. by destruct op. Qed.

Lemma rename_masking_view_differs mv_name new_mv_name :
  emits (W:=W) mv_rename_differs (post any never never any)
    (rename_masking_view mv_name new_mv_name).
Proof.
  unfold rename_masking_view. case_bool_decide as Hne; [emits_step |].
  emits_step; [| emits_step]. emits_step; [| emits_step].
  by apply emits_call.
Qed.

Lemma create_masking_view_differs p mv_name :
  emits (W:=W) mv_rename_differs (post any never never any)
    (create_masking_view p mv_name).
Proof. unfold create_masking_view. repeat emits_step. Qed.

Lemma delete_masking_view_differs mv_name :
  emits (W:=W) mv_rename_differs (post any never never any)
    (delete_masking_view mv_name).
Proof. unfold delete_masking_view. repeat emits_step. Qed.

Lemma mv_rename_only_when_names_differ p :
  emits (W:=W) mv_rename_differs (post any never any any)
    (perform_module_operation p).
Proof.
  unfold perform_module_operation.
  assert (∀ n, emits (W:=W) mv_rename_differs (post any never any any)
                 (get_masking_view n)) as Hget.
  { intros n. eapply emits_weaken; [apply get_masking_view_quiet | |].
    - apply quiet_rename_differs.
    - by intros [| | |]. }
  assert (∀ mv, emits (W:=W) mv_rename_differs (post any never any any)
                  (is_mv_changed p mv)) as Hchk.
  { intros n. eapply emits_weaken; [apply is_mv_changed_quiet | |].
    - apply quiet_rename_differs.
    - by intros [| | |]. }
  repeat (emits_step
          || apply Hget || apply Hchk
          || emits_by rename_masking_view_differs
          || emits_by create_masking_view_differs
          || emits_by delete_masking_view_differs).
Qed.

Lemma mv_rename_to_same_name p :
  state p = present → new_mv_name p = Some (mv_name p) →
  emits (W:=W) quiet (post any never (λ r, changed r = false) any)
    (perform_module_operation p).
Proof.
  intros Hst Hnew. unfold perform_module_operation. rewrite Hst, Hnew.
  rewrite (bool_decide_eq_true_2 (present = present)) by done.
  rewrite (bool_decide_eq_false_2 (present = absent)) by done.
  cbn [andb default].
  eapply (emits_post_bind _ any); [emits_by get_masking_view_quiet | intros mv _].
  eapply (emits_post_bind _ any);
    [destruct mv; [emits_by is_mv_changed_quiet | emits_step] | intros _ _].
  unfold rename_masking_view.
  rewrite (bool_decide_eq_true_2 (mv_name p = mv_name p)) by done.
  destruct mv as [mv |].
  - rewrite (bool_decide_eq_true_2 (is_Some (Some mv))) by done.
    cbn [andb negb]. rewrite bind_ret_l.
    destruct (truthy_str (Some (mv_name p))); rewrite !bind_ret_l;
      cbn [create_mv modify_mv delete_mv mv_details].
    + eapply (emits_post_bind _ (λ r, create_mv r = None ∧ modify_mv r = Some false
                                       ∧ delete_mv r = None)).
      * eapply (emits_post_bind _ any); [emits_by get_masking_view_quiet |].
        intros updated _. by apply emits_ret.
      * intros r (-> & -> & ->). by apply emits_exit_json.
    + eapply (emits_post_bind _ (λ r, create_mv r = None ∧ modify_mv r = None
                                       ∧ delete_mv r = None)).
      * eapply (emits_post_bind _ any); [emits_by get_masking_view_quiet |].
        intros updated _. by apply emits_ret.
      * intros r (-> & -> & ->). by apply emits_exit_json.
  - rewrite (bool_decide_eq_false_2 (is_Some None)) by (by intros [? ?]).
    cbn [andb negb].
    assert (negb (truthy_str (Some (mv_name p))) && truthy_str (Some (mv_name p))
            = false) as -> by (by destruct (truthy_str _)).
    rewrite !bind_ret_l. by apply emits_exit_json.
Qed.

Lemma mv_exclusive_targets p (w : W) :
  is_Some (host_name p) → is_Some (hostgroup_name p) →
  main p w [] = (FailJson (mutually_exclusive_msg ["host_name"; "hostgroup_name"]),
                 w, []).
Proof.
  intros [h Hh] [g Hg]. unfold main, supplied. rewrite Hh, Hg.
  by destruct (portgroup_name p), (sg_name p), (new_mv_name p).
Qed.

(** With both targets given, a view that is found with a host or with a
    host group fails the comparison of [is_mv_changed]. *)
Lemma mv_changed_flag_both_targets p mv :
  is_Some (host_name p) → is_Some (hostgroup_name p) →
  is_Some (hostId mv) ∨ is_Some (hostGroupId mv) →
  mv_changed_flag p mv = true.
Proof.
  intros [h Hh] [g Hg] Hmv. unfold mv_changed_flag. rewrite Hh, Hg.
  destruct Hmv as [[x Hx] | [x Hx]]; rewrite Hx;
    rewrite !(bool_decide_eq_true_2 (is_Some (Some _))) by eauto;
    cbn [andb];
    repeat match goal with
           | |- (if ?b then true else _) = true => destruct b
           end; done.
Qed.

Lemma mv_both_targets_on_existing_view p (w : W) mv w1 t1 :
  is_Some (host_name p) → is_Some (hostgroup_name p) →
  get_masking_view (mv_name p) w [] = (Ret (Some mv), w1, t1) →
  is_Some (hostId mv) ∨ is_Some (hostGroupId mv) →
  perform_module_operation p w [] = (FailJson (differs_msg mv), w1, t1)
  ∧ calls_where (@mutating) t1 = [].
Proof.
  intros Hh Hg Hget Hmv. split.
  - unfold perform_module_operation, bind at 1. rewrite Hget.
    unfold bind at 1, is_mv_changed.
    by rewrite mv_changed_flag_both_targets.
  - destruct (emits_run _ _ _ _ _ _ _ _ (get_masking_view_quiet (mv_name p)) Hget)
      as (Δ & -> & HΔ & _).
    by apply calls_where_unmarked.
Qed.

Lemma mv_both_targets_on_create p (w : W) w1 t1 :
  truthy_str (host_name p) = true → truthy_str (hostgroup_name p) = true →
  get_masking_view (mv_name p) w [] = (Ret None, w1, t1) →
  state p = present → truthy_str (new_mv_name p) = false →
  mv_name p ≠ "" →
  perform_module_operation p w []
  = (FailJson (either_host_or_hostgroup (mv_name p)), w1, t1)
  ∧ calls_where (@mutating) t1 = [].
Proof.
  intros Hh Hg Hget Hst Hnew Hname. split.
  - unfold perform_module_operation, bind at 1. rewrite Hget.
    unfold bind at 1, ret at 1. rewrite Hst, Hnew.
    rewrite (bool_decide_eq_true_2 (present = present)) by done.
    rewrite (bool_decide_eq_false_2 (is_Some None)) by (by intros [? ?]).
    cbn [negb andb truthy_str].
    rewrite (bool_decide_eq_false_2 (mv_name p = "")) by done. cbn [negb].
    unfold bind at 1, bind at 1, create_masking_view. by rewrite Hh, Hg.
  - destruct (emits_run _ _ _ _ _ _ _ _ (get_masking_view_quiet (mv_name p)) Hget)
      as (Δ & -> & HΔ & _).
    by apply calls_where_unmarked.
Qed.

Lemma quiet_no_create (e : event Op) : quiet e → mv_no_create e.
Proof. destruct e as [R op ok]. unfold unmarked, mv_no_create. by destruct op. Qed.

Lemma mv_never_creates_with_both_targets p :
  truthy_str (host_name p) = true → truthy_str (hostgroup_name p) = true →
  emits (W:=W) mv_no_create (post any never any any)
    (perform_module_operation p).
Proof.
  intros Hh Hg. unfold perform_module_operation.
  assert (∀ n, emits (W:=W) mv_no_create (post any never any any)
                 (get_masking_view n)) as Hget.
  { intros n. eapply emits_weaken; [apply get_masking_view_quiet | |].
    - apply quiet_no_create.
    - by intros [| | |]. }
  assert (∀ mv, emits (W:=W) mv_no_create (post any never any any)
                  (is_mv_changed p mv)) as Hchk.
  { intros n. eapply emits_weaken; [apply is_mv_changed_quiet | |].
    - apply quiet_no_create.
    - by intros [| | |]. }
  assert (∀ n, emits (W:=W) mv_no_create (post any never any any)
                 (create_masking_view p n)) as Hcreate.
  { intros n. unfold create_masking_view. rewrite Hh, Hg. cbn [andb].
    emits_step. }
  assert (∀ a b, emits (W:=W) mv_no_create (post any never any any)
                   (rename_masking_view a b)) as Hren.
  { intros a b. unfold rename_masking_view. repeat emits_step. }
  assert (∀ a, emits (W:=W) mv_no_create (post any never any any)
                 (delete_masking_view a)) as Hdel.
  { intros a. unfold delete_masking_view. repeat emits_step. }
  repeat (emits_step || apply Hget || apply Hchk || apply Hcreate
          || apply Hren || apply Hdel).
Qed.

End MaskingViewFacts.

(** * Consistency group: renaming *)

Section ConsistencyGroupRename.
Import UnityConsistencyGroup.
Context {W : Type} `{!SDK Op W}.

Lemma quiet_cg_no_rename (e : event Op) : quiet e → cg_no_rename e.
Proof.
  destruct e as [R op ok]. unfold unmarked, cg_no_rename. by destruct op.
Qed.

(** Weakening of a lemma about a reader to the events that are no rename. *)
Lemma reader_no_rename {A} (c : M Op W result A) (E : result → Prop) :
  emits quiet (post any never never any) c →
  emits cg_no_rename (post any any E any) c.
Proof.
  intros Hc. eapply emits_weaken; [exact Hc | apply quiet_cg_no_rename |].
  by intros [| | |].
Qed.

Lemma reader_raising_no_rename {A} (c : M Op W result A) (E : result → Prop) :
  emits quiet (post any any never any) c →
  emits cg_no_rename (post any any E any) c.
Proof.
  intros Hc. eapply emits_weaken; [exact Hc | apply quiet_cg_no_rename |].
  by intros [| | |].
Qed.

Lemma create_cg_no_rename n d s E :
  emits (W:=W) cg_no_rename (post any any E any) (create_cg n d s).
Proof. unfold create_cg. repeat emits_step. Qed.

Lemma delete_cg_no_rename n E :
  emits (W:=W) cg_no_rename (post any any E any) (delete_cg n).
Proof.
  unfold delete_cg.
  repeat (emits_step || apply reader_no_rename, return_cg_instance_quiet).
Qed.

Lemma modify_cg_no_rename p n d s tp E :
  emits (W:=W) cg_no_rename (post any any E any) (modify_cg p n d s tp).
Proof.
  unfold modify_cg.
  repeat (emits_step || apply reader_no_rename, return_cg_instance_quiet).
Qed.

Lemma add_volumes_no_rename p n vols tp E :
  emits (W:=W) cg_no_rename (post any any E any) (add_volumes_to_cg p n vols tp).
Proof.
  unfold add_volumes_to_cg.
  repeat (emits_step || apply reader_no_rename, return_cg_instance_quiet
          || apply reader_raising_no_rename, ids_to_add_of_quiet).
Qed.

Lemma remove_volumes_no_rename p n vols E :
  emits (W:=W) cg_no_rename (post any any E any)
    (remove_volumes_from_cg p n vols).
Proof.
  unfold remove_volumes_from_cg.
  repeat (emits_step || apply reader_no_rename, return_cg_instance_quiet
          || apply reader_raising_no_rename, ids_to_remove_of_quiet).
Qed.

Lemma cg_rename_to_same_name p (w : W) d w1 t1 o w' t' :
  state p = present →
  get_details (cg_id p) (cg_name p) w [] = (Ret (Some d), w1, t1) →
  new_cg_name p = Some (current_cg_name p d) →
  perform_module_operation p w [] = (o, w', t') →
  Forall cg_no_rename t' ∧ (∀ r, o = ExitJson r → rename_cg_r r = None).
Proof.
  intros Hst Hget Hnew Hrun.
  unfold perform_module_operation in Hrun. unfold bind at 1 in Hrun.
  rewrite Hget in Hrun. rewrite Hst, Hnew in Hrun.
  rewrite (bool_decide_eq_true_2 (present = present)) in Hrun by done.
  rewrite (bool_decide_eq_false_2 (present = absent)) in Hrun by done.
  rewrite (bool_decide_eq_true_2 (is_Some (Some d))) in Hrun by done.
  cbn [andb negb] in Hrun.
  match type of Hrun with
  | ?c w1 t1 = _ =>
      assert (emits cg_no_rename
                (post any any (λ r, rename_cg_r r = None) any) c) as Hc
  end.
  { assert (match cg_name p with
            | Some _ => (cg_id p, cg_name p)
            | None => (None, Some (cg_name_of (props d)))
            end = (match cg_name p with Some _ => cg_id p | None => None end,
                   Some (current_cg_name p d))) as ->.
    { unfold current_cg_name. by destruct (cg_name p). }
    rewrite (bool_decide_eq_true_2
               (Some (current_cg_name p d) = Some (current_cg_name p d))) by done.
    cbn [negb].
    eapply (emits_post_bind _ any);
      [destruct (truthy_list (volumes p));
       [apply reader_no_rename, validate_volumes_quiet | emits_step]
      | intros _ _].
    eapply (emits_post_bind _ any);
      [apply reader_no_rename, is_cg_modified_quiet | intros modified _].
    eapply (emits_post_bind _ any); [repeat emits_step | intros _ _].
    rewrite bind_ret_l.
    eapply (emits_post_bind _ any);
      [repeat (emits_step || apply add_volumes_no_rename
               || apply remove_volumes_no_rename)
      | intros [add_r remove_r] _].
    eapply (emits_post_bind _ (λ x, x = (None, Some (current_cg_name p d)))).
    { eapply (emits_post_bind _ any); [repeat emits_step | intros _ _].
      by apply emits_ret. }
    intros ? ->.
    eapply (emits_post_bind _ any);
      [repeat (emits_step || apply modify_cg_no_rename) | intros modify_r _].
    eapply (emits_post_bind _ any);
      [apply reader_no_rename, get_details_quiet | intros final _].
    by apply emits_exit_json. }
  destruct (emits_run _ _ _ _ _ _ _ _ Hc Hrun) as (Δ & -> & HΔ & Ho).
  destruct (emits_run _ _ _ _ _ _ _ _
              (get_details_quiet (cg_id p) (cg_name p)) Hget)
    as (Δ1 & -> & HΔ1 & _).
  split.
  - rewrite app_nil_l. apply Forall_app. split; [| done].
    eapply Forall_impl; [exact HΔ1 | apply quiet_cg_no_rename].
  - by intros r ->.
Qed.

Lemma cg_rename_alone_changes_nothing p (w : W) d w1 t1 o w' t' :
  state p = present →
  get_details (cg_id p) (cg_name p) w [] = (Ret (Some d), w1, t1) →
  new_cg_name p = Some (current_cg_name p d) →
  volumes p = None → description p = None → snap_schedule p = None →
  tiering_policy p = None →
  perform_module_operation p w [] = (o, w', t') →
  calls_where (@mutating) t' = [] ∧ (∀ r, o = ExitJson r → changed r = false).
Proof.
  intros Hst Hget Hnew Hvol Hdesc Hsnap Htier Hrun.
  unfold perform_module_operation in Hrun. unfold bind at 1 in Hrun.
  rewrite Hget in Hrun. rewrite Hst, Hnew, Hvol in Hrun.
  rewrite (bool_decide_eq_true_2 (present = present)) in Hrun by done.
  rewrite (bool_decide_eq_false_2 (present = absent)) in Hrun by done.
  rewrite (bool_decide_eq_true_2 (is_Some (Some d))) in Hrun by done.
  cbn [andb negb truthy_list] in Hrun.
  match type of Hrun with
  | ?c w1 t1 = _ =>
      assert (emits quiet (post any any (λ r, changed r = false) any) c) as Hc
  end.
  { assert (match cg_name p with
            | Some _ => (cg_id p, cg_name p)
            | None => (None, Some (cg_name_of (props d)))
            end = (match cg_name p with Some _ => cg_id p | None => None end,
                   Some (current_cg_name p d))) as ->.
    { unfold current_cg_name. by destruct (cg_name p). }
    rewrite (bool_decide_eq_true_2
               (Some (current_cg_name p d) = Some (current_cg_name p d))) by done.
    cbn [negb]. rewrite bind_ret_l.
    assert (is_cg_modified (W:=W) p d = ret false) as ->.
    { unfold is_cg_modified, cg_modified_flag.
      rewrite Htier, Hdesc, Hsnap.
      rewrite (bool_decide_eq_false_2 (is_Some None)) by (by intros [? ?]).
      cbn [andb]. by destruct (cg_description _), (cg_snap_schedule _),
                     (cg_relocation_policy _). }
    rewrite bind_ret_l.
    eapply (emits_post_bind _ any); [repeat emits_step | intros _ _].
    rewrite bind_ret_l. rewrite !andb_false_r. rewrite bind_ret_l.
    eapply (emits_post_bind _ (λ x, x = (None, Some (current_cg_name p d)))).
    { eapply (emits_post_bind _ any); [repeat emits_step | intros _ _].
      by apply emits_ret. }
    intros ? ->. rewrite bind_ret_l.
    eapply (emits_post_bind _ any);
      [emits_by get_details_quiet | intros final _].
    by apply emits_exit_json. }
  destruct (emits_run _ _ _ _ _ _ _ _ Hc Hrun) as (Δ & -> & HΔ & Ho).
  destruct (emits_run _ _ _ _ _ _ _ _
              (get_details_quiet (cg_id p) (cg_name p)) Hget)
    as (Δ1 & -> & HΔ1 & _).
  split.
  - apply calls_where_unmarked. rewrite app_nil_l. by apply Forall_app.
  - by intros r ->.
Qed.

End ConsistencyGroupRename.

(** * Unity volume: size *)

Section VolumeSize.
Import UnityVolume.
Context {W : Type} `{!SDK Op W}.
Variable get_size_bytes : Z → cap_choice → Z.
Variable get_size_in_gb : Z → cap_choice → Z.

Lemma volume_shrink_fails p a v cap_unit b (w : W) t :
  requested_bytes get_size_bytes p cap_unit = Some b →
  (b < size_total v)%Z →
  volume_modify_required get_size_bytes p a v cap_unit w t
  = (FailJson expand_only, w, t).
Proof.
  unfold requested_bytes. intros Hreq Hlt.
  unfold volume_modify_required. cbv zeta. unfold try_except, bind at 1.
  destruct (size p) as [s |], cap_unit as [c |]; try done.
  destruct (truthy_int (Some s)); [| done]. simplify_eq.
  apply Z.ltb_lt in Hlt. by rewrite Hlt.
Qed.

Lemma u_size_skip {A} (o : option A) (cond : A → bool)
    (f : A → to_update → to_update) (u : to_update) :
  (∀ x u, u_size (f x u) = u_size u) →
  u_size (match o with Some x => update_if (cond x) (f x) u | None => u end)
  = u_size u.
Proof. intros Hf. destruct o as [x |]; [| done]. unfold update_if. by destruct (cond x). Qed.

Lemma u_size_update_if (c : bool) (f : to_update → to_update) (u : to_update) :
  (∀ u, u_size (f u) = u_size u) → u_size (update_if c f u) = u_size u.
Proof. intros Hf. unfold update_if. by destruct c. Qed.

Lemma volume_size_in_change_set p a v cap_unit (w : W) t ou w' t' :
  volume_modify_required get_size_bytes p a v cap_unit w t = (Ret ou, w', t') →
  ou ≫= u_size
  = match requested_bytes get_size_bytes p cap_unit with
    | Some b => if (size_total v <? b)%Z then Some b else None
    | None => None
    end.
Proof.
  unfold volume_modify_required, requested_bytes. cbv zeta. intros Hrun.
  unfold try_except, bind in Hrun.
  destruct (size p) as [s |] eqn:Hs, cap_unit as [c |];
    [destruct (truthy_int (Some s));
     [destruct (get_size_bytes s c <? size_total v)%Z; [done |] |] | | |].
  all: cbn [ret] in Hrun.
  all: destruct (is_thin p) as [th |];
    [destruct (differs_from th (is_thin_enabled v)); [done |] |].
  all: cbn [ret] in Hrun.
  all: match type of Hrun with
       | context [update_is_empty ?U] =>
           assert (ou ≫= u_size = u_size U) as ->;
           [destruct (update_is_empty U) eqn:HU; cbn [negb ret] in Hrun;
            simplify_eq; [| done];
            unfold update_is_empty in HU; apply bool_decide_eq_true_1 in HU;
            by rewrite HU
           |]
       end.
  all: rewrite u_size_update_if by done.
  all: rewrite !u_size_skip by done.
  all: rewrite ?u_size_update_if by done.
  all: rewrite ?u_size_skip by done.
  all: try done.
  all: unfold update_if at 1.
  all: destruct (size_total v <? get_size_bytes s c)%Z; [done |].
  all: by rewrite !u_size_skip.
Qed.

Lemma get_host_quiet host_name host_id :
  emits (W:=W) quiet (post any never never any) (get_host host_name host_id).
Proof. unfold get_host. repeat emits_step. Qed.

Lemma get_io_limit_policy_quiet name id :
  emits (W:=W) quiet (post any never never any) (get_io_limit_policy name id).
Proof. unfold get_io_limit_policy. repeat emits_step. Qed.

Lemma get_snap_schedule_quiet name :
  emits (W:=W) quiet (post any never never any) (get_snap_schedule name).
Proof. unfold get_snap_schedule. repeat emits_step. Qed.

Lemma get_volume_quiet vol_name vol_id :
  emits (W:=W) quiet (post any never never any) (get_volume vol_name vol_id).
Proof. unfold get_volume. repeat emits_step. Qed.

Lemma guard_stands (b : bool) (m : message) :
  stands (Op:=Op) (W:=W) (J:=result) (if b then fail_json m else ret ()).
Proof. intros w t. destruct b; [right; by exists m | by left]. Qed.

Lemma for_each_stands {A} (l : list A) (body : A → M Op W result ()) :
  (∀ x, stands (body x)) → stands (for_each l body).
Proof.
  intros Hb. induction l as [| x l IH]; intros w t; [by left |].
  cbn [for_each]. unfold bind.
  destruct (Hb x w t) as [-> | [m ->]]; [apply IH | right; by exists m].
Qed.

Lemma validate_input_string_stands p :
  stands (W:=W) (validate_input_string p).
Proof.
  intros w t. unfold validate_input_string, try_except.
  destruct (for_each_stands (checked_strings p)
              (λ kv, if bool_decide (kv.2 = Some "")
                     then fail_json (Msg invalid_input [AStr kv.1])
                     else ret ())
              (λ kv, guard_stands _ _) w t) as [-> | [m ->]];
    [by left | right; by exists m].
Qed.

Lemma volume_shrink_refused p (w : W) v w1 t1 b :
  get_volume (vol_name p) (vol_id p) w [] = (Ret (Some v), w1, t1) →
  requested_bytes get_size_bytes p (effective_cap_unit p) = Some b →
  (b < size_total v)%Z →
  ∃ m w' t',
    perform_module_operation get_size_bytes get_size_in_gb p w []
    = (FailJson m, w', t')
    ∧ calls_where (@mutating) t' = [].
Proof.
  intros Hget Hreq Hlt. unfold perform_module_operation.
  fold (effective_cap_unit p).
  (* the checks before the volume is fetched *)
  unfold bind at 1.
  destruct (validate_input_string_stands p w []) as [-> | [m ->]];
    [| by exists m, w, []].
  unfold bind at 1.
  destruct (guard_stands (bool_decide (size p = Some 0%Z))
              (Msg "Size can not be 0 (Zero)" []) w []) as [-> | [m ->]];
    [| by exists m, w, []].
  unfold bind at 1.
  destruct (guard_stands
              (bool_decide (is_Some (effective_cap_unit p))
               && negb (truthy_int (size p)))
              (Msg "cap_unit can be specified along with size" []) w [])
    as [-> | [m ->]]; [| by exists m, w, []].
  unfold bind at 1.
  destruct (guard_stands
              (truthy_int (hlu p)
               && (negb (truthy_str (host_name p))
                   && negb (truthy_str (host_id p))))
              (Msg "hlu can be specified with host_id or host_name" []) w [])
    as [-> | [m ->]]; [| by exists m, w, []].
  unfold bind at 1.
  destruct (guard_stands
              (bool_decide (is_Some (mapping_state p))
               && (negb (truthy_str (host_name p))
                   && negb (truthy_str (host_id p))))
              (Msg "mapping_state can be specified with host_id or host_name"
                   []) w [])
    as [-> | [m ->]]; [| by exists m, w, []].
  unfold bind at 1. rewrite Hget.
  match goal with
  | |- ∃ m w' t', ?c w1 t1 = _ ∧ _ =>
      assert (emits quiet (post never never never any) c) as Hc
  end.
  { eapply (emits_post_bind _ any);
      [repeat (emits_step || emits_by get_host_quiet) | intros host _].
    eapply (emits_post_bind _ any);
      [repeat (emits_step || emits_by get_io_limit_policy_quiet) | intros pol _].
    eapply (emits_post_bind _ any);
      [repeat (emits_step || emits_by get_snap_schedule_quiet) | intros sn _].
    eapply (emits_post_bind _ never); [| by intros ? []].
    eapply (emits_post_bind _ never); [| by intros ? []].
    intros w2 t2. rewrite (volume_shrink_fails _ _ _ _ _ _ _ Hreq Hlt).
    exists []. by rewrite app_nil_r. }
  destruct (Hc w1 t1) as (Δ & Ht & HΔ & Ho).
  destruct (emits_run _ _ _ _ _ _ _ _
              (get_volume_quiet (vol_name p) (vol_id p)) Hget)
    as (Δ1 & -> & HΔ1 & _).
  match goal with
  | |- ∃ m w' t', ?c w1 _ = _ ∧ _ =>
      destruct (c w1 ([] ++ Δ1)) as [[o w'] t'] eqn:Hrun
  end.
  cbn in Ht, Ho. destruct o as [? | ? | ? | m]; try done.
  exists m, w', t'. split; [done |]. subst t'.
  apply calls_where_unmarked. by apply Forall_app.
Qed.

End VolumeSize.

Section VolumeSizeKept.
Import UnityVolume.
Context {W : Type} `{!SDK Op W}.
Variable get_size_bytes : Z → cap_choice → Z.

(** When the size check and the [is_thin] check pass,
    [volume_modify_required] returns, without a call. *)
Lemma volume_modify_required_returns p a v cap_unit (w : W) t :
  (∀ b, requested_bytes get_size_bytes p cap_unit = Some b →
        (size_total v ≤ b)%Z) →
  (∀ th, is_thin p = Some th → is_thin_enabled v = Some th) →
  ∃ ou, volume_modify_required get_size_bytes p a v cap_unit w t
        = (Ret ou, w, t).
Proof.
  unfold requested_bytes. intros Hsize Hthin.
  unfold volume_modify_required. cbv zeta. unfold try_except, bind.
  destruct (size p) as [s |], cap_unit as [c |];
    [destruct (truthy_int (Some s));
     [destruct (get_size_bytes s c <? size_total v)%Z eqn:Hlt;
      [apply Z.ltb_lt in Hlt; specialize (Hsize _ eq_refl); lia |] |] | | |].
  all: cbn [ret].
  all: destruct (is_thin p) as [th |];
    [rewrite (Hthin th eq_refl), differs_from_same |].
  all: cbn [ret].
  all: match goal with
       | |- context [update_is_empty ?U] => destruct (update_is_empty U)
       end.
  all: by eexists.
Qed.

Lemma volume_size_kept_or_grown p a v cap_unit b (w : W) t :
  requested_bytes get_size_bytes p cap_unit = Some b →
  (size_total v ≤ b)%Z →
  (∀ th, is_thin p = Some th → is_thin_enabled v = Some th) →
  ∃ ou, volume_modify_required get_size_bytes p a v cap_unit w t
        = (Ret ou, w, t)
        ∧ ou ≫= u_size = if (size_total v <? b)%Z then Some b else None.
Proof.
  intros Hreq Hle Hthin.
  destruct (volume_modify_required_returns p a v cap_unit w t) as [ou Hrun].
  { intros b' Hb'. by simplify_eq. }
  { done. }
  exists ou. split; [done |].
  rewrite (volume_size_in_change_set _ _ _ _ _ _ _ _ _ _ Hrun). by rewrite Hreq.
Qed.

End VolumeSizeKept.

(** ** Membership: what is sent and under which directive *)

(** ** Membership: what is sent to the array *)

Section HostGroupMembership.
Import PowerMaxHostGroup.
Context {W : Type} `{!SDK Op W}.

Lemma get_hostgroup_run name (w : W) t :
  get_hostgroup name w t
  = (Ret (fetched_hostgroup (exec (sdk_get_hostgroup name) w).1),
     (exec (sdk_get_hostgroup name) w).2,
     t ++ [fetch_ev name (exec (sdk_get_hostgroup name) w).1]).
Proof.
  unfold get_hostgroup, try_except, bind, call, ret, fetch_ev.
  by destruct (exec (sdk_get_hostgroup name) w) as [[e | g] w1].
Qed.

(** [add_hosts_to_hostgroup] fetches the group and, unless every
    requested host is a member, sends the requested hosts that are no
    members, and nothing else. *)
Lemma add_hosts_run name hosts (w : W) t :
  let fetched := exec (sdk_get_hostgroup name) w in
  let existing := existing_hosts_of (fetched_hostgroup fetched.1) in
  let add_list := _get_add_hosts existing hosts in
  (list_to_set add_list : gset string)
  = list_to_set hosts ∖ list_to_set existing
  ∧ (add_list = [] →
     add_hosts_to_hostgroup name hosts w t
     = (Ret false, fetched.2, t ++ [fetch_ev name fetched.1]))
  ∧ (add_list ≠ [] →
     ∃ o w' ok,
       add_hosts_to_hostgroup name hosts w t
       = (o, w', t ++ [fetch_ev name fetched.1;
                       Event (sdk_modify_hostgroup name (add_host_list add_list))
                             ok])
       ∧ (o = Ret true ↔ ok = true)).
Proof.
  intros fetched existing add_list. split_and!.
  - apply hostgroup_add_set.
  - intros Hnil. unfold add_hosts_to_hostgroup, bind.
    rewrite get_hostgroup_run. fold fetched existing add_list. rewrite Hnil.
    by destruct (_ && _).
  - intros Hne. unfold add_hosts_to_hostgroup, bind at 1.
    rewrite get_hostgroup_run. fold fetched existing add_list.
    assert (bool_decide ((list_to_set hosts : gset string)
                         ⊆ list_to_set existing) = false) as ->.
    { apply bool_decide_eq_false_2. intros Hsub.
      by apply get_add_hosts_nil in Hsub. }
    rewrite andb_false_r.
    destruct add_list as [| h l] eqn:Hl; [done |]. cbn [length Nat.ltb Nat.leb].
    unfold try_except, bind, call, ret, fail_json.
    destruct (exec (sdk_modify_hostgroup name (add_host_list (h :: l))) fetched.2)
      as [[e | []] w']; eexists _, w', _; rewrite <- app_assoc;
      (split; [reflexivity |]); done.
Qed.

Lemma remove_hosts_run name hosts (w : W) t :
  let fetched := exec (sdk_get_hostgroup name) w in
  let existing := existing_hosts_of (fetched_hostgroup fetched.1) in
  let rem_list := _get_remove_hosts existing hosts in
  (list_to_set rem_list : gset string)
  = list_to_set existing ∩ list_to_set hosts
  ∧ (rem_list = [] →
     remove_hosts_from_hostgroup name hosts w t
     = (Ret false, fetched.2, t ++ [fetch_ev name fetched.1]))
  ∧ (rem_list ≠ [] →
     ∃ o w' ok,
       remove_hosts_from_hostgroup name hosts w t
       = (o, w', t ++ [fetch_ev name fetched.1;
                       Event (sdk_modify_hostgroup name
                                (remove_host_list rem_list)) ok])
       ∧ (o = Ret true ↔ ok = true)).
Proof.
  intros fetched existing rem_list. split_and!.
  - apply hostgroup_remove_set.
  - intros Hnil. unfold remove_hosts_from_hostgroup, bind.
    rewrite get_hostgroup_run. fold fetched existing rem_list. rewrite Hnil.
    by destruct (negb _).
  - intros Hne. unfold remove_hosts_from_hostgroup, bind at 1.
    rewrite get_hostgroup_run. fold fetched existing rem_list.
    assert (existing ≠ []) as Hex.
    { intros Hex. apply Hne. unfold rem_list. rewrite Hex.
      apply get_remove_hosts_nil. set_solver. }
    destruct existing as [| x ex] eqn:He; [done |].
    cbn [length Nat.ltb Nat.leb negb].
    destruct rem_list as [| h l] eqn:Hl; [done |]. cbn [length Nat.ltb Nat.leb].
    unfold try_except, bind, call, ret, fail_json.
    destruct (exec (sdk_modify_hostgroup name (remove_host_list (h :: l)))
                fetched.2)
      as [[e | []] w']; eexists _, w', _; rewrite <- app_assoc;
      (split; [reflexivity |]); done.
Qed.

Lemma get_add_hosts_subseteq existing requested :
  _get_add_hosts existing requested ⊆ requested.
Proof.
  intros x Hx.
  assert (x ∈ (list_to_set (_get_add_hosts existing requested) : gset string))
    as Hin by (by apply elem_of_list_to_set).
  rewrite hostgroup_add_set in Hin. apply elem_of_difference in Hin as [Hin _].
  by apply elem_of_list_to_set in Hin.
Qed.

Lemma get_remove_hosts_subseteq existing requested :
  _get_remove_hosts existing requested ⊆ requested.
Proof.
  intros x Hx.
  assert (x ∈ (list_to_set (_get_remove_hosts existing requested) : gset string))
    as Hin by (by apply elem_of_list_to_set).
  rewrite hostgroup_remove_set in Hin.
  apply elem_of_intersection in Hin as [_ Hin].
  by apply elem_of_list_to_set in Hin.
Qed.

Lemma get_hostgroup_follows p name :
  emits (W:=W) (hg_follows_directive p) (post any never never never)
    (get_hostgroup name).
Proof. unfold get_hostgroup. repeat emits_step. Qed.

Lemma add_hosts_follows p name :
  host_state p = Some present_in_group →
  emits (W:=W) (hg_follows_directive p) (post any never never any)
    (add_hosts_to_hostgroup name (default [] (hosts p))).
Proof.
  intros Hst. unfold add_hosts_to_hostgroup.
  emits_step; [emits_by get_hostgroup_follows |].
  emits_step; [emits_step |]. emits_step; [| emits_step].
  emits_step; [| emits_step]. emits_step; [| emits_step].
  apply emits_call; try done; (split; [done | apply get_add_hosts_subseteq]).
Qed.

Lemma remove_hosts_follows p name :
  host_state p = Some absent_in_group →
  emits (W:=W) (hg_follows_directive p) (post any never never any)
    (remove_hosts_from_hostgroup name (default [] (hosts p))).
Proof.
  intros Hst. unfold remove_hosts_from_hostgroup.
  emits_step; [emits_by get_hostgroup_follows |].
  emits_step; [emits_step |]. emits_step; [| emits_step].
  emits_step; [| emits_step]. emits_step; [| emits_step].
  apply emits_call; try done; (split; [done | apply get_remove_hosts_subseteq]).
Qed.

Lemma create_hostgroup_follows p name :
  emits (W:=W) (hg_follows_directive p) (post any never never any)
    (create_hostgroup p name).
Proof.
  unfold create_hostgroup.
  destruct (hosts p) as [[| h l] |] eqn:Hh; cbn [truthy_list negb orb];
    try (by repeat emits_step).
  destruct (host_state p) as [[|] |] eqn:Hs; try (by repeat emits_step).
  emits_step; [| emits_step]. emits_step; [| emits_step].
  - eapply emits_post_weaken;
      [apply (emits_for_each _ never never any) | by unfold any, never; auto..].
    intros x _. repeat emits_step.
  - apply emits_call; by unfold any.
  - emits_step.
Qed.

Lemma modify_host_flags_follows p name flags :
  emits (W:=W) (hg_follows_directive p) (post any any any any)
    (modify_host_flags name flags).
Proof.
  unfold modify_host_flags.
  emits_step; [emits_by get_hostgroup_follows |].
  repeat emits_step.
Qed.

Lemma hostgroup_follows_directive p :
  emits (W:=W) (hg_follows_directive p) (post any any any any)
    (perform_module_operation p).
Proof.
  unfold perform_module_operation.
  emits_step; [emits_by get_hostgroup_follows |].
  emits_step.
  { emits_step; [emits_by create_hostgroup_follows | emits_step]. }
  emits_step.
  { destruct (bool_decide (host_state p = Some present_in_group)) eqn:Hst;
      [apply bool_decide_eq_true_1 in Hst
      | rewrite andb_false_r; cbn [andb]; emits_step].
    emits_step; [| emits_step].
    emits_step;
      [emits_by (add_hosts_follows p (hostgroup_name p) Hst) | emits_step]. }
  emits_step.
  { destruct (bool_decide (host_state p = Some absent_in_group)) eqn:Hst;
      [apply bool_decide_eq_true_1 in Hst
      | rewrite andb_false_r; cbn [andb]; emits_step].
    emits_step; [| emits_step].
    emits_step;
      [emits_by (remove_hosts_follows p (hostgroup_name p) Hst) | emits_step]. }
  emits_step.
  { emits_step; [| emits_step].
    emits_step; [emits_by modify_host_flags_follows | emits_step]. }
  emits_step.
  { unfold rename_hostgroup. repeat emits_step. }
  emits_step.
  emits_step.
  { unfold delete_hostgroup. repeat emits_step. }
  emits_step; [| emits_step].
  unfold _create_result_dict. emits_step; [| emits_step].
  emits_step; [emits_by get_hostgroup_follows | emits_step].
Qed.

End HostGroupMembership.

Section ConsistencyGroupMembership.
Import UnityConsistencyGroup.

(** The two lists of [split_volumes] hold what the request names: the ids
    of its entries and, for entries without an id, their names, each
    once. *)
Lemma split_volume_fold vols il nl :
  Forall one_of_id_and_name vols →
  let r := foldl split_volume (il, nl) vols in
  (∀ i, i ∈ r.1 ↔ i ∈ il ∨ ∃ v, v ∈ vols ∧ vol_id v = Some i)
  ∧ (∀ n, n ∈ r.2 ↔ n ∈ nl ∨ ∃ v, v ∈ vols ∧ vol_name v = Some n)
  ∧ (NoDup il → NoDup r.1) ∧ (NoDup nl → NoDup r.2).
Proof.
  revert il nl. induction vols as [| v vols IH]; intros il nl Hone.
  { cbn. split_and!; [| | done | done]; intros x;
      (split; [by left | intros [? | (v & Hv & _)];
                         [done | by apply elem_of_nil in Hv]]). }
  apply Forall_cons in Hone as [Hv Hone]. cbn [foldl].
  destruct (split_volume (il, nl) v) as [il1 nl1] eqn:Hstep.
  assert ((∀ i, i ∈ il1 ↔ i ∈ il ∨ vol_id v = Some i)
          ∧ (∀ n, n ∈ nl1 ↔ n ∈ nl ∨ vol_name v = Some n)
          ∧ (NoDup il → NoDup il1) ∧ (NoDup nl → NoDup nl1)) as (Hi & Hn & Hdi & Hdn).
  { unfold split_volume in Hstep.
    destruct Hv as [Hid | Hname]; rewrite Hid || rewrite Hname; rewrite ?Hid, ?Hname in Hstep.
    - destruct (vol_name v) as [n |]; [| simplify_eq; naive_solver].
      case_bool_decide as Hin; cbn [negb] in Hstep; simplify_eq.
      + split_and!; try done; [naive_solver |]. intros x. naive_solver.
      + split_and!; try done.
        * naive_solver.
        * intros x. rewrite elem_of_app, list_elem_of_singleton. naive_solver.
        * intros Hd. apply NoDup_app. split_and!; [done | | apply NoDup_singleton].
          intros x Hx ->%list_elem_of_singleton. done.
    - destruct (vol_id v) as [i |]; [| simplify_eq; naive_solver].
      case_bool_decide as Hin; cbn [negb] in Hstep; simplify_eq.
      + split_and!; try done; [| naive_solver]. intros x. naive_solver.
      + split_and!; try done.
        * intros x. rewrite elem_of_app, list_elem_of_singleton. naive_solver.
        * naive_solver.
        * intros Hd. apply NoDup_app. split_and!; [done | | apply NoDup_singleton].
          intros x Hx ->%list_elem_of_singleton. done. }
  destruct (IH il1 nl1 Hone) as (IHi & IHn & IHdi & IHdn). split_and!.
  - intros i. rewrite IHi, Hi. setoid_rewrite elem_of_cons. naive_solver.
  - intros n. rewrite IHn, Hn. setoid_rewrite elem_of_cons. naive_solver.
  - auto.
  - auto.
Qed.

Lemma split_volumes_requested vols :
  Forall one_of_id_and_name vols →
  (∀ i, i ∈ (split_volumes vols).1 ↔ ∃ v, v ∈ vols ∧ vol_id v = Some i)
  ∧ (∀ n, n ∈ (split_volumes vols).2 ↔ ∃ v, v ∈ vols ∧ vol_name v = Some n)
  ∧ NoDup (split_volumes vols).1 ∧ NoDup (split_volumes vols).2.
Proof.
  intros Hone. destruct (split_volume_fold vols [] [] Hone) as (Hi & Hn & Hdi & Hdn).
  unfold split_volumes. split_and!.
  - intros i. rewrite Hi. rewrite elem_of_nil. naive_solver.
  - intros n. rewrite Hn. rewrite elem_of_nil. naive_solver.
  - apply Hdi, NoDup_nil_2.
  - apply Hdn, NoDup_nil_2.
Qed.

Context {W : Type} `{!SDK Op W}.

(** [validate_volumes] lets a request pass only when each of its entries
    names the volume by its id or by its name, not by both. *)
Lemma validate_volumes_one_of p vols (w : W) t u w' t' :
  validate_volumes p vols w t = (Ret u, w', t') →
  Forall one_of_id_and_name vols.
Proof.
  unfold validate_volumes. revert w t.
  induction vols as [| v vols IH]; intros w t Hrun; [constructor |].
  cbn [for_each] in Hrun. unfold bind at 1 in Hrun.
  match type of Hrun with
  | context [match ?c w t with _ => _ end] =>
      destruct (c w t) as [[[[] | | |] w1] t1] eqn:Hbody; try done
  end.
  constructor; [| by eapply IH].
  unfold one_of_id_and_name.
  destruct (vol_id v), (vol_name v); auto. by unfold fail_json in Hbody.
Qed.

(** The ids [add_volumes_to_cg] selects: those the array gives for the
    names and the ids of the request, without those the group holds. *)
Lemma ids_to_add_of_selects p cg_name vols (w : W) t ids w' t' :
  Forall one_of_id_and_name vols →
  ids_to_add_of p cg_name vols w t = (Ret ids, w', t') →
  ∃ names idl c w1 by_name w2 t2 by_id,
    (∀ n, n ∈ names ↔ ∃ v, v ∈ vols ∧ vol_name v = Some n)
    ∧ (∀ i, i ∈ idl ↔ ∃ v, v ∈ vols ∧ vol_id v = Some i)
    ∧ exec (sdk_get_cg None cg_name) w = (inr c, w1)
    ∧ for_collect names (λ n, get_volume_details p (Some n) None) w1
        (t ++ [Event (sdk_get_cg None cg_name) true])
      = (Ret by_name, w2, t2)
    ∧ for_collect idl (λ i, get_volume_details p None (Some i)) w2 t2
      = (Ret by_id, w', t')
    ∧ ∀ x, x ∈ ids
           ↔ ((x ∈ by_name ∧ x ≠ "") ∨ x ∈ by_id) ∧ x ∉ existing_vol_ids_of c.
Proof.
  intros Hone Hrun. rewrite ids_to_add_of_factored in Hrun.
  destruct (split_volumes_requested vols Hone) as (Hi & Hn & _ & _).
  unfold ids_to_add_factored, bind at 1, call in Hrun.
  destruct (exec (sdk_get_cg None cg_name) w) as [[e | c] w1]; [done |].
  unfold bind at 1 in Hrun.
  destruct (for_collect (split_volumes vols).2 _ w1 _)
    as [[[by_name | | |] w2] t2] eqn:Hnames; try done.
  unfold bind at 1 in Hrun.
  destruct (for_collect (split_volumes vols).1 _ w2 t2)
    as [[[by_id | | |] w3] t3] eqn:Hids; try done.
  unfold ret in Hrun. simplify_eq.
  exists (split_volumes vols).2, (split_volumes vols).1, c, w1, by_name, w2, t2,
    by_id.
  split_and!; try done. apply elem_of_select_to_add.
Qed.

(** The ids [remove_volumes_from_cg] selects: those the array gives for
    the names of the request and the ids of the request, as far as the
    group holds them. *)
Lemma ids_to_remove_of_selects p cg_name vols (w : W) t ids w' t' :
  Forall one_of_id_and_name vols →
  ids_to_remove_of p cg_name vols w t = (Ret ids, w', t') →
  ∃ names (idl : list string) c w1 by_name,
    (∀ n, n ∈ names ↔ ∃ v, v ∈ vols ∧ vol_name v = Some n)
    ∧ (∀ i, i ∈ idl ↔ ∃ v, v ∈ vols ∧ vol_id v = Some i)
    ∧ exec (sdk_get_cg None cg_name) w = (inr c, w1)
    ∧ for_collect names (λ n, get_volume_details p (Some n) None) w1
        (t ++ [Event (sdk_get_cg None cg_name) true])
      = (Ret by_name, w', t')
    ∧ ∀ x, x ∈ ids
           ↔ ((x ∈ by_name ∧ x ≠ "") ∨ x ∈ idl) ∧ x ∈ existing_vol_ids_of c.
Proof.
  intros Hone Hrun. rewrite ids_to_remove_of_factored in Hrun.
  destruct (split_volumes_requested vols Hone) as (Hi & Hn & _ & _).
  unfold ids_to_remove_factored, bind at 1, call in Hrun.
  destruct (exec (sdk_get_cg None cg_name) w) as [[e | c] w1]; [done |].
  unfold bind at 1 in Hrun.
  destruct (for_collect (split_volumes vols).2 _ w1 _)
    as [[[by_name | | |] w2] t2] eqn:Hnames; try done.
  unfold ret in Hrun. simplify_eq.
  exists (split_volumes vols).2, (split_volumes vols).1, c, w1, by_name.
  split_and!; try done. apply elem_of_select_to_remove.
Qed.

(** The one mutating call of [add_volumes_to_cg] and of
    [remove_volumes_from_cg] carries the ids that were selected. *)
Lemma add_volumes_sends p cg_name vols tp (w : W) t ids w1 t1 o w' t' :
  ids_to_add_of p cg_name vols w t = (Ret ids, w1, t1) →
  add_volumes_to_cg p cg_name vols tp w t = (o, w', t') →
  calls_where (@mutating) t' = calls_where (@mutating) t
  ∨ (ids ≠ []
     ∧ ∃ cg_obj ok,
         calls_where (@mutating) t'
         = calls_where (@mutating) t ++ [Event (sdk_modify cg_obj (lun_add ids tp)) ok]).
Proof.
  intros Hids Hrun.
  destruct (emits_run _ _ _ _ _ _ _ _ (ids_to_add_of_quiet p cg_name vols) Hids)
    as (Δ1 & -> & HΔ1 & _).
  unfold add_volumes_to_cg, bind at 1 in Hrun. rewrite Hids in Hrun.
  case_bool_decide as Hlen.
  { unfold ret in Hrun. simplify_eq. left.
    by rewrite calls_where_app, (calls_where_unmarked _ Δ1), app_nil_r. }
  unfold bind at 1 in Hrun.
  destruct (return_cg_instance cg_name w1 (t ++ Δ1))
    as [[[cg_obj | | |] w2] t2] eqn:Hobj;
    destruct (emits_run _ _ _ _ _ _ _ _ (return_cg_instance_quiet cg_name) Hobj)
      as (Δ2 & -> & HΔ2 & HQ); try done.
  - right. split; [by destruct ids |]. exists cg_obj.
    unfold try_except, bind, call, ret, fail_json in Hrun.
    destruct (exec (sdk_modify cg_obj (lun_add ids tp)) w2) as [[e | []] w3];
      simplify_eq; eexists;
      rewrite !calls_where_app, (calls_where_unmarked _ Δ1),
        (calls_where_unmarked _ Δ2), !app_nil_r by done; reflexivity.
  - simplify_eq. left.
    by rewrite !calls_where_app, (calls_where_unmarked _ Δ1),
      (calls_where_unmarked _ Δ2), !app_nil_r.
Qed.

Lemma remove_volumes_sends p cg_name vols (w : W) t ids w1 t1 o w' t' :
  ids_to_remove_of p cg_name vols w t = (Ret ids, w1, t1) →
  remove_volumes_from_cg p cg_name vols w t = (o, w', t') →
  calls_where (@mutating) t' = calls_where (@mutating) t
  ∨ (ids ≠ []
     ∧ ∃ cg_obj ok,
         calls_where (@mutating) t'
         = calls_where (@mutating) t ++ [Event (sdk_modify cg_obj (lun_remove ids)) ok]).
Proof.
  intros Hids Hrun.
  destruct (emits_run _ _ _ _ _ _ _ _ (ids_to_remove_of_quiet p cg_name vols) Hids)
    as (Δ1 & -> & HΔ1 & _).
  unfold remove_volumes_from_cg, bind at 1 in Hrun. rewrite Hids in Hrun.
  case_bool_decide as Hlen.
  { unfold ret in Hrun. simplify_eq. left.
    by rewrite calls_where_app, (calls_where_unmarked _ Δ1), app_nil_r. }
  unfold bind at 1 in Hrun.
  destruct (return_cg_instance cg_name w1 (t ++ Δ1))
    as [[[cg_obj | | |] w2] t2] eqn:Hobj;
    destruct (emits_run _ _ _ _ _ _ _ _ (return_cg_instance_quiet cg_name) Hobj)
      as (Δ2 & -> & HΔ2 & HQ); try done.
  - right. split; [by destruct ids |]. exists cg_obj.
    unfold try_except, bind, call, ret, fail_json in Hrun.
    destruct (exec (sdk_modify cg_obj (lun_remove ids)) w2) as [[e | []] w3];
      simplify_eq; eexists;
      rewrite !calls_where_app, (calls_where_unmarked _ Δ1),
        (calls_where_unmarked _ Δ2), !app_nil_r by done; reflexivity.
  - simplify_eq. left.
    by rewrite !calls_where_app, (calls_where_unmarked _ Δ1),
      (calls_where_unmarked _ Δ2), !app_nil_r.
Qed.

Lemma quiet_cg_follows p (e : event Op) : quiet e → cg_follows_directive p e.
Proof.
  destruct e as [R op ok]. unfold unmarked, cg_follows_directive. by destruct op.
Qed.

Lemma reader_follows {A} p (c : M Op W result A) X :
  emits quiet (post any X never any) c →
  emits (cg_follows_directive p) (post any any any any) c.
Proof.
  intros Hc. eapply emits_weaken; [exact Hc | apply quiet_cg_follows |].
  by intros [| | |].
Qed.

Lemma cg_follows_directive_run p :
  emits (W:=W) (cg_follows_directive p) (post any any any any)
    (perform_module_operation p).
Proof.
  unfold perform_module_operation.
  emits_step; [eapply reader_follows, get_details_quiet |].
  emits_step.
  emits_step.
  { emits_step; [eapply reader_follows, validate_volumes_quiet | emits_step]. }
  emits_step.
  { emits_step; [eapply reader_follows, is_cg_modified_quiet | emits_step]. }
  emits_step; [repeat emits_step |].
  emits_step.
  { unfold create_cg, delete_cg.
    repeat (emits_step || eapply reader_follows, return_cg_instance_quiet). }
  emits_step. emits_step. emits_step.
  { destruct (bool_decide (vol_state p = Some present_in_group)) eqn:Hadd.
    - apply bool_decide_eq_true_1 in Hadd.
      assert (bool_decide (vol_state p = Some absent_in_group) = false) as ->.
      { apply bool_decide_eq_false_2. by rewrite Hadd. }
      rewrite !andb_false_r. cbn [andb].
      emits_step; [| emits_step]. emits_step; [| emits_step].
      unfold add_volumes_to_cg.
      emits_step; [eapply reader_follows, ids_to_add_of_quiet |].
      emits_step; [emits_step |].
      emits_step; [eapply reader_follows, return_cg_instance_quiet |].
      emits_step; [| emits_step]. emits_step; [| emits_step].
      by apply emits_call.
    - rewrite !andb_false_r. cbn [andb].
      destruct (bool_decide (vol_state p = Some absent_in_group)) eqn:Hrem;
        [| rewrite !andb_false_r; cbn [andb]; emits_step].
      apply bool_decide_eq_true_1 in Hrem.
      emits_step; [| emits_step]. emits_step; [| emits_step].
      unfold remove_volumes_from_cg.
      emits_step; [eapply reader_follows, ids_to_remove_of_quiet |].
      emits_step; [emits_step |].
      emits_step; [eapply reader_follows, return_cg_instance_quiet |].
      emits_step; [| emits_step]. emits_step; [| emits_step].
      by apply emits_call. }
  emits_step. emits_step.
  { unfold rename_cg.
    repeat (emits_step || eapply reader_follows, return_cg_instance_quiet). }
  emits_step. emits_step.
  { unfold modify_cg.
    repeat (emits_step || eapply reader_follows, return_cg_instance_quiet). }
  emits_step; [eapply reader_follows, get_details_quiet |].
  emits_step.
Qed.

End ConsistencyGroupMembership.

(** ** Host flags: the two paths *)

Section HostFlagsByPath.
Import PowerMaxHostGroup.

(** On creation a flag of [host_flags_list] follows the rule as it is
    claimed, wherever the rule says something. *)
Lemma create_path_rule received name e :
  name ∈ host_flags_list →
  flag_rule (dict_get received name) = Some e →
  _create_host_flags_dict received ∅ !! name = Some e.
Proof.
  intros Hin Hrule. rewrite create_path_lookup by done.
  unfold flag_rule, create_entry in *.
  destruct (dict_get received name) as [v |]; [| done].
  destruct (says_unset v); [done |]. destruct (says_false v); [done |].
  by destruct (truthy v).
Qed.

(** On modification the last of the received keys that are equal up to
    case decides the entry. *)
Lemma modify_fold_last l1 l2 d k v :
  lower k ∉ map (lower ∘ fst) l2 →
  foldl modify_flag d (l1 ++ (k, v) :: l2) !! lower k = Some (modify_entry k v).
Proof.
  intros Hlast. rewrite foldl_app. cbn [foldl].
  rewrite modify_fold_untouched by done.
  by rewrite modify_flag_insert, lookup_insert_eq.
Qed.

Lemma modify_entry_documented k v :
  k ≠ "consistent_lun" →
  (says_true v = true → modify_entry k v = flag_enabled)
  ∧ (says_false v = true → modify_entry k v = flag_disabled)
  ∧ (says_unset v = true → modify_entry k v = flag_default).
Proof.
  intros Hk. unfold modify_entry. rewrite bool_decide_eq_false_2 by done.
  cbn [negb]. split_and!.
  - by intros ->.
  - intros Hf. destruct v as [| [|] | n | s]; try done.
    unfold says_false, says_true in *. cbn in *.
    repeat case_bool_decide; try done.
    all: set_unfold; naive_solver.
  - intros Hu. destruct v as [| [|] | n | s]; try done.
    unfold says_unset, says_false, says_true in *. cbn in *.
    repeat case_bool_decide; try done.
    all: set_unfold; naive_solver.
Qed.

Context {W : Type} `{!SDK Op W}.

(** [modify_host_flags] fetches the group, computes [new_flags_of] from the
    flags the group shows and leaves with [changed=False] when nothing
    differs; otherwise its one further call sends the flags computed. *)
Lemma modify_host_flags_run name received (w : W) t :
  let fetched := exec (sdk_get_hostgroup name) w in
  match fetched_hostgroup fetched.1 with
  | None =>
      modify_host_flags name received w t
      = (Raise (PyException "TypeError"), fetched.2,
         t ++ [fetch_ev name fetched.1])
  | Some g =>
      let current := _recreate_host_flag_dict g ∅ in
      let new := new_flags_of current received in
      (new = current →
       modify_host_flags name received w t
       = (ExitJson (Result false NoDetails), fetched.2,
          t ++ [fetch_ev name fetched.1]))
      ∧ (new ≠ current →
         ∃ o w' ok,
           modify_host_flags name received w t
           = (o, w',
              t ++ [fetch_ev name fetched.1;
                    Event (sdk_modify_hostgroup name (host_flag_dict new)) ok])
           ∧ (o = Ret true ↔ ok = true))
  end.
Proof.
  intros fetched.
  assert (∀ k : option hostgroup → M Op W result bool,
             bind (get_hostgroup name) k w t
               = k (fetched_hostgroup fetched.1) fetched.2
                   (t ++ [fetch_ev name fetched.1])) as Hbind.
  { intros k. unfold bind. by rewrite get_hostgroup_run. }
  unfold modify_host_flags. rewrite !Hbind.
  destruct (fetched_hostgroup fetched.1) as [g |]; [| done].
  cbn zeta. split.
  - intros Heq. by rewrite bool_decide_eq_true_2.
  - intros Hne. rewrite bool_decide_eq_false_2 by done.
    unfold try_except, bind, call, ret, fail_json.
    destruct (exec (sdk_modify_hostgroup name _) fetched.2) as [[e | []] w'];
      eexists _, w', _; rewrite <- app_assoc; (split; [reflexivity |]); done.
Qed.

(** Every call that creates a group carries the flags computed by
    [_create_host_flags_dict]. *)
Lemma create_hostgroup_carries p name :
  emits (W:=W) (hg_create_carries p) (post any never never any)
    (create_hostgroup p name).
Proof.
  unfold create_hostgroup. emits_step; [| emits_step].
  emits_step.
  - emits_step; [| emits_step]. by apply emits_call.
  - emits_step.
    + apply emits_for_each. intros h _.
      emits_step; [| emits_step]. by apply emits_call.
    + emits_step; [| emits_step]. by apply emits_call.
Qed.

End HostFlagsByPath.
(** * The properties of the specification *)

Section Claims.
Import Examples.



(** C3. Membership reconciliation follows the request and the directive.
    Host group: [add_hosts_to_hostgroup] fetches the group and computes the
    hosts of the request that are no members (as sets: requested minus
    existing); when there are none it returns [False] after the fetch,
    otherwise its one further call adds exactly these hosts.
    [remove_hosts_from_hostgroup] does the same with the members that are
    requested (existing and requested) and removes exactly these. In a run
    of the module a call that adds hosts is made only under
    [present-in-group] and a call that removes hosts only under
    [absent-in-group], in both cases with hosts of the request only.
    Consistency group: a list of volumes passes [validate_volumes] only
    when every entry gives an id or a name, not both; for such a list
    [add_volumes_to_cg] selects the ids the array gives for the requested
    names and ids that the fetched group does not hold, and
    [remove_volumes_from_cg] selects the ids the array gives for the
    requested names and the requested ids that the fetched group holds;
    the one mutating call of either function carries the selected ids; and
    in a run of the module volumes are added only under [present-in-group]
    and removed only under [absent-in-group]. *)
Theorem membership_follows_request_and_directive :
  (∀ (W : Type) (sdk : SDK PowerMaxHostGroup.Op W) name hosts (w : W) t,
      let fetched := exec (PowerMaxHostGroup.sdk_get_hostgroup name) w in
      let existing :=
        PowerMaxHostGroup.existing_hosts_of (fetched_hostgroup fetched.1) in
      let add_list := PowerMaxHostGroup._get_add_hosts existing hosts in
      (list_to_set add_list : gset string)
      = list_to_set hosts ∖ list_to_set existing
      ∧ (add_list = [] →
         PowerMaxHostGroup.add_hosts_to_hostgroup name hosts w t
         = (Ret false, fetched.2, t ++ [fetch_ev name fetched.1]))
      ∧ (add_list ≠ [] →
         ∃ o w' ok,
           PowerMaxHostGroup.add_hosts_to_hostgroup name hosts w t
           = (o, w',
              t ++ [fetch_ev name fetched.1;
                    Event (PowerMaxHostGroup.sdk_modify_hostgroup name
                             (PowerMaxHostGroup.add_host_list add_list)) ok])
           ∧ (o = Ret true ↔ ok = true)))
  ∧ (∀ (W : Type) (sdk : SDK PowerMaxHostGroup.Op W) name hosts (w : W) t,
        let fetched := exec (PowerMaxHostGroup.sdk_get_hostgroup name) w in
        let existing :=
          PowerMaxHostGroup.existing_hosts_of (fetched_hostgroup fetched.1) in
        let rem_list := PowerMaxHostGroup._get_remove_hosts existing hosts in
        (list_to_set rem_list : gset string)
        = list_to_set existing ∩ list_to_set hosts
        ∧ (rem_list = [] →
           PowerMaxHostGroup.remove_hosts_from_hostgroup name hosts w t
           = (Ret false, fetched.2, t ++ [fetch_ev name fetched.1]))
        ∧ (rem_list ≠ [] →
           ∃ o w' ok,
             PowerMaxHostGroup.remove_hosts_from_hostgroup name hosts w t
             = (o, w',
                t ++ [fetch_ev name fetched.1;
                      Event (PowerMaxHostGroup.sdk_modify_hostgroup name
                               (PowerMaxHostGroup.remove_host_list rem_list))
                            ok])
             ∧ (o = Ret true ↔ ok = true)))
  ∧ (∀ (W : Type) (sdk : SDK PowerMaxHostGroup.Op W) p (w : W) t o w' t',
        PowerMaxHostGroup.perform_module_operation p w t = (o, w', t') →
        ∃ Δ, t' = t ++ Δ ∧ Forall (hg_follows_directive p) Δ)
  ∧ (∀ (W : Type) (sdk : SDK UnityConsistencyGroup.Op W) p vols (w : W) t u
       w' t',
        UnityConsistencyGroup.validate_volumes p vols w t = (Ret u, w', t') →
        Forall one_of_id_and_name vols)
  ∧ (∀ (W : Type) (sdk : SDK UnityConsistencyGroup.Op W) p cg_name vols
       (w : W) t ids w' t',
        Forall one_of_id_and_name vols →
        UnityConsistencyGroup.ids_to_add_of p cg_name vols w t
        = (Ret ids, w', t') →
        ∃ names idl c w1 by_name w2 t2 by_id,
          (∀ n, n ∈ names
                ↔ ∃ v, v ∈ vols ∧ UnityConsistencyGroup.vol_name v = Some n)
          ∧ (∀ i, i ∈ idl
                  ↔ ∃ v, v ∈ vols ∧ UnityConsistencyGroup.vol_id v = Some i)
          ∧ exec (UnityConsistencyGroup.sdk_get_cg None cg_name) w = (inr c, w1)
          ∧ for_collect names
              (λ n, UnityConsistencyGroup.get_volume_details p (Some n) None)
              w1 (t ++ [Event (UnityConsistencyGroup.sdk_get_cg None cg_name)
                              true])
            = (Ret by_name, w2, t2)
          ∧ for_collect idl
              (λ i, UnityConsistencyGroup.get_volume_details p None (Some i))
              w2 t2
            = (Ret by_id, w', t')
          ∧ ∀ x, x ∈ ids
                 ↔ ((x ∈ by_name ∧ x ≠ "") ∨ x ∈ by_id)
                   ∧ x ∉ UnityConsistencyGroup.existing_vol_ids_of c)
  ∧ (∀ (W : Type) (sdk : SDK UnityConsistencyGroup.Op W) p cg_name vols
       (w : W) t ids w' t',
        Forall one_of_id_and_name vols →
        UnityConsistencyGroup.ids_to_remove_of p cg_name vols w t
        = (Ret ids, w', t') →
        ∃ names (idl : list string) c w1 by_name,
          (∀ n, n ∈ names
                ↔ ∃ v, v ∈ vols ∧ UnityConsistencyGroup.vol_name v = Some n)
          ∧ (∀ i, i ∈ idl
                  ↔ ∃ v, v ∈ vols ∧ UnityConsistencyGroup.vol_id v = Some i)
          ∧ exec (UnityConsistencyGroup.sdk_get_cg None cg_name) w = (inr c, w1)
          ∧ for_collect names
              (λ n, UnityConsistencyGroup.get_volume_details p (Some n) None)
              w1 (t ++ [Event (UnityConsistencyGroup.sdk_get_cg None cg_name)
                              true])
            = (Ret by_name, w', t')
          ∧ ∀ x, x ∈ ids
                 ↔ ((x ∈ by_name ∧ x ≠ "") ∨ x ∈ idl)
                   ∧ x ∈ UnityConsistencyGroup.existing_vol_ids_of c)
  ∧ (∀ (W : Type) (sdk : SDK UnityConsistencyGroup.Op W) p cg_name vols tp
       (w : W) t ids w1 t1 o w' t',
        UnityConsistencyGroup.ids_to_add_of p cg_name vols w t
        = (Ret ids, w1, t1) →
        UnityConsistencyGroup.add_volumes_to_cg p cg_name vols tp w t
        = (o, w', t') →
        calls_where (@UnityConsistencyGroup.mutating) t'
        = calls_where (@UnityConsistencyGroup.mutating) t
        ∨ (ids ≠ []
           ∧ ∃ cg_obj ok,
               calls_where (@UnityConsistencyGroup.mutating) t'
               = calls_where (@UnityConsistencyGroup.mutating) t
                 ++ [Event (UnityConsistencyGroup.sdk_modify cg_obj
                              (UnityConsistencyGroup.lun_add ids tp)) ok]))
  ∧ (∀ (W : Type) (sdk : SDK UnityConsistencyGroup.Op W) p cg_name vols
       (w : W) t ids w1 t1 o w' t',
        UnityConsistencyGroup.ids_to_remove_of p cg_name vols w t
        = (Ret ids, w1, t1) →
        UnityConsistencyGroup.remove_volumes_from_cg p cg_name vols w t
        = (o, w', t') →
        calls_where (@UnityConsistencyGroup.mutating) t'
        = calls_where (@UnityConsistencyGroup.mutating) t
        ∨ (ids ≠ []
           ∧ ∃ cg_obj ok,
               calls_where (@UnityConsistencyGroup.mutating) t'
               = calls_where (@UnityConsistencyGroup.mutating) t
                 ++ [Event (UnityConsistencyGroup.sdk_modify cg_obj
                              (UnityConsistencyGroup.lun_remove ids)) ok]))
  ∧ (∀ (W : Type) (sdk : SDK UnityConsistencyGroup.Op W) p (w : W) t o w' t',
        UnityConsistencyGroup.perform_module_operation p w t = (o, w', t') →
        ∃ Δ, t' = t ++ Δ ∧ Forall (cg_follows_directive p) Δ).
Proof.
  split_and!.
  - intros. apply add_hosts_run.
  - intros. apply remove_hosts_run.
  - intros W sdk p w t o w' t' Hrun.
    destruct (emits_run _ _ _ _ _ _ _ _ (hostgroup_follows_directive p) Hrun)
      as (Δ & -> & HΔ & _).
    by exists Δ.
  - intros. by eapply validate_volumes_one_of.
  - intros. by apply ids_to_add_of_selects.
  - intros. by apply ids_to_remove_of_selects.
  - intros. by eapply add_volumes_sends.
  - intros. by eapply remove_volumes_sends.
  - intros W sdk p w t o w' t' Hrun.
    destruct (emits_run _ _ _ _ _ _ _ _ (cg_follows_directive_run p) Hrun)
      as (Δ & -> & HΔ & _).
    by exists Δ.
Qed.

Lemma membership_follows_request_and_directive_witness :
  (∃ o w' ok,
     PowerMaxHostGroup.add_hosts_to_hostgroup "hg1" ["h1"; "h2"]
       Scenarios.one_group []
     = (o, w',
        [Event (PowerMaxHostGroup.sdk_get_hostgroup "hg1") true;
         Event (PowerMaxHostGroup.sdk_modify_hostgroup "hg1"
                  (PowerMaxHostGroup.add_host_list ["h2"])) ok])
     ∧ (o = Ret true ↔ ok = true))
  ∧ (∃ Δ,
       (FakePowerMax.run_module Scenarios.add_host_keep_flags
          Scenarios.one_group).2 = [] ++ Δ
       ∧ Forall (hg_follows_directive Scenarios.add_host_keep_flags) Δ)
  ∧ (let t' :=
         (UnityConsistencyGroup.add_volumes_to_cg add_second_volume
            (Some "cg1") [UnityConsistencyGroup.Volume None (Some "vol2")]
            None FakeUnityGroups.one_group []).2 in
       calls_where (@UnityConsistencyGroup.mutating) t'
       = calls_where (@UnityConsistencyGroup.mutating) []
       ∨ (["sv_2"] ≠ []
          ∧ ∃ cg_obj ok,
              calls_where (@UnityConsistencyGroup.mutating) t'
              = calls_where (@UnityConsistencyGroup.mutating) []
                ++ [Event (UnityConsistencyGroup.sdk_modify cg_obj
                             (UnityConsistencyGroup.lun_add ["sv_2"] None))
                          ok]))
  ∧ (∃ Δ,
       (FakeUnityGroups.run_module remove_both_volumes
          FakeUnityGroups.one_group).2 = [] ++ Δ
       ∧ Forall (cg_follows_directive remove_both_volumes) Δ).
Proof.
  destruct membership_follows_request_and_directive
    as (Hadd & _ & Hhg & _ & _ & _ & Hsend & _ & Hcg).
  split_and!.
  - destruct (Hadd _ FakePowerMax.fake_sdk "hg1" ["h1"; "h2"]
                Scenarios.one_group []) as (_ & _ & Hne).
    vm_compute in Hne. vm_compute. apply Hne. discriminate.
  - set (r := FakePowerMax.run_module Scenarios.add_host_keep_flags
                Scenarios.one_group).
    refine (Hhg _ FakePowerMax.fake_sdk Scenarios.add_host_keep_flags
              Scenarios.one_group [] r.1.1 r.1.2 r.2 _).
    vm_compute. reflexivity.
  - set (r := UnityConsistencyGroup.ids_to_add_of add_second_volume
                (Some "cg1") [UnityConsistencyGroup.Volume None (Some "vol2")]
                FakeUnityGroups.one_group []).
    set (r' := UnityConsistencyGroup.add_volumes_to_cg add_second_volume
                 (Some "cg1") [UnityConsistencyGroup.Volume None (Some "vol2")]
                 None FakeUnityGroups.one_group []).
    refine (Hsend _ FakeUnityGroups.fake_sdk add_second_volume (Some "cg1")
              [UnityConsistencyGroup.Volume None (Some "vol2")] None
              FakeUnityGroups.one_group [] ["sv_2"] r.1.2 r.2 r'.1.1 r'.1.2
              r'.2 _ _).
    + vm_compute. reflexivity.
    + vm_compute. reflexivity.
  - set (r := FakeUnityGroups.run_module remove_both_volumes
                FakeUnityGroups.one_group).
    refine (Hcg _ FakeUnityGroups.fake_sdk remove_both_volumes
              FakeUnityGroups.one_group [] r.1.1 r.1.2 r.2 _).
    vm_compute. reflexivity.
Defined.

(** C4, amended. On the create path the rule holds as it is claimed: for
    each flag of [host_flags_list], [_create_host_flags_dict] resets a flag
    that is omitted or [unset] to its default, disables it on [false] and
    enables it on any other truthy value, and every call by which
    [create_hostgroup] creates the group carries the flags so computed. On
    the modify path the rule is another one. For a request whose keys are
    ASCII text and for a key other than [consistent_lun], where the last of
    the keys that are equal up to case decides, [True], ['True'] and
    ['true'] enable the flag, [False], ['false'] and ['False'] disable it
    and ['unset'] and ['Unset'] reset it to its default; a flag that the
    request does not name keeps the entry it has. [modify_host_flags] sends
    the flags so computed from the flags the fetched group shows, in one
    call, unless they are the current ones; then it leaves with
    [changed=False]. *)
Theorem tri_state_flags_by_path :
  (∀ (received : list (string * pyval)) (name : string)
     (e : PowerMaxHostGroup.flag_entry),
      name ∈ PowerMaxHostGroup.host_flags_list →
      flag_rule (dict_get received name) = Some e →
      PowerMaxHostGroup._create_host_flags_dict received ∅ !! name = Some e)
  ∧ (∀ (W : Type) (sdk : SDK PowerMaxHostGroup.Op W) p name (w : W) t o w' t',
        PowerMaxHostGroup.create_hostgroup p name w t = (o, w', t') →
        ∃ Δ, t' = t ++ Δ ∧ Forall (hg_create_carries p) Δ)
  ∧ (∀ (l1 l2 : list (string * pyval)) (current : PowerMaxHostGroup.flags_dict)
       (k : string) (v : pyval),
        ascii_keys (l1 ++ (k, v) :: l2) →
        lower k ∉ map (lower ∘ fst) l2 →
        k ≠ "consistent_lun" →
        let e :=
          PowerMaxHostGroup.new_flags_of current (l1 ++ (k, v) :: l2)
            !! lower k in
        (says_true v = true → e = Some flag_enabled)
        ∧ (says_false v = true → e = Some flag_disabled)
        ∧ (says_unset v = true → e = Some flag_default))
  ∧ (∀ (received : list (string * pyval)) (current : PowerMaxHostGroup.flags_dict)
       (name : string),
        ascii_keys received →
        name ∉ map (lower ∘ fst) received →
        PowerMaxHostGroup.new_flags_of current received !! name
        = current !! name)
  ∧ (∀ (W : Type) (sdk : SDK PowerMaxHostGroup.Op W) name received (w : W) t,
        let fetched := exec (PowerMaxHostGroup.sdk_get_hostgroup name) w in
        match fetched_hostgroup fetched.1 with
        | None =>
            PowerMaxHostGroup.modify_host_flags name received w t
            = (Raise (PyException "TypeError"), fetched.2,
               t ++ [fetch_ev name fetched.1])
        | Some g =>
            let current := PowerMaxHostGroup._recreate_host_flag_dict g ∅ in
            let new := PowerMaxHostGroup.new_flags_of current received in
            (new = current →
             PowerMaxHostGroup.modify_host_flags name received w t
             = (ExitJson (PowerMaxHostGroup.Result false
                            PowerMaxHostGroup.NoDetails),
                fetched.2, t ++ [fetch_ev name fetched.1]))
            ∧ (new ≠ current →
               ∃ o w' ok,
                 PowerMaxHostGroup.modify_host_flags name received w t
                 = (o, w',
                    t ++ [fetch_ev name fetched.1;
                          Event (PowerMaxHostGroup.sdk_modify_hostgroup name
                                   (PowerMaxHostGroup.host_flag_dict new)) ok])
                 ∧ (o = Ret true ↔ ok = true))
        end).
Proof.
  split_and!.
  - apply create_path_rule.
  - intros W sdk p name w t o w' t' Hrun.
    destruct (emits_run _ _ _ _ _ _ _ _ (create_hostgroup_carries p name) Hrun)
      as (Δ & -> & HΔ & _).
    by exists Δ.
  - intros l1 l2 current k v _ Hlast Hk e. subst e.
    unfold PowerMaxHostGroup.new_flags_of. rewrite modify_fold_last by done.
    destruct (modify_entry_documented k v Hk) as (Ht & Hf & Hu).
    split_and!; intros Hv; f_equal; auto.
  - intros received current name _ Hnin. by apply modify_fold_untouched.
  - intros. apply modify_host_flags_run.
Qed.

Lemma tri_state_flags_by_path_witness :
  (PowerMaxHostGroup._create_host_flags_dict three_flags ∅ !! "scsi_3"
   = Some flag_disabled)
  ∧ (∃ Δ,
       (PowerMaxHostGroup.create_hostgroup Scenarios.create_group "hg9"
          Scenarios.one_group []).2 = [] ++ Δ
       ∧ Forall (hg_create_carries Scenarios.create_group) Δ)
  ∧ (PowerMaxHostGroup.new_flags_of ∅ three_flags !! lower "openvms"
     = Some flag_enabled)
  ∧ (PowerMaxHostGroup.new_flags_of ∅
       ([("openvms", PyBool true)] ++ [("OpenVMS", PyBool false)])
       !! lower "OpenVMS"
     = Some flag_disabled)
  ∧ (PowerMaxHostGroup.new_flags_of {[ "spc2_protocol_version" := flag_enabled ]}
       three_flags !! "spc2_protocol_version" = Some flag_enabled).
Proof.
  destruct tri_state_flags_by_path as (Hcreate & Hrun & Hmodify & Hkeep & _).
  split_and!.
  - refine (Hcreate three_flags "scsi_3" flag_disabled _ _).
    + apply (bool_decide_unpack _). vm_compute. reflexivity.
    + reflexivity.
  - set (r := PowerMaxHostGroup.create_hostgroup Scenarios.create_group "hg9"
                Scenarios.one_group []).
    refine (Hrun _ FakePowerMax.fake_sdk Scenarios.create_group "hg9"
              Scenarios.one_group [] r.1.1 r.1.2 r.2 _).
    vm_compute. reflexivity.
  - refine (proj1 (Hmodify [] [("scsi_3", PyStr "false");
                               ("environ_set", PyStr "unset")]
                     ∅ "openvms" (PyBool true) _ _ _) _).
    + apply (bool_decide_unpack _). vm_compute. reflexivity.
    + apply (bool_decide_unpack _). vm_compute. reflexivity.
    + discriminate.
    + reflexivity.
  - refine (proj1 (proj2 (Hmodify [("openvms", PyBool true)] [] ∅ "OpenVMS"
                            (PyBool false) _ _ _)) _).
    + apply (bool_decide_unpack _). vm_compute. reflexivity.
    + apply (bool_decide_unpack _). vm_compute. reflexivity.
    + discriminate.
    + reflexivity.
  - rewrite (Hkeep three_flags).
    + vm_compute. reflexivity.
    + apply (bool_decide_unpack _). vm_compute. reflexivity.
    + apply (bool_decide_unpack _). vm_compute. reflexivity.
Defined.

(** C5. A consistency group that is found with at least one volume is not
    deleted: a run with [state=absent] ends in a failure and makes no
    mutating call. When no volumes and no [vol_state] come with the request
    the failure is the refusal to delete a group that holds volumes. *)
Theorem cg_with_volumes_is_not_deleted (W : Type)
    (sdk : SDK UnityConsistencyGroup.Op W) (p : UnityConsistencyGroup.params)
    (w : W) d w1 t1 v l :
  UnityConsistencyGroup.state p = absent →
  UnityConsistencyGroup.get_details (UnityConsistencyGroup.cg_id p)
    (UnityConsistencyGroup.cg_name p) w [] = (Ret (Some d), w1, t1) →
  UnityConsistencyGroup.cg_luns (UnityConsistencyGroup.props d) = Some (v :: l) →
  ∃ m w' t',
    UnityConsistencyGroup.perform_module_operation p w [] = (FailJson m, w', t')
    ∧ calls_where (@UnityConsistencyGroup.mutating) t' = []
    ∧ (truthy_list (UnityConsistencyGroup.volumes p) = false →
       UnityConsistencyGroup.vol_state p = None → m = refusal).
Proof. apply cg_delete_refused_aux. Qed.

Lemma cg_with_volumes_is_not_deleted_witness :
  ∃ w' t',
    FakeUnityGroups.run_module FakeUnityGroups.delete_group
      FakeUnityGroups.one_group = (FailJson refusal, w', t')
    ∧ calls_where (@UnityConsistencyGroup.mutating) t' = [].
Proof.
  destruct (cg_with_volumes_is_not_deleted _ FakeUnityGroups.fake_sdk
              FakeUnityGroups.delete_group FakeUnityGroups.one_group cg1
              FakeUnityGroups.one_group
              (FakeUnityGroups.run_module FakeUnityGroups.delete_group
                 FakeUnityGroups.one_group).2
              ("sv_1", "vol1") [])
    as (m & w' & t' & Hrun & Hquiet & Hmsg).
  - reflexivity.
  - vm_compute. reflexivity.
  - reflexivity.
  - exists w', t'. rewrite <- (Hmsg eq_refl eq_refl). split; [exact Hrun | exact Hquiet].
Defined.

(** C6. A rename to the name the entity has is no change. Masking view: a
    rename call always names two different names, and a request with
    [state=present] whose new name is the name of the view makes no
    mutating call and, when it succeeds, reports [changed=False].
    Consistency group: when the group is found and the new name is its
    current name, no rename call is made and the result does not report a
    rename; when nothing else is asked for, no mutating call is made at all
    and a successful run reports [changed=False]. *)
Theorem rename_to_same_name_is_no_change :
  (∀ (W : Type) (sdk : SDK PowerMaxMaskingView.Op W) p (w : W) o w' t',
      PowerMaxMaskingView.perform_module_operation p w [] = (o, w', t') →
      Forall mv_rename_differs t')
  ∧ (∀ (W : Type) (sdk : SDK PowerMaxMaskingView.Op W) p (w : W) o w' t',
        PowerMaxMaskingView.state p = present →
        PowerMaxMaskingView.new_mv_name p = Some (PowerMaxMaskingView.mv_name p) →
        PowerMaxMaskingView.perform_module_operation p w [] = (o, w', t') →
        calls_where (@PowerMaxMaskingView.mutating) t' = []
        ∧ (∀ r, o = ExitJson r → PowerMaxMaskingView.changed r = false))
  ∧ (∀ (W : Type) (sdk : SDK UnityConsistencyGroup.Op W) p (w : W) d w1 t1
       o w' t',
        UnityConsistencyGroup.state p = present →
        UnityConsistencyGroup.get_details (UnityConsistencyGroup.cg_id p)
          (UnityConsistencyGroup.cg_name p) w [] = (Ret (Some d), w1, t1) →
        UnityConsistencyGroup.new_cg_name p = Some (current_cg_name p d) →
        UnityConsistencyGroup.perform_module_operation p w [] = (o, w', t') →
        Forall cg_no_rename t'
        ∧ (∀ r, o = ExitJson r → UnityConsistencyGroup.rename_cg_r r = None)
        ∧ (UnityConsistencyGroup.volumes p = None →
           UnityConsistencyGroup.description p = None →
           UnityConsistencyGroup.snap_schedule p = None →
           UnityConsistencyGroup.tiering_policy p = None →
           calls_where (@UnityConsistencyGroup.mutating) t' = []
           ∧ (∀ r, o = ExitJson r → UnityConsistencyGroup.changed r = false))).
Proof.
  split_and!.
  - intros W sdk p w o w' t' Hrun.
    destruct (emits_run _ _ _ _ _ _ _ _
                (mv_rename_only_when_names_differ p) Hrun) as (Δ & -> & HΔ & _).
    by rewrite app_nil_l.
  - intros W sdk p w o w' t' Hst Hnew Hrun.
    destruct (emits_run _ _ _ _ _ _ _ _
                (mv_rename_to_same_name p Hst Hnew) Hrun) as (Δ & -> & HΔ & Ho).
    split.
    + rewrite app_nil_l. by apply calls_where_unmarked.
    + by intros r ->.
  - intros W sdk p w d w1 t1 o w' t' Hst Hget Hnew Hrun.
    destruct (cg_rename_to_same_name p w d w1 t1 o w' t' Hst Hget Hnew Hrun)
      as [Hno Hres].
    split_and!; [done | done |]. intros Hv Hd Hs Ht.
    by apply (cg_rename_alone_changes_nothing p w d w1 t1 o w' t').
Qed.

Lemma rename_to_same_name_is_no_change_witness :
  Forall mv_rename_differs
    (FakePowerMaxViews.run_module FakePowerMaxViews.rename_view
       FakePowerMaxViews.one_view).2
  ∧ calls_where (@PowerMaxMaskingView.mutating)
      (FakePowerMaxViews.run_module FakePowerMaxViews.rename_to_itself
         FakePowerMaxViews.one_view).2 = []
  ∧ calls_where (@UnityConsistencyGroup.mutating)
      (FakeUnityGroups.run_module FakeUnityGroups.rename_to_itself
         FakeUnityGroups.one_group).2 = [].
Proof.
  destruct rename_to_same_name_is_no_change as (Hdiff & Hview & Hgroup).
  split_and!.
  - refine (Hdiff _ FakePowerMaxViews.fake_sdk FakePowerMaxViews.rename_view
              FakePowerMaxViews.one_view _ _ _ _).
    vm_compute. reflexivity.
  - refine (proj1 (Hview _ FakePowerMaxViews.fake_sdk
                     FakePowerMaxViews.rename_to_itself
                     FakePowerMaxViews.one_view _ _ _ _ _ _)).
    + reflexivity.
    + reflexivity.
    + vm_compute. reflexivity.
  - refine (proj1 (proj2 (proj2
              (Hgroup _ FakeUnityGroups.fake_sdk FakeUnityGroups.rename_to_itself
                 FakeUnityGroups.one_group cg1 FakeUnityGroups.one_group _
                 _ _ _ _ _ _ _)) _ _ _ _)).
    + reflexivity.
    + vm_compute. reflexivity.
    + reflexivity.
    + vm_compute. reflexivity.
    + reflexivity.
    + reflexivity.
    + reflexivity.
    + reflexivity.
Defined.

(** C7. A masking view request that gives both a host and a host group is
    an error of the caller. The module declares the two options mutually
    exclusive; with the validation that [AnsibleModule] makes of that
    declaration, which is modelled, [main] ends in a failure before any SDK
    call. The code of the module rejects such a request as well wherever it
    looks at the two options: a view that is found with a host or a host
    group fails the comparison of [is_mv_changed], a view that is to be
    created fails in [create_masking_view], both after the look-up alone,
    and no create call is ever made. *)
Theorem mv_host_and_hostgroup_are_exclusive :
  (∀ (W : Type) (sdk : SDK PowerMaxMaskingView.Op W) p (w : W),
      is_Some (PowerMaxMaskingView.host_name p) →
      is_Some (PowerMaxMaskingView.hostgroup_name p) →
      PowerMaxMaskingView.main p w []
      = (FailJson (PowerMaxMaskingView.mutually_exclusive_msg
                     ["host_name"; "hostgroup_name"]), w, []))
  ∧ (∀ (W : Type) (sdk : SDK PowerMaxMaskingView.Op W) p (w : W) mv w1 t1,
        is_Some (PowerMaxMaskingView.host_name p) →
        is_Some (PowerMaxMaskingView.hostgroup_name p) →
        PowerMaxMaskingView.get_masking_view (PowerMaxMaskingView.mv_name p)
          w [] = (Ret (Some mv), w1, t1) →
        is_Some (PowerMaxMaskingView.hostId mv)
        ∨ is_Some (PowerMaxMaskingView.hostGroupId mv) →
        PowerMaxMaskingView.perform_module_operation p w []
        = (FailJson (differs_msg mv), w1, t1)
        ∧ calls_where (@PowerMaxMaskingView.mutating) t1 = [])
  ∧ (∀ (W : Type) (sdk : SDK PowerMaxMaskingView.Op W) p (w : W) w1 t1,
        truthy_str (PowerMaxMaskingView.host_name p) = true →
        truthy_str (PowerMaxMaskingView.hostgroup_name p) = true →
        PowerMaxMaskingView.get_masking_view (PowerMaxMaskingView.mv_name p)
          w [] = (Ret None, w1, t1) →
        PowerMaxMaskingView.state p = present →
        truthy_str (PowerMaxMaskingView.new_mv_name p) = false →
        PowerMaxMaskingView.mv_name p ≠ "" →
        PowerMaxMaskingView.perform_module_operation p w []
        = (FailJson (either_host_or_hostgroup (PowerMaxMaskingView.mv_name p)),
           w1, t1)
        ∧ calls_where (@PowerMaxMaskingView.mutating) t1 = [])
  ∧ (∀ (W : Type) (sdk : SDK PowerMaxMaskingView.Op W) p (w : W) o w' t',
        truthy_str (PowerMaxMaskingView.host_name p) = true →
        truthy_str (PowerMaxMaskingView.hostgroup_name p) = true →
        PowerMaxMaskingView.perform_module_operation p w [] = (o, w', t') →
        Forall mv_no_create t').
Proof.
  split_and!.
  - intros W sdk p w. apply mv_exclusive_targets.
  - intros W sdk p w mv w1 t1. apply mv_both_targets_on_existing_view.
  - intros W sdk p w w1 t1. apply mv_both_targets_on_create.
  - intros W sdk p w o w' t' Hh Hg Hrun.
    destruct (emits_run _ _ _ _ _ _ _ _
                (mv_never_creates_with_both_targets p Hh Hg) Hrun)
      as (Δ & -> & HΔ & _).
    by rewrite app_nil_l.
Qed.

Lemma mv_host_and_hostgroup_are_exclusive_witness :
  FakePowerMaxViews.run_module FakePowerMaxViews.both_targets
    FakePowerMaxViews.one_view
  = (FailJson (PowerMaxMaskingView.mutually_exclusive_msg
                 ["host_name"; "hostgroup_name"]),
     FakePowerMaxViews.one_view, [])
  ∧ (PowerMaxMaskingView.perform_module_operation
       FakePowerMaxViews.both_targets_on_view FakePowerMaxViews.one_view []).1.1
    = FailJson (differs_msg (PowerMaxMaskingView.MaskingView "mv1" (Some "pg1")
                               (Some "sg1") (Some "h1") None))
  ∧ (PowerMaxMaskingView.perform_module_operation
       FakePowerMaxViews.both_targets FakePowerMaxViews.one_view []).1.1
    = FailJson (either_host_or_hostgroup "mv9")
  ∧ Forall mv_no_create
      (PowerMaxMaskingView.perform_module_operation
         FakePowerMaxViews.both_targets FakePowerMaxViews.one_view []).2.
Proof.
  destruct mv_host_and_hostgroup_are_exclusive
    as (Hmain & Hfound & Hcreate & Hnever).
  split_and!.
  - refine (Hmain _ FakePowerMaxViews.fake_sdk FakePowerMaxViews.both_targets
              FakePowerMaxViews.one_view _ _).
    + exists "h1". reflexivity.
    + exists "hg1". reflexivity.
  - by rewrite (proj1 (Hfound _ FakePowerMaxViews.fake_sdk
                         FakePowerMaxViews.both_targets_on_view
                         FakePowerMaxViews.one_view _ _ _
                         (ex_intro _ "h1" eq_refl) (ex_intro _ "hg1" eq_refl)
                         eq_refl (or_introl (ex_intro _ "h1" eq_refl)))).
  - by rewrite (proj1 (Hcreate _ FakePowerMaxViews.fake_sdk
                         FakePowerMaxViews.both_targets
                         FakePowerMaxViews.one_view _ _ eq_refl eq_refl
                         eq_refl eq_refl eq_refl ltac:(discriminate))).
  - refine (Hnever _ FakePowerMaxViews.fake_sdk FakePowerMaxViews.both_targets
              FakePowerMaxViews.one_view _ _ _ _ _ _).
    + reflexivity.
    + reflexivity.
    + vm_compute. reflexivity.
Defined.

(** C9. An empty add or remove list is a no-op. Host group: when the list
    computed from the fetched group is empty, [add_hosts_to_hostgroup] and
    [remove_hosts_from_hostgroup] return [False] after the fetch alone.
    Consistency group: when the loops of [add_volumes_to_cg] or
    [remove_volumes_from_cg] select no id, the function returns [False]
    and has made no mutating call. *)
Theorem empty_member_lists_are_noops :
  (∀ (W : Type) (sdk : SDK PowerMaxHostGroup.Op W) name hosts (w : W) t,
      ∃ hg w1 t1,
        PowerMaxHostGroup.get_hostgroup name w t = (Ret hg, w1, t1)
        ∧ calls_where (@PowerMaxHostGroup.mutating) t1
          = calls_where (@PowerMaxHostGroup.mutating) t
        ∧ (PowerMaxHostGroup._get_add_hosts
             (PowerMaxHostGroup.existing_hosts_of hg) hosts = [] →
           PowerMaxHostGroup.add_hosts_to_hostgroup name hosts w t
           = (Ret false, w1, t1))
        ∧ (PowerMaxHostGroup._get_remove_hosts
             (PowerMaxHostGroup.existing_hosts_of hg) hosts = [] →
           PowerMaxHostGroup.remove_hosts_from_hostgroup name hosts w t
           = (Ret false, w1, t1)))
  ∧ (∀ (W : Type) (sdk : SDK UnityConsistencyGroup.Op W) p cg_name volumes
       tiering (w : W) t w1 t1,
        UnityConsistencyGroup.ids_to_add_of p cg_name volumes w t
        = (Ret [], w1, t1) →
        UnityConsistencyGroup.add_volumes_to_cg p cg_name volumes tiering w t
        = (Ret false, w1, t1)
        ∧ calls_where (@UnityConsistencyGroup.mutating) t1
          = calls_where (@UnityConsistencyGroup.mutating) t)
  ∧ (∀ (W : Type) (sdk : SDK UnityConsistencyGroup.Op W) p cg_name volumes
       (w : W) t w1 t1,
        UnityConsistencyGroup.ids_to_remove_of p cg_name volumes w t
        = (Ret [], w1, t1) →
        UnityConsistencyGroup.remove_volumes_from_cg p cg_name volumes w t
        = (Ret false, w1, t1)
        ∧ calls_where (@UnityConsistencyGroup.mutating) t1
          = calls_where (@UnityConsistencyGroup.mutating) t).
Proof.
  split_and!.
  - intros W sdk name hosts w t.
    destruct (hostgroup_empty_add_list name hosts w t)
      as (hg & w1 & t1 & Hget & Hq & Hadd).
    destruct (hostgroup_empty_remove_list name hosts w t)
      as (hg' & w1' & t1' & Hget' & _ & Hrem).
    rewrite Hget in Hget'. simplify_eq. by exists hg', w1', t1'.
  - intros. by apply cg_empty_add_list.
  - intros. by apply cg_empty_remove_list.
Qed.

Lemma empty_member_lists_are_noops_witness :
  (∃ w1 t1,
     PowerMaxHostGroup.add_hosts_to_hostgroup "hg1" ["h1"] Scenarios.one_group []
     = (Ret false, w1, t1))
  ∧ (∃ w1 t1,
       UnityConsistencyGroup.add_volumes_to_cg FakeUnityGroups.add_member_again
         (Some "cg1") [UnityConsistencyGroup.Volume None (Some "vol1")] None
         FakeUnityGroups.one_group []
       = (Ret false, w1, t1))
  ∧ (∃ w1 t1,
       UnityConsistencyGroup.remove_volumes_from_cg
         FakeUnityGroups.remove_stranger (Some "cg1")
         [UnityConsistencyGroup.Volume (Some "sv_2") None]
         FakeUnityGroups.one_group []
       = (Ret false, w1, t1)).
Proof.
  destruct empty_member_lists_are_noops as (Hhost & Hadd & Hrem). split_and!.
  - destruct (Hhost _ FakePowerMax.fake_sdk "hg1" ["h1"] Scenarios.one_group [])
      as (hg & w1 & t1 & Hget & _ & Hnil & _).
    exists w1, t1. apply Hnil.
    vm_compute in Hget. injection Hget as <- _ _. vm_compute. reflexivity.
  - eexists _, _.
    refine (proj1 (Hadd _ FakeUnityGroups.fake_sdk _ _ _ _ _ _ _ _ _)).
    vm_compute. reflexivity.
  - eexists _, _.
    refine (proj1 (Hrem _ FakeUnityGroups.fake_sdk _ _ _ _ _ _ _ _)).
    vm_compute. reflexivity.
Defined.

(** C10. The size of a Unity volume only grows. When the size that is asked
    for, in bytes, is below the size of the volume,
    [volume_modify_required] fails with "Volume size can be expanded only",
    and a run that finds the volume ends in a failure without a mutating
    call. When the size that is asked for is the size of the volume or
    above it, the size check passes: unless [is_thin] is to be changed,
    [volume_modify_required] returns, and its change-set holds a size
    exactly when the size asked for is above the size of the volume, so
    that asking for the current size changes nothing. Whenever
    [volume_modify_required] returns, the size in its change-set is the one
    asked for, and it is there only when it is above the current one. *)
Theorem volume_size_only_grows :
  (∀ (W : Type) (sdk : SDK UnityVolume.Op W) get_size_bytes p a v cap_unit b
     (w : W) t,
      requested_bytes get_size_bytes p cap_unit = Some b →
      (b < UnityVolume.size_total v)%Z →
      UnityVolume.volume_modify_required get_size_bytes p a v cap_unit w t
      = (FailJson expand_only, w, t))
  ∧ (∀ (W : Type) (sdk : SDK UnityVolume.Op W) get_size_bytes p a v cap_unit b
       (w : W) t,
        requested_bytes get_size_bytes p cap_unit = Some b →
        (UnityVolume.size_total v ≤ b)%Z →
        (∀ th, UnityVolume.is_thin p = Some th →
               UnityVolume.is_thin_enabled v = Some th) →
        ∃ ou,
          UnityVolume.volume_modify_required get_size_bytes p a v cap_unit w t
          = (Ret ou, w, t)
          ∧ ou ≫= UnityVolume.u_size
            = if (UnityVolume.size_total v <? b)%Z then Some b else None)
  ∧ (∀ (W : Type) (sdk : SDK UnityVolume.Op W) get_size_bytes p a v cap_unit
       (w : W) t ou w' t',
        UnityVolume.volume_modify_required get_size_bytes p a v cap_unit w t
        = (Ret ou, w', t') →
        ou ≫= UnityVolume.u_size
        = match requested_bytes get_size_bytes p cap_unit with
          | Some b => if (UnityVolume.size_total v <? b)%Z then Some b else None
          | None => None
          end)
  ∧ (∀ (W : Type) (sdk : SDK UnityVolume.Op W) get_size_bytes get_size_in_gb p
       (w : W) v w1 t1 b,
        UnityVolume.get_volume (UnityVolume.vol_name p) (UnityVolume.vol_id p)
          w [] = (Ret (Some v), w1, t1) →
        requested_bytes get_size_bytes p (effective_cap_unit p) = Some b →
        (b < UnityVolume.size_total v)%Z →
        ∃ m w' t',
          UnityVolume.perform_module_operation get_size_bytes get_size_in_gb
            p w [] = (FailJson m, w', t')
          ∧ calls_where (@UnityVolume.mutating) t' = []).
Proof.
  split_and!.
  - intros. by eapply volume_shrink_fails.
  - intros. by eapply volume_size_kept_or_grown.
  - intros. by eapply volume_size_in_change_set.
  - intros. by eapply volume_shrink_refused.
Qed.

Lemma volume_size_only_grows_witness :
  (∃ w' t',
     FakeUnityVolumes.run_module FakeUnityVolumes.shrink_to_1gb
       FakeUnityVolumes.one_volume = (FailJson expand_only, w', t')
     ∧ calls_where (@UnityVolume.mutating) t' = [])
  ∧ UnityVolume.volume_modify_required FakeUnityVolumes.size_bytes
      FakeUnityVolumes.shrink_to_1gb (UnityVolume.Attrs None None None) vol1
      (Some UnityVolume.GB) FakeUnityVolumes.one_volume []
    = (FailJson expand_only, FakeUnityVolumes.one_volume, [])
  ∧ (∃ ou,
       UnityVolume.volume_modify_required FakeUnityVolumes.size_bytes
         FakeUnityVolumes.create_2gb (UnityVolume.Attrs None None None) vol1
         (Some UnityVolume.GB) FakeUnityVolumes.one_volume []
       = (Ret ou, FakeUnityVolumes.one_volume, [])
       ∧ ou ≫= UnityVolume.u_size = None)
  ∧ (∃ ou,
       UnityVolume.volume_modify_required FakeUnityVolumes.size_bytes
         FakeUnityVolumes.grow_to_5gb (UnityVolume.Attrs None None None) vol1
         (Some UnityVolume.GB) FakeUnityVolumes.one_volume []
       = (Ret ou, FakeUnityVolumes.one_volume, [])
       ∧ ou ≫= UnityVolume.u_size = Some 5368709120%Z).
Proof.
  destruct volume_size_only_grows as (Hfail & Hkept & Hsize & Hrun).
  split_and!.
  - destruct (Hrun _ FakeUnityVolumes.fake_sdk FakeUnityVolumes.size_bytes
                FakeUnityVolumes.size_in_gb FakeUnityVolumes.shrink_to_1gb
                FakeUnityVolumes.one_volume vol1 FakeUnityVolumes.one_volume
                [Event (UnityVolume.sdk_get_lun (Some "vol1") None) true]
                1073741824%Z)
      as (m & w' & t' & Hm & Hq).
    + vm_compute. reflexivity.
    + vm_compute. reflexivity.
    + vm_compute. reflexivity.
    + exists w', t'. split; [| exact Hq].
      unfold FakeUnityVolumes.run_module. rewrite Hm.
      vm_compute in Hm. injection Hm as <- _ _. reflexivity.
  - apply (Hfail _ FakeUnityVolumes.fake_sdk FakeUnityVolumes.size_bytes
             FakeUnityVolumes.shrink_to_1gb _ vol1 (Some UnityVolume.GB)
             1073741824%Z).
    + vm_compute. reflexivity.
    + vm_compute. reflexivity.
  - apply (Hkept _ FakeUnityVolumes.fake_sdk FakeUnityVolumes.size_bytes
             FakeUnityVolumes.create_2gb _ vol1 (Some UnityVolume.GB)
             2147483648%Z).
    + vm_compute. reflexivity.
    + vm_compute. discriminate.
    + intros th H. by injection H as <-.
  - apply (Hkept _ FakeUnityVolumes.fake_sdk FakeUnityVolumes.size_bytes
             FakeUnityVolumes.grow_to_5gb _ vol1 (Some UnityVolume.GB)
             5368709120%Z).
    + vm_compute. reflexivity.
    + vm_compute. discriminate.
    + intros th H. by injection H as <-.
Defined.

End Claims.

(** * Further properties of the modules *)

(** ** Rules for [tracks] *)

Section TracksRules.
Context {Op : Type → Type} {W J : Type} `{!SDK Op W}.

Lemma tracks_ret {A} (Q : list (event Op) → outcome J A → Prop) (a : A) :
  Q [] (Ret a) → tracks (W:=W) Q (ret a).
Proof. intros HQ w t. exists []. by rewrite app_nil_r. Qed.

Lemma tracks_raise {A} (Q : list (event Op) → outcome J A → Prop) (e : exn) :
  Q [] (Raise e) → tracks (W:=W) Q (raise e).
Proof. intros HQ w t. exists []. by rewrite app_nil_r. Qed.

Lemma tracks_fail_json {A} (Q : list (event Op) → outcome J A → Prop) m :
  Q [] (FailJson m) → tracks (W:=W) Q (fail_json m).
Proof. intros HQ w t. exists []. by rewrite app_nil_r. Qed.

Lemma tracks_exit_json {A} (Q : list (event Op) → outcome J A → Prop) r :
  Q [] (ExitJson r) → tracks (W:=W) Q (exit_json r).
Proof. intros HQ w t. exists []. by rewrite app_nil_r. Qed.

Lemma tracks_call {R} (Q : list (event Op) → outcome J R → Prop) (op : Op R) :
  (∀ r, Q [Event op true] (Ret r)) → (∀ e, Q [Event op false] (Raise e)) →
  tracks Q (call op).
Proof.
  intros Hr He w t. unfold call.
  destruct (exec op w) as [[e | r] w']; eexists; (split; [reflexivity |]);
    cbn; [apply He | apply Hr].
Qed.

Lemma tracks_bind {A B} (Q1 : list (event Op) → outcome J A → Prop)
    (Q : list (event Op) → outcome J B → Prop)
    (c : M Op W J A) (k : A → M Op W J B) :
  tracks Q1 c →
  (∀ Δ1 a, Q1 Δ1 (Ret a) → tracks (λ Δ2 o, Q (Δ1 ++ Δ2) o) (k a)) →
  (∀ Δ1 e, Q1 Δ1 (Raise e) → Q Δ1 (Raise e)) →
  (∀ Δ1 r, Q1 Δ1 (ExitJson r) → Q Δ1 (ExitJson r)) →
  (∀ Δ1 m, Q1 Δ1 (FailJson m) → Q Δ1 (FailJson m)) →
  tracks Q (bind c k).
Proof.
  intros Hc Hk HX HE HF w t. unfold bind.
  destruct (Hc w t) as (Δ1 & Ht & HQ1).
  destruct (c w t) as [[[a | e | r | m] w1] t1]; cbn in Ht, HQ1; subst t1.
  - destruct (Hk Δ1 a HQ1 w1 (t ++ Δ1)) as (Δ2 & Ht2 & HQ2).
    exists (Δ1 ++ Δ2). by rewrite Ht2, app_assoc.
  - exists Δ1. split; [done | by apply HX].
  - exists Δ1. split; [done | by apply HE].
  - exists Δ1. split; [done | by apply HF].
Qed.

Lemma tracks_try_except {A} (Q1 Q : list (event Op) → outcome J A → Prop)
    (body : M Op W J A) (handler : exn → M Op W J A) :
  tracks Q1 body →
  (∀ Δ1 e, Q1 Δ1 (Raise e) → tracks (λ Δ2 o, Q (Δ1 ++ Δ2) o) (handler e)) →
  (∀ Δ1 a, Q1 Δ1 (Ret a) → Q Δ1 (Ret a)) →
  (∀ Δ1 r, Q1 Δ1 (ExitJson r) → Q Δ1 (ExitJson r)) →
  (∀ Δ1 m, Q1 Δ1 (FailJson m) → Q Δ1 (FailJson m)) →
  tracks Q (try_except body handler).
Proof.
  intros Hb Hh HR HE HF w t. unfold try_except.
  destruct (Hb w t) as (Δ1 & Ht & HQ1).
  destruct (body w t) as [[[a | e | r | m] w1] t1]; cbn in Ht, HQ1; subst t1.
  - exists Δ1. split; [done | by apply HR].
  - destruct (Hh Δ1 e HQ1 w1 (t ++ Δ1)) as (Δ2 & Ht2 & HQ2).
    exists (Δ1 ++ Δ2). by rewrite Ht2, app_assoc.
  - exists Δ1. split; [done | by apply HE].
  - exists Δ1. split; [done | by apply HF].
Qed.

Lemma tracks_weaken {A} (Q Q' : list (event Op) → outcome J A → Prop)
    (c : M Op W J A) :
  tracks Q c → (∀ Δ o, Q Δ o → Q' Δ o) → tracks Q' c.
Proof.
  intros Hc HQ w t. destruct (Hc w t) as (Δ & Ht & H). exists Δ.
  split; [done | by apply HQ].
Qed.

Lemma tracks_run {A} (Q : list (event Op) → outcome J A → Prop)
    (c : M Op W J A) w t o w' t' :
  tracks Q c → c w t = (o, w', t') → ∃ Δ, t' = t ++ Δ ∧ Q Δ o.
Proof. intros Hc Hrun. specialize (Hc w t). by rewrite Hrun in Hc. Qed.

Lemma emits_tracks {A} (P : event Op → Prop) (Q : outcome J A → Prop)
    (c : M Op W J A) :
  emits P Q c → tracks (λ Δ o, Forall P Δ ∧ Q o) c.
Proof. done. Qed.

End TracksRules.

Lemma did_change_app {Op} (p : ∀ R, Op R → bool) (t Δ : list (event Op)) :
  did_change p (t ++ Δ) = did_change p t || did_change p Δ.
Proof. apply existsb_app. Qed.

Lemma did_change_unmarked {Op} (p : ∀ R, Op R → bool) (Δ : list (event Op)) :
  Forall (unmarked p) Δ → did_change p Δ = false.
Proof.
  induction 1 as [| e Δ He _ IH]; [done |].
  unfold did_change, unmarked in *. cbn [existsb]. by rewrite He, IH.
Qed.

Lemma did_change_calls_where {Op} (p : ∀ R, Op R → bool) (Δ : list (event Op)) :
  calls_where p Δ = [] → did_change p Δ = false.
Proof.
  intros H. apply did_change_unmarked. apply Forall_forall. intros e He.
  unfold unmarked. destruct (p _ (ev_op e)) eqn:Hp; [| done].
  by destruct (filter_nil_not_elem_of _ _ e H Hp).
Qed.

(** A computation that only makes calls that are not marked by [p] has
    not changed the array, however it ends. *)
Lemma quiet_tracks {Op W J} `{!SDK Op W} {A} (p : ∀ R, Op R → bool)
    (Q : outcome J A → Prop) (c : M Op W J A) :
  emits (unmarked p) Q c → tracks (λ Δ o, did_change p Δ = false ∧ Q o) c.
Proof.
  intros Hc w t. destruct (Hc w t) as (Δ & Ht & HΔ & HQ). exists Δ.
  split_and!; [done | by apply did_change_unmarked | done].
Qed.

(** ** A call under [try] whose handler fails the run *)

Section GuardedCall.
Context {Op : Type → Type} {W J : Type} `{!SDK Op W}.

(** [try: r = call; return k r / except Exception as e: fail_json(h e)]
    makes the one call and returns or fails with it. *)
Lemma guarded_call_tracks {R A} (op : Op R) (k : R → A) (h : exn → message) :
  tracks (W:=W) (J:=J)
    (tpost (λ Δ a, Δ = [Event op true] ∧ ∃ r, a = k r) never2 never2
           (λ Δ m, Δ = [Event op false] ∧ ∃ e, m = h e))
    (try_except (let! r := call op in ret (k r)) (λ e, fail_json (h e))).
Proof.
  intros w t. unfold try_except, bind, call, ret, fail_json.
  destruct (exec op w) as [[e | r] w']; eexists; (split; [reflexivity |]); cbn;
    eauto.
Qed.

Lemma guarded_call_did {R A} (p : ∀ R, Op R → bool) (op : Op R) (k : R → A)
    (h : exn → message) :
  p _ op = true →
  tracks (W:=W) (J:=J)
    (tpost (λ Δ a, did_change p Δ = true ∧ ∃ r, a = k r) never2 never2
           (λ Δ m, did_change p Δ = false))
    (try_except (let! r := call op in ret (k r)) (λ e, fail_json (h e))).
Proof.
  intros Hp. eapply tracks_weaken; [apply guarded_call_tracks |].
  intros Δ [a | e | r | m]; cbn; try done.
  - intros [-> Hr]. split; [| done]. cbn. by rewrite Hp.
  - intros [-> _]. cbn. by rewrite andb_false_r.
Qed.

End GuardedCall.

Lemma quiet_tpost {Op W J} `{!SDK Op W} {A} (p : ∀ R, Op R → bool)
    (R : A → Prop) (X : exn → Prop) (E : J → Prop) (F : message → Prop)
    (c : M Op W J A) :
  emits (unmarked p) (post R X E F) c →
  tracks (tpost (λ Δ a, did_change p Δ = false ∧ R a) (λ _ e, X e)
                (λ _ r, E r) (λ _ m, F m)) c.
Proof.
  intros Hc. eapply tracks_weaken; [apply (quiet_tracks p), Hc |].
  by intros Δ [] [].
Qed.

(** A quiet computation and then a call under [try] whose handler fails
    the run: when it returns, the call has returned. *)
Lemma quiet_then_guarded_call {Op W J} `{!SDK Op W} {A R B}
    (p : ∀ R, Op R → bool) (c : M Op W J A) (X : exn → Prop)
    (op : A → Op R) (k : R → B) (h : A → exn → message) :
  emits (unmarked p) (post any X never any) c →
  (∀ a, p _ (op a) = true) →
  tracks (tpost (λ Δ b, did_change p Δ = true ∧ ∃ r, b = k r) (λ _ e, X e)
                never2 any2)
    (let! a := c in
     try_except (let! r := call (op a) in ret (k r)) (λ e, fail_json (h a e))).
Proof.
  intros Hc Hp.
  eapply tracks_bind; [apply (quiet_tpost p), Hc | | done..].
  intros Δ0 a [H0 _].
  eapply tracks_weaken; [apply (guarded_call_did p), Hp |].
  intros Δ [b | e | r | m]; cbn; try done. intros [HΔ Hr].
  by rewrite did_change_app, HΔ, orb_true_r.
Qed.

Lemma guard_did {Op W J} `{!SDK Op W} (p : ∀ R, Op R → bool) (b : bool)
    (m : message) :
  tracks (W:=W) (J:=J)
    (tpost (λ Δ _, did_change p Δ = false) never2 never2 any2)
    (if b then fail_json m else ret ()).
Proof. destruct b; [by apply tracks_fail_json | by apply tracks_ret]. Qed.

Lemma stands_emits {Op W J} `{!SDK Op W} (P : event Op → Prop)
    (c : M Op W J ()) :
  stands c → emits P (post any never never any) c.
Proof.
  intros Hc w t. exists []. rewrite app_nil_r.
  by destruct (Hc w t) as [-> | [m ->]].
Qed.

(** A step that only makes calls that are not marked by [p], when nothing
    is asked of what it returns. *)
Lemma tracks_after_quiet {Op W J} `{!SDK Op W} {A B} (p : ∀ R, Op R → bool)
    (Q : list (event Op) → outcome J B → Prop)
    (c : M Op W J A) (k : A → M Op W J B) :
  emits (unmarked p) (post any never never any) c →
  (∀ Δ1 a, did_change p Δ1 = false → tracks (λ Δ2 o, Q (Δ1 ++ Δ2) o) (k a)) →
  (∀ Δ1 m, did_change p Δ1 = false → Q Δ1 (FailJson m)) →
  tracks Q (bind c k).
Proof.
  intros Hc Hk HF.
  eapply tracks_bind; [apply (quiet_tracks p), Hc | ..].
  - intros Δ1 a [H1 _]. by apply Hk.
  - by intros Δ1 e [_ ?].
  - by intros Δ1 r [_ ?].
  - intros Δ1 m [H1 _]. by apply HF.
Qed.

Lemma did_change_suffix {Op} (p : ∀ R, Op R → bool) (Δ Δ' : list (event Op)) :
  did_change p Δ' = true → did_change p (Δ ++ Δ') = true.
Proof. intros H. by rewrite did_change_app, H, orb_true_r. Qed.

Lemma did_change_prefix {Op} (p : ∀ R, Op R → bool) (Δ Δ' : list (event Op)) :
  did_change p Δ = true → did_change p (Δ ++ Δ') = true.
Proof. intros H. by rewrite did_change_app, H. Qed.

(** ** Masking view: what [changed] reports *)

Section MaskingViewChanged.
Import PowerMaxMaskingView.
Context {W : Type} `{!SDK Op W}.

Lemma create_masking_view_tracks p mv_name :
  tracks (W:=W)
    (tpost (λ Δ r, r.1 = true ∧ did_change (@mutating) Δ = true) never2 never2
           (λ Δ _, did_change (@mutating) Δ = false))
    (create_masking_view p mv_name).
Proof.
  unfold create_masking_view.
  destruct (truthy_str (host_name p) && truthy_str (hostgroup_name p));
    [by apply tracks_fail_json |].
  destruct (portgroup_name p) as [pg |], (sg_name p) as [sg |];
    try by apply tracks_fail_json.
  destruct (bool_decide (host_name p = None) && bool_decide (hostgroup_name p = None));
    [by apply tracks_fail_json |].
  eapply tracks_weaken;
    [apply (guarded_call_did (@mutating) _ (λ resp, (true, resp))); done |].
  intros Δ [a | e | r | m]; cbn; try done. by intros [? [r ->]].
Qed.

Lemma delete_masking_view_tracks mv_name :
  tracks (W:=W)
    (tpost (λ Δ b, b = true ∧ did_change (@mutating) Δ = true) never2 never2
           (λ Δ _, did_change (@mutating) Δ = false))
    (delete_masking_view mv_name).
Proof.
  eapply tracks_weaken;
    [apply (guarded_call_did (@mutating) _ (λ _, true)); done |].
  intros Δ [a | e | r | m]; cbn; try done. by intros [? [r ->]].
Qed.

Lemma rename_masking_view_tracks mv_name new_mv_name :
  tracks (W:=W)
    (tpost (λ Δ b, b = did_change (@mutating) Δ) never2 never2 (λ Δ _, did_change (@mutating) Δ = false))
    (rename_masking_view mv_name new_mv_name).
Proof.
  unfold rename_masking_view. case_bool_decide; [by apply tracks_ret |].
  eapply tracks_weaken;
    [apply (guarded_call_did (@mutating) _ (λ _, true)); done |].
  intros Δ [a | e | r | m]; cbn; try done. by intros [-> [r ->]].
Qed.

Lemma mv_changed_tracks p :
  tracks (W:=W) (tpost any2 never2 (λ Δ r, changed r = did_change (@mutating) Δ) any2)
    (perform_module_operation p).
Proof.
  unfold perform_module_operation.
  eapply (tracks_bind (tpost (λ Δ _, did_change (@mutating) Δ = false) never2 never2 never2)).
  { eapply tracks_weaken; [apply quiet_tracks, get_masking_view_quiet |].
    by intros Δ [] []. }
  2-4: done.
  intros Δ0 masking_view H0.
  eapply (tracks_bind (tpost (λ Δ _, did_change (@mutating) Δ = false) never2 never2 any2)).
  { destruct masking_view.
    - eapply tracks_weaken; [apply quiet_tracks, is_mv_changed_quiet |].
      by intros Δ [] [].
    - by apply tracks_ret. }
  2-4: done.
  intros Δ1 [] H1.
  eapply (tracks_bind (tpost (λ Δ r, mv_flags r = did_change (@mutating) Δ
                                     ∧ modify_mv r = None ∧ delete_mv r = None)
                             never2 never2 any2)).
  { match goal with |- tracks _ (if ?b then _ else _) => destruct b end.
    - eapply (tracks_bind (tpost (λ Δ r, r.1 = true ∧ did_change (@mutating) Δ = true)
                                 never2 never2 any2)).
      + eapply tracks_weaken; [apply create_masking_view_tracks |].
        by intros Δ [].
      + intros Δ2 created [Hc HΔ2]. apply tracks_ret. cbn.
        rewrite app_nil_r, HΔ2. unfold mv_flags. cbn. by rewrite Hc.
      + done.
      + done.
      + done.
    - by apply tracks_ret. }
  2-4: done.
  intros Δ2 res (H2 & Hm2 & Hd2).
  eapply (tracks_bind (tpost (λ Δ r, mv_flags r.1 = did_change (@mutating) (Δ2 ++ Δ)
                                     ∧ delete_mv r.1 = None)
                             never2 never2 any2)).
  { match goal with |- tracks _ (if ?b then _ else _) => destruct b end.
    - eapply (tracks_bind (tpost (λ Δ b, b = did_change (@mutating) Δ) never2 never2 any2)).
      + eapply tracks_weaken; [apply rename_masking_view_tracks |].
        by intros Δ [].
      + intros Δ3 b ->. apply tracks_ret. cbn. rewrite app_nil_r.
        split; [| done]. rewrite did_change_app, <- H2.
        unfold mv_flags in *. cbn. rewrite Hm2, Hd2. cbn.
        by rewrite !orb_false_r.
      + done.
      + done.
      + done.
    - apply tracks_ret. cbn. by rewrite app_nil_r. }
  2-4: done.
  intros Δ3 [res3 name3] [H3 Hd3]. cbn in H3, Hd3. cbn beta iota.
  eapply (tracks_bind (tpost (λ Δ r, mv_flags r = did_change (@mutating) (Δ2 ++ Δ3 ++ Δ))
                             never2 never2 any2)).
  { match goal with |- tracks _ (if ?b then _ else _) => destruct b end.
    - eapply (tracks_bind (tpost (λ Δ b, b = true ∧ did_change (@mutating) Δ = true)
                                 never2 never2 any2)).
      + eapply tracks_weaken; [apply delete_masking_view_tracks |].
        by intros Δ [].
      + intros Δ4 b [-> HΔ4]. apply tracks_ret. cbn. rewrite app_nil_r.
        rewrite !did_change_app, HΔ4. unfold mv_flags. cbn.
        by rewrite !orb_true_r.
      + done.
      + done.
      + done.
    - apply tracks_ret. cbn. by rewrite app_nil_r. }
  2-4: done.
  intros Δ4 res4 H4.
  eapply (tracks_bind (tpost (λ Δ r, mv_flags r = did_change (@mutating) (Δ2 ++ Δ3 ++ Δ4 ++ Δ))
                             never2 never2 any2)).
  { match goal with |- tracks _ (if ?b then _ else _) => destruct b end.
    - eapply (tracks_bind (tpost (λ Δ _, did_change (@mutating) Δ = false) never2 never2 never2)).
      + eapply tracks_weaken; [apply quiet_tracks, get_masking_view_quiet |].
        by intros Δ [] [].
      + intros Δ5 updated H5. apply tracks_ret. cbn. rewrite app_nil_r.
        rewrite !app_assoc, did_change_app, H5, orb_false_r.
        rewrite <- !app_assoc. exact H4.
      + done.
      + done.
      + done.
    - apply tracks_ret. cbn. by rewrite !app_nil_r. }
  2-4: done.
  intros Δ5 res5 H5. apply tracks_exit_json. cbn. rewrite app_nil_r.
  rewrite !did_change_app, H0, H1. cbn. rewrite <- !did_change_app.
  exact H5.
Qed.

End MaskingViewChanged.

(** X1. Masking view module: a run that ends in [exit_json] reports
    [changed=True] exactly when one of its create, rename or delete calls
    returned. *)
Theorem mv_changed_iff_call_succeeded (W : Type)
    (sdk : SDK PowerMaxMaskingView.Op W) (p : PowerMaxMaskingView.params)
    (w : W) r w' t' :
  PowerMaxMaskingView.perform_module_operation p w [] = (ExitJson r, w', t') →
  PowerMaxMaskingView.changed r = did_change (@PowerMaxMaskingView.mutating) t'.
Proof.
  intros Hrun.
  by destruct (tracks_run _ _ _ _ _ _ _ (mv_changed_tracks p) Hrun)
    as (Δ & -> & HΔ).
Qed.

Lemma mv_changed_iff_call_succeeded_witness :
  (∃ r w' t',
     PowerMaxMaskingView.perform_module_operation FakePowerMaxViews.rename_view
       FakePowerMaxViews.one_view [] = (ExitJson r, w', t')
     ∧ PowerMaxMaskingView.changed r = true
     ∧ did_change (@PowerMaxMaskingView.mutating) t' = true)
  ∧ (∃ r w' t',
       PowerMaxMaskingView.perform_module_operation
         FakePowerMaxViews.rename_to_itself FakePowerMaxViews.one_view []
       = (ExitJson r, w', t')
       ∧ PowerMaxMaskingView.changed r = false
       ∧ did_change (@PowerMaxMaskingView.mutating) t' = false).
Proof.
  split.
  - eexists _, _, _. split; [vm_compute; reflexivity |].
    match goal with
    | |- PowerMaxMaskingView.changed ?r = _ ∧ did_change _ ?t = _ =>
        split; [reflexivity |];
        erewrite <- (mv_changed_iff_call_succeeded _ FakePowerMaxViews.fake_sdk
                      FakePowerMaxViews.rename_view FakePowerMaxViews.one_view
                      r _ t); [| vm_compute; reflexivity]; reflexivity
    end.
  - eexists _, _, _. split; [vm_compute; reflexivity |].
    match goal with
    | |- PowerMaxMaskingView.changed ?r = _ ∧ did_change _ ?t = _ =>
        split; [reflexivity |];
        erewrite <- (mv_changed_iff_call_succeeded _ FakePowerMaxViews.fake_sdk
                      FakePowerMaxViews.rename_to_itself
                      FakePowerMaxViews.one_view r _ t);
          [| vm_compute; reflexivity]; reflexivity
    end.
Defined.

(** ** Consistency group: what [changed] reports *)

Section ConsistencyGroupChanged.
Import UnityConsistencyGroup.
Context {W : Type} `{!SDK Op W}.

Lemma rename_cg_tracks cg_name new_cg_name :
  tracks (W:=W)
    (tpost (λ Δ b, b = true ∧ did_change (@mutating) Δ = true) never2 never2 any2)
    (rename_cg cg_name new_cg_name).
Proof.
  eapply tracks_weaken.
  { apply (quiet_then_guarded_call (@mutating) (return_cg_instance cg_name) never
             (λ cg_obj, sdk_modify cg_obj (rename_to new_cg_name)) (λ _, true)).
    - emits_by return_cg_instance_quiet.
    - done. }
  intros Δ [b | e | r | m]; cbn; try done. by intros [? [r ->]].
Qed.

Lemma delete_cg_tracks cg_name :
  tracks (W:=W)
    (tpost (λ Δ b, b = true ∧ did_change (@mutating) Δ = true) never2 never2 any2)
    (delete_cg cg_name).
Proof.
  eapply tracks_weaken.
  { apply (quiet_then_guarded_call (@mutating) (return_cg_instance cg_name) never
             (λ cg_obj, sdk_delete cg_obj) (λ _, true)).
    - emits_by return_cg_instance_quiet.
    - done. }
  intros Δ [b | e | r | m]; cbn; try done. by intros [? [r ->]].
Qed.

Lemma modify_cg_tracks p cg_name description snap_schedule tiering_policy :
  tracks (W:=W)
    (tpost (λ Δ b, b = true ∧ did_change (@mutating) Δ = true) never2 never2 any2)
    (modify_cg p cg_name description snap_schedule tiering_policy).
Proof.
  eapply tracks_weaken.
  { unfold modify_cg.
    apply (quiet_then_guarded_call (@mutating) (return_cg_instance cg_name) never
             (λ cg_obj, sdk_modify cg_obj _) (λ _, true)).
    - emits_by return_cg_instance_quiet.
    - done. }
  intros Δ [b | e | r | m]; cbn; try done. by intros [? [r ->]].
Qed.

Lemma create_cg_tracks cg_name description snap_schedule :
  tracks (W:=W)
    (tpost (λ Δ b, b = true ∧ did_change (@mutating) Δ = true) never2 never2 any2)
    (create_cg cg_name description snap_schedule).
Proof.
  eapply tracks_weaken;
    [apply (guarded_call_did (@mutating) _ (λ _, true)); done |].
  intros Δ [a | e | r | m]; cbn; try done. by intros [? [r ->]].
Qed.

Lemma add_volumes_tracks p cg_name volumes tiering :
  tracks (W:=W)
    (tpost (λ Δ b, b = did_change (@mutating) Δ) any2 never2 any2)
    (add_volumes_to_cg p cg_name volumes tiering).
Proof.
  unfold add_volumes_to_cg.
  eapply tracks_bind;
    [apply (quiet_tpost (@mutating)), ids_to_add_of_quiet | | done..].
  intros Δ0 ids [H0 _]. case_bool_decide.
  { apply tracks_ret. cbn. by rewrite app_nil_r. }
  eapply tracks_weaken.
  { apply (quiet_then_guarded_call (@mutating) (return_cg_instance cg_name) never
             (λ cg_obj, sdk_modify cg_obj _) (λ _, true)).
    - emits_by return_cg_instance_quiet.
    - done. }
  intros Δ [b | e | r | m]; cbn; try done. intros [HΔ [r ->]].
  by rewrite did_change_app, HΔ, orb_true_r.
Qed.

Lemma remove_volumes_tracks p cg_name volumes :
  tracks (W:=W)
    (tpost (λ Δ b, b = did_change (@mutating) Δ) any2 never2 any2)
    (remove_volumes_from_cg p cg_name volumes).
Proof.
  unfold remove_volumes_from_cg.
  eapply tracks_bind;
    [apply (quiet_tpost (@mutating)), ids_to_remove_of_quiet | | done..].
  intros Δ0 ids [H0 _]. case_bool_decide.
  { apply tracks_ret. cbn. by rewrite app_nil_r. }
  eapply tracks_weaken.
  { apply (quiet_then_guarded_call (@mutating) (return_cg_instance cg_name) never
             (λ cg_obj, sdk_modify cg_obj _) (λ _, true)).
    - emits_by return_cg_instance_quiet.
    - done. }
  intros Δ [b | e | r | m]; cbn; try done. intros [HΔ [r ->]].
  by rewrite did_change_app, HΔ, orb_true_r.
Qed.

Lemma cg_changed_tracks p :
  tracks (W:=W)
    (tpost any2 any2 (λ Δ r, changed r = did_change (@mutating) Δ) any2)
    (perform_module_operation p).
Proof.
  unfold perform_module_operation.
  eapply tracks_bind;
    [apply (quiet_tpost (@mutating)), get_details_quiet | | done..].
  intros Δ0 cg_details [H0 _].
  match goal with |- tracks _ (let '(_, _) := ?x in _) => destruct x as [cg_id0 cg_name0] end.
  eapply (tracks_bind (tpost (λ Δ _, did_change (@mutating) Δ = false)
                             never2 never2 any2)); try done.
  { match goal with |- tracks _ (if ?b then _ else _) => destruct b end.
    - eapply tracks_weaken;
        [apply (quiet_tpost (@mutating)), validate_volumes_quiet |].
      by intros Δ [] [].
    - by apply tracks_ret. }
  intros Δ1 [] H1.
  eapply (tracks_bind (tpost (λ Δ _, did_change (@mutating) Δ = false)
                             never2 never2 any2)); try done.
  { destruct cg_details.
    - eapply tracks_weaken;
        [apply (quiet_tpost (@mutating)), is_cg_modified_quiet |].
      by intros Δ [] [].
    - by apply tracks_ret. }
  intros Δ2 modified H2.
  eapply tracks_bind; [apply (guard_did (@mutating)) | | done..].
  intros Δ3 [] H3.
  eapply (tracks_bind
            (tpost (λ Δ r, flag r.1.1 || flag r.1.2 = did_change (@mutating) Δ)
                   never2 never2 any2)); try done.
  { match goal with |- tracks _ (if ?b then _ else _) => destruct b end.
    - eapply tracks_bind; [apply (guard_did (@mutating)) | | done..]. intros Δa [] Ha.
      eapply tracks_bind; [apply (guard_did (@mutating)) | | done..]. intros Δb [] Hb.
      eapply tracks_bind; [apply (guard_did (@mutating)) | | done..]. intros Δc [] Hc.
      eapply tracks_bind; [apply create_cg_tracks | | done..].
      intros Δd r [-> Hd]. apply tracks_ret. cbn.
      by rewrite app_nil_r, !did_change_app, Ha, Hb, Hc, Hd.
    - match goal with |- tracks _ (if ?b then _ else _) => destruct b end;
        [| by apply tracks_ret].
      eapply tracks_bind; [apply (guard_did (@mutating)) | | done..]. intros Δa [] Ha.
      eapply tracks_bind; [apply delete_cg_tracks | | done..].
      intros Δd r [-> Hd]. apply tracks_ret. cbn.
      by rewrite app_nil_r, !did_change_app, Ha, Hd. }
  intros Δ4 [[create_r delete_r] found] H4. cbn in H4. cbn beta iota.
  eapply (tracks_bind
            (tpost (λ Δ r, flag r.1 || flag r.2 = did_change (@mutating) Δ)
                   any2 never2 any2)); try done.
  { match goal with |- tracks _ (if ?b then _ else _) => destruct b end.
    - eapply tracks_bind; [apply add_volumes_tracks | | done..].
      intros Δa r ->. apply tracks_ret. cbn.
      by rewrite app_nil_r, orb_false_r.
    - match goal with |- tracks _ (if ?b then _ else _) => destruct b end;
        [| by apply tracks_ret].
      eapply tracks_bind; [apply remove_volumes_tracks | | done..].
      intros Δa r ->. apply tracks_ret. cbn. by rewrite app_nil_r. }
  intros Δ5 [add_r remove_r] H5. cbn in H5. cbn beta iota.
  eapply (tracks_bind
            (tpost (λ Δ r, flag r.1 = did_change (@mutating) Δ)
                   never2 never2 any2)); try done.
  { destruct (new_cg_name p) as [n |]; [| by apply tracks_ret].
    match goal with |- tracks _ (if ?b then _ else _) => destruct b end;
      [| by apply tracks_ret].
    eapply tracks_bind; [apply (guard_did (@mutating)) | | done..]. intros Δa [] Ha.
    match goal with |- tracks _ (if ?b then _ else _) => destruct b end.
    - eapply tracks_bind; [apply rename_cg_tracks | | done..].
      intros Δb r [-> Hb]. apply tracks_ret. cbn.
      by rewrite app_nil_r, !did_change_app, Ha, Hb.
    - apply tracks_ret. cbn. by rewrite app_nil_r, Ha. }
  intros Δ6 [rename_r cg_name1] H6. cbn in H6. cbn beta iota.
  eapply (tracks_bind
            (tpost (λ Δ r, flag r = did_change (@mutating) Δ)
                   never2 never2 any2)); try done.
  { match goal with |- tracks _ (if ?b then _ else _) => destruct b end;
      [| by apply tracks_ret].
    eapply tracks_bind; [apply modify_cg_tracks | | done..].
    intros Δa r [-> Ha]. apply tracks_ret. cbn. by rewrite app_nil_r. }
  intros Δ7 modify_r H7.
  eapply tracks_bind;
    [apply (quiet_tpost (@mutating)), get_details_quiet | | done..].
  intros Δ8 final [H8 _]. apply tracks_exit_json. cbn.
  rewrite app_nil_r, !did_change_app, H0, H1, H2, H3, H8, <- H4, <- H5, <- H6,
    <- H7. cbn.
  unfold flag.
  by destruct (default false create_r), (default false modify_r),
    (default false add_r), (default false remove_r),
    (default false delete_r), (default false rename_r).
Qed.

End ConsistencyGroupChanged.

(** X2. Consistency group module: a run that ends in [exit_json]
    reports [changed=True] exactly when one of its create, modify or
    delete calls returned. *)
Theorem cg_changed_iff_call_succeeded (W : Type)
    (sdk : SDK UnityConsistencyGroup.Op W) (p : UnityConsistencyGroup.params)
    (w : W) r w' t' :
  UnityConsistencyGroup.perform_module_operation p w [] = (ExitJson r, w', t') →
  UnityConsistencyGroup.changed r
  = did_change (@UnityConsistencyGroup.mutating) t'.
Proof.
  intros Hrun.
  by destruct (tracks_run _ _ _ _ _ _ _ (cg_changed_tracks p) Hrun)
    as (Δ & -> & HΔ).
Qed.

Lemma cg_changed_iff_call_succeeded_witness :
  (∃ r w' t',
     UnityConsistencyGroup.perform_module_operation add_second_volume
       FakeUnityGroups.one_group [] = (ExitJson r, w', t')
     ∧ UnityConsistencyGroup.changed r = true
     ∧ did_change (@UnityConsistencyGroup.mutating) t' = true)
  ∧ (∃ r w' t',
       UnityConsistencyGroup.perform_module_operation
         FakeUnityGroups.add_member_again FakeUnityGroups.one_group []
       = (ExitJson r, w', t')
       ∧ UnityConsistencyGroup.changed r = false
       ∧ did_change (@UnityConsistencyGroup.mutating) t' = false).
Proof.
  split.
  - eexists _, _, _. split; [vm_compute; reflexivity |].
    match goal with
    | |- UnityConsistencyGroup.changed ?r = _ ∧ did_change _ ?t = _ =>
        split; [reflexivity |];
        erewrite <- (cg_changed_iff_call_succeeded _ FakeUnityGroups.fake_sdk
                       add_second_volume FakeUnityGroups.one_group r _ t);
          [| vm_compute; reflexivity]; reflexivity
    end.
  - eexists _, _, _. split; [vm_compute; reflexivity |].
    match goal with
    | |- UnityConsistencyGroup.changed ?r = _ ∧ did_change _ ?t = _ =>
        split; [reflexivity |];
        erewrite <- (cg_changed_iff_call_succeeded _ FakeUnityGroups.fake_sdk
                       FakeUnityGroups.add_member_again
                       FakeUnityGroups.one_group r _ t);
          [| vm_compute; reflexivity]; reflexivity
    end.
Defined.

(** ** Host group: what [changed] reports *)

Section HostGroupChanged.
Import PowerMaxHostGroup.
Context {W : Type} `{!SDK Op W}.

Lemma get_hostgroup_tracks name :
  tracks (W:=W) (J:=result)
    (tpost (λ Δ _, did_change (@mutating) Δ = false) never2 never2 never2)
    (get_hostgroup name).
Proof.
  intros w t. unfold get_hostgroup, try_except, bind, call, ret.
  destruct (exec (sdk_get_hostgroup name) w) as [[e | r] w'];
    by eexists; (split; [reflexivity |]).
Qed.

Lemma create_hostgroup_tracks p name :
  tracks (W:=W)
    (tpost (λ Δ b, b = true ∧ did_change (@mutating) Δ = true) never2 never2 any2)
    (create_hostgroup p name).
Proof.
  unfold create_hostgroup.
  match goal with |- tracks _ (try_except (if ?b then _ else _) _) => destruct b end.
  - eapply tracks_weaken;
      [apply (guarded_call_did (@mutating) _ (λ _, true)); done |].
    intros Δ [a | e | r | m]; cbn; try done. by intros [? [r ->]].
  - eapply (tracks_try_except
              (tpost (λ Δ b, b = true ∧ did_change (@mutating) Δ = true)
                     any2 never2 any2)); try done.
    + eapply (tracks_bind (tpost (λ Δ _, did_change (@mutating) Δ = false)
                                 never2 never2 any2)); try done.
      * eapply tracks_weaken.
        { apply (quiet_tracks (@mutating) (post any never never any)).
          apply emits_for_each. intros h _. emits_step; emits_step. }
        by intros Δ [] [].
      * intros Δ1 [] H1.
        eapply (tracks_bind (tpost (λ Δ _, did_change (@mutating) Δ = true)
                                   any2 never2 never2)); try done.
        -- by apply tracks_call.
        -- intros Δ2 [] H2. apply tracks_ret. cbn.
           by rewrite app_nil_r, did_change_app, H2, orb_true_r.
    + intros Δ1 e _. by apply tracks_fail_json.
Qed.

Lemma add_hosts_tracks name hosts :
  tracks (W:=W)
    (tpost (λ Δ b, b = did_change (@mutating) Δ) never2 never2 any2)
    (add_hosts_to_hostgroup name hosts).
Proof.
  unfold add_hosts_to_hostgroup.
  eapply tracks_bind; [apply get_hostgroup_tracks | | done..].
  intros Δ0 hg H0. cbn in H0.
  match goal with |- tracks _ (if ?b then _ else _) => destruct b end.
  { apply tracks_ret. cbn. by rewrite app_nil_r. }
  match goal with |- tracks _ (if ?b then _ else _) => destruct b end.
  - eapply tracks_weaken;
      [apply (guarded_call_did (@mutating) _ (λ _, true)); done |].
    intros Δ [a | e | r | m]; cbn; try done. intros [HΔ [r ->]].
    by rewrite did_change_app, HΔ, orb_true_r.
  - apply tracks_ret. cbn. by rewrite app_nil_r.
Qed.

Lemma remove_hosts_tracks name hosts :
  tracks (W:=W)
    (tpost (λ Δ b, b = did_change (@mutating) Δ) never2 never2 any2)
    (remove_hosts_from_hostgroup name hosts).
Proof.
  unfold remove_hosts_from_hostgroup.
  eapply tracks_bind; [apply get_hostgroup_tracks | | done..].
  intros Δ0 hg H0. cbn in H0.
  match goal with |- tracks _ (if ?b then _ else _) => destruct b end.
  { apply tracks_ret. cbn. by rewrite app_nil_r. }
  match goal with |- tracks _ (if ?b then _ else _) => destruct b end.
  - eapply tracks_weaken;
      [apply (guarded_call_did (@mutating) _ (λ _, true)); done |].
    intros Δ [a | e | r | m]; cbn; try done. intros [HΔ [r ->]].
    by rewrite did_change_app, HΔ, orb_true_r.
  - apply tracks_ret. cbn. by rewrite app_nil_r.
Qed.

Lemma modify_host_flags_tracks name flags :
  tracks (W:=W)
    (tpost (λ Δ b, b = true ∧ did_change (@mutating) Δ = true) any2
           (λ _ r, r = Result false NoDetails) any2)
    (modify_host_flags name flags).
Proof.
  unfold modify_host_flags.
  eapply tracks_bind; [apply get_hostgroup_tracks | | done..].
  intros Δ0 [g |] H0; [| by apply tracks_raise].
  case_bool_decide; [by apply tracks_exit_json |].
  eapply tracks_weaken;
    [apply (guarded_call_did (@mutating) _ (λ _, true)); done |].
  intros Δ [a | e | r | m]; cbn; try done. intros [HΔ [r ->]].
  by rewrite did_change_app, HΔ, orb_true_r.
Qed.

Lemma rename_hostgroup_tracks name new_name :
  tracks (W:=W)
    (tpost (λ Δ b, b = true ∧ did_change (@mutating) Δ = true) never2 never2 any2)
    (rename_hostgroup name new_name).
Proof.
  eapply tracks_weaken;
    [apply (guarded_call_did (@mutating) _ (λ _, true)); done |].
  intros Δ [a | e | r | m]; cbn; try done. by intros [? [r ->]].
Qed.

Lemma delete_hostgroup_tracks name :
  tracks (W:=W)
    (tpost (λ Δ b, b = true ∧ did_change (@mutating) Δ = true) never2 never2 any2)
    (delete_hostgroup name).
Proof.
  eapply tracks_weaken;
    [apply (guarded_call_did (@mutating) _ (λ _, true)); done |].
  intros Δ [a | e | r | m]; cbn; try done. by intros [? [r ->]].
Qed.

Lemma create_result_dict_tracks p name changed0 :
  tracks (W:=W)
    (tpost (λ Δ r, did_change (@mutating) Δ = false ∧ changed r = changed0
                   ∧ hostgroup_details r ≠ NoDetails) never2 never2 never2)
    (_create_result_dict p name changed0).
Proof.
  unfold _create_result_dict. destruct (state p).
  - eapply tracks_bind; [apply get_hostgroup_tracks | | done..].
    intros Δ0 d H0. apply tracks_ret. cbn in *. by rewrite app_nil_r.
  - by apply tracks_ret.
Qed.

(** One of the steps [changed = f(...) or changed] of
    [perform_module_operation]. *)
Lemma or_changed_step (c : M Op W result bool) (cond changed0 : bool) Δ0 :
  changed0 = did_change (@mutating) Δ0 →
  tracks (tpost (λ Δ b, b = did_change (@mutating) Δ) any2
                (λ _ r, r = Result false NoDetails) any2) c →
  tracks (tpost (λ Δ b, b = did_change (@mutating) (Δ0 ++ Δ)) any2
                (λ _ r, r = Result false NoDetails) any2)
    (if cond then let! r := c in ret (r || changed0) else ret changed0).
Proof.
  intros -> Hc. destruct cond.
  - eapply tracks_bind; [apply Hc | | done..].
    intros Δ1 b ->. apply tracks_ret. cbn.
    by rewrite app_nil_r, did_change_app, orb_comm.
  - apply tracks_ret. cbn. by rewrite app_nil_r.
Qed.

Lemma hostgroup_changed_tracks p :
  tracks (W:=W)
    (tpost any2 any2
           (λ Δ r, (changed r = did_change (@mutating) Δ
                    ∧ hostgroup_details r ≠ NoDetails)
                   ∨ r = Result false NoDetails) any2)
    (perform_module_operation p).
Proof.
  unfold perform_module_operation.
  eapply tracks_bind; [apply get_hostgroup_tracks | | done..].
  intros Δ0 hostgroup H0. cbn in H0.
  eapply (tracks_bind (tpost (λ Δ b, b = did_change (@mutating) Δ)
                             never2 never2 any2)); try done.
  { match goal with |- tracks _ (if ?b then _ else _) => destruct b end.
    - eapply tracks_weaken; [apply create_hostgroup_tracks |].
      intros Δ [a | e | r | m]; cbn; try done. by intros [-> ->].
    - by apply tracks_ret. }
  intros Δ1 changed1 H1.
  eapply (tracks_bind (tpost (λ Δ b, b = did_change (@mutating) (Δ1 ++ Δ))
                             any2 (λ _ r, r = Result false NoDetails) any2));
    try done.
  { apply or_changed_step; [done |].
    eapply tracks_weaken; [apply add_hosts_tracks |]. by intros Δ []. }
  2: { intros Δ2 r ->. by right. }
  intros Δ2 changed2 H2.
  eapply (tracks_bind (tpost (λ Δ b, b = did_change (@mutating) ((Δ1 ++ Δ2) ++ Δ))
                             any2 (λ _ r, r = Result false NoDetails) any2));
    try done.
  { apply or_changed_step; [done |].
    eapply tracks_weaken; [apply remove_hosts_tracks |]. by intros Δ []. }
  2: { intros Δ3 r ->. by right. }
  intros Δ3 changed3 H3.
  eapply (tracks_bind (tpost (λ Δ b, b = did_change (@mutating)
                                          (((Δ1 ++ Δ2) ++ Δ3) ++ Δ))
                             any2 (λ _ r, r = Result false NoDetails) any2));
    try done.
  { apply or_changed_step; [done |].
    eapply tracks_weaken; [apply modify_host_flags_tracks |].
    intros Δ [a | e | r | m]; cbn; try done. by intros [-> ->]. }
  2: { intros Δ4 r ->. by right. }
  intros Δ4 changed4 H4.
  eapply (tracks_bind (tpost (λ Δ r, r.1 = did_change (@mutating)
                                            ((((Δ1 ++ Δ2) ++ Δ3) ++ Δ4) ++ Δ))
                             never2 never2 any2)); try done.
  { assert (tracks (W:=W) (J:=result)
              (tpost (λ Δ (r : bool * string),
                        r.1 = did_change (@mutating)
                                ((((Δ1 ++ Δ2) ++ Δ3) ++ Δ4) ++ Δ))
                     never2 never2 any2)
              (ret (changed4, hostgroup_name p))) as Hskip.
    { apply tracks_ret. cbn. by rewrite app_nil_r. }
    destruct hostgroup as [g |], (new_name p) as [n |]; try exact Hskip.
    match goal with |- tracks _ (if ?b then _ else _) => destruct b end;
      [| exact Hskip].
    eapply tracks_bind; [apply rename_hostgroup_tracks | | done..].
    intros Δ5 b [-> H5]. apply tracks_ret. cbn.
    by rewrite app_nil_r, did_change_app, H5, orb_true_r. }
  intros Δ5 [changed5 name5] H5. cbn in H5. cbn beta iota.
  eapply (tracks_bind (tpost (λ Δ b, b = did_change (@mutating)
                                          ((((((Δ1 ++ Δ2) ++ Δ3) ++ Δ4) ++ Δ5)) ++ Δ))
                             any2 (λ _ r, r = Result false NoDetails) any2));
    try done.
  { apply or_changed_step; [done |].
    eapply tracks_weaken; [apply delete_hostgroup_tracks |].
    intros Δ [a | e | r | m]; cbn; try done. by intros [-> ->]. }
  2: { intros Δ6 r ->. by right. }
  intros Δ6 changed6 H6.
  eapply tracks_bind; [apply create_result_dict_tracks | | done..].
  intros Δ7 r (H7 & Hch & Hd). apply tracks_exit_json. left. split; [| done].
  rewrite Hch, H6, app_nil_r.
  rewrite !did_change_app, H0, H7. cbn.
  by rewrite ?orb_false_r, ?orb_assoc.
Qed.

End HostGroupChanged.

(** X3. Host group module: a run that ends in the [exit_json] of
    [perform_module_operation], whose result carries
    ['hostgroup_details'], reports [changed=True] exactly when a mutating
    call returned. The only other successful exit is the one of
    [modify_host_flags], which carries no details and reports
    [changed=False] whatever was done before. So [changed=True] is never
    reported without a change. *)
Theorem hostgroup_changed_accounting (W : Type)
    (sdk : SDK PowerMaxHostGroup.Op W) (p : PowerMaxHostGroup.params)
    (w : W) r w' t' :
  PowerMaxHostGroup.perform_module_operation p w [] = (ExitJson r, w', t') →
  (PowerMaxHostGroup.hostgroup_details r ≠ PowerMaxHostGroup.NoDetails →
   PowerMaxHostGroup.changed r = did_change (@PowerMaxHostGroup.mutating) t')
  ∧ (PowerMaxHostGroup.hostgroup_details r = PowerMaxHostGroup.NoDetails →
     PowerMaxHostGroup.changed r = false)
  ∧ (PowerMaxHostGroup.changed r = true →
     did_change (@PowerMaxHostGroup.mutating) t' = true).
Proof.
  intros Hrun.
  destruct (tracks_run _ _ _ _ _ _ _ (hostgroup_changed_tracks p) Hrun)
    as (Δ & -> & [[HΔ Hd] | ->]); cbn in *; split_and!; try done.
  by intros <-.
Qed.

Lemma hostgroup_changed_accounting_witness :
  ∃ r w' t',
    PowerMaxHostGroup.perform_module_operation Scenarios.create_group
      Scenarios.one_group [] = (ExitJson r, w', t')
    ∧ PowerMaxHostGroup.changed r = true
    ∧ did_change (@PowerMaxHostGroup.mutating) t' = true.
Proof.
  eexists _, _, _. split; [vm_compute; reflexivity |].
  match goal with
  | |- PowerMaxHostGroup.changed ?r = _ ∧ did_change _ ?t = _ =>
      split; [reflexivity |];
      refine (proj2 (proj2 (hostgroup_changed_accounting _ FakePowerMax.fake_sdk
                              Scenarios.create_group Scenarios.one_group
                              r _ t _)) _);
        [vm_compute; reflexivity | reflexivity]
  end.
Defined.

(** ** Unity volume: what [changed] reports *)

Section VolumeChanged.
Import UnityVolume.
Context {W : Type} `{!SDK Op W}.
Variable get_size_bytes : Z → cap_choice → Z.
Variable get_size_in_gb : Z → cap_choice → Z.

Lemma stands_tracks (c : M Op W result ()) :
  stands c →
  tracks (tpost (λ Δ _, Δ = []) never2 never2 (λ Δ _, Δ = [])) c.
Proof.
  intros Hc w t. exists []. rewrite app_nil_r.
  by destruct (Hc w t) as [-> | [m ->]].
Qed.

Lemma get_pool_quiet pool_name pool_id :
  emits (W:=W) quiet (post any never never any) (get_pool pool_name pool_id).
Proof. unfold get_pool. repeat emits_step. Qed.

Lemma host_access_modify_required_quiet p a l :
  emits (W:=W) quiet (post any never never any)
    (host_access_modify_required p a l).
Proof.
  unfold host_access_modify_required. emits_step; [| emits_step].
  emits_step; [| emits_step].
  eapply emits_post_weaken;
    [apply (emits_for_fold _ any any never any) | by unfold any, never; auto..];
    [done |].
  intros s x _ _. emits_step; [emits_by get_host_quiet |].
  emits_step; [emits_step | emits_step].
Qed.

Lemma get_volume_display_attributes_quiet v :
  emits (W:=W) quiet (post any never never any)
    (get_volume_display_attributes v).
Proof.
  unfold get_volume_display_attributes. emits_step; [| emits_step].
  emits_step; [emits_step |].
  emits_step; [| emits_step].
  emits_step; [| emits_step].
  eapply emits_post_weaken;
    [apply (emits_for_fold _ any any never any) | by unfold any, never; auto..];
    [done |].
  intros s x _ _. emits_step; [emits_by get_host_quiet |].
  emits_step; [emits_step |]. emits_step; emits_step.
Qed.

(** [volume_modify_required] compares and nothing else: it makes no call
    and it returns or fails. *)
Lemma volume_modify_required_compares p a v cap_unit (w : W) t :
  (∃ ou, volume_modify_required get_size_bytes p a v cap_unit w t
         = (Ret ou, w, t))
  ∨ (∃ m, volume_modify_required get_size_bytes p a v cap_unit w t
          = (FailJson m, w, t)).
Proof.
  unfold volume_modify_required. cbv zeta. unfold try_except, bind.
  destruct (size p) as [s |], cap_unit as [c |];
    [destruct (truthy_int (Some s));
     [destruct (get_size_bytes s c <? size_total v)%Z; [right; by eexists |] |]
    | | |].
  all: cbn [ret].
  all: destruct (is_thin p) as [th |];
    [destruct (differs_from th (is_thin_enabled v)); [right; by eexists |] |].
  all: cbn [ret].
  all: match goal with
       | |- context [update_is_empty ?U] => destruct (update_is_empty U)
       end.
  all: left; by eexists.
Qed.

Lemma volume_modify_required_tracks p a v cap_unit :
  tracks (W:=W)
    (tpost (λ Δ _, Δ = []) never2 never2 any2)
    (volume_modify_required get_size_bytes p a v cap_unit).
Proof.
  intros w t. exists []. rewrite app_nil_r.
  by destruct (volume_modify_required_compares p a v cap_unit w t)
    as [[ou ->] | [m ->]].
Qed.

Lemma create_volume_tracks p a obj_pool size host_access :
  tracks (W:=W)
    (tpost (λ Δ _, did_change (@mutating) Δ = true) never2 never2 any2)
    (create_volume p a obj_pool size host_access).
Proof.
  unfold create_volume.
  eapply (tracks_try_except
            (tpost (λ Δ _, did_change (@mutating) Δ = true) any2 never2 any2));
    try done.
  - eapply (tracks_bind (tpost (λ Δ _, did_change (@mutating) Δ = false)
                               never2 never2 any2)); try done.
    + match goal with |- tracks _ (if ?b then _ else _) => destruct b end;
        [| by apply tracks_ret].
      eapply tracks_weaken.
      { apply (quiet_tpost (@mutating) any never never any).
        emits_step; [emits_by get_io_limit_policy_quiet | emits_step]. }
      by intros Δ [] [].
    + intros Δ0 pol H0. apply tracks_call; [| done]. intros r. cbn.
      by rewrite did_change_app, orb_true_r.
  - intros Δ1 e _. by apply tracks_fail_json.
Qed.

Lemma modify_volume_tracks v u :
  tracks (W:=W)
    (tpost (λ Δ _, did_change (@mutating) Δ = true) never2 never2 any2)
    (modify_volume v u).
Proof.
  unfold modify_volume.
  eapply (tracks_try_except
            (tpost (λ Δ _, did_change (@mutating) Δ = true) any2 never2 any2));
    try done.
  - eapply (tracks_bind (tpost (λ Δ _, did_change (@mutating) Δ = false)
                               never2 never2 any2)); try done.
    + destruct (u_io_limit_policy u); [| by apply tracks_ret].
      eapply tracks_weaken.
      { apply (quiet_tpost (@mutating) any never never any).
        emits_step; [emits_by get_io_limit_policy_quiet | emits_step]. }
      by intros Δ [] [].
    + intros Δ0 pol H0. apply tracks_call; [| done]. intros r. cbn.
      by rewrite did_change_app, orb_true_r.
  - intros Δ1 e _. by apply tracks_fail_json.
Qed.

Lemma attach_to_tracks host v hlu :
  tracks (W:=W)
    (tpost (λ Δ _, did_change (@mutating) Δ = true) never2 never2 any2)
    (attach_to host v hlu).
Proof.
  unfold attach_to.
  eapply (tracks_try_except
            (tpost (λ Δ _, did_change (@mutating) Δ = true) any2 never2 any2));
    try done.
  - by apply tracks_call.
  - intros Δ1 e _. by apply tracks_fail_json.
Qed.

Lemma detach_from_tracks host v :
  tracks (W:=W)
    (tpost (λ Δ _, did_change (@mutating) Δ = true) never2 never2 any2)
    (detach_from host v).
Proof.
  unfold detach_from.
  eapply (tracks_try_except
            (tpost (λ Δ _, did_change (@mutating) Δ = true) any2 never2 any2));
    try done.
  - by apply tracks_call.
  - intros Δ1 e _. by apply tracks_fail_json.
Qed.

Lemma delete_volume_tracks vol_id :
  tracks (W:=W)
    (tpost (λ Δ _, did_change (@mutating) Δ = true) never2 never2 any2)
    (delete_volume vol_id).
Proof.
  unfold delete_volume.
  eapply (tracks_try_except
            (tpost (λ Δ _, did_change (@mutating) Δ = true) any2 never2 any2));
    try done.
  - eapply tracks_bind;
      [apply (quiet_tpost (@mutating)), get_volume_quiet | | done..].
    intros Δ0 [v |] [H0 _]; [| by apply tracks_raise].
    eapply (tracks_bind (tpost (λ Δ _, did_change (@mutating) Δ = true)
                               any2 never2 never2)); try done.
    + by apply tracks_call.
    + intros Δ1 [] H1. apply tracks_ret. cbn.
      by rewrite app_nil_r, !did_change_app, H1, orb_true_r.
  - intros Δ1 e _. by apply tracks_fail_json.
Qed.

Lemma volume_changed_tracks p :
  tracks (W:=W)
    (tpost any2 any2
           (λ Δ r, changed r = true → did_change (@mutating) Δ = true) any2)
    (perform_module_operation get_size_bytes get_size_in_gb p).
Proof.
  unfold perform_module_operation. cbv zeta.
  eapply (tracks_after_quiet (@mutating));
    [apply stands_emits, validate_input_string_stands | | done].
  intros Δ1 [] _.
  do 4 (eapply (tracks_after_quiet (@mutating));
        [apply stands_emits, guard_stands | intros ? [] _ | done]).
  eapply (tracks_after_quiet (@mutating));
    [apply get_volume_quiet | | done].
  intros Δ6 obj_vol _.
  eapply (tracks_after_quiet (@mutating)); [| | done].
  { emits_step; [| emits_step]. emits_step; [repeat emits_step |].
    emits_step; [emits_by get_host_quiet | emits_step]. }
  intros Δ7 param_host_id _.
  eapply (tracks_after_quiet (@mutating)); [| | done].
  { emits_step; [| emits_step].
    emits_step; [emits_by get_io_limit_policy_quiet | emits_step]. }
  intros Δ8 param_io_limit_pol_id _.
  eapply (tracks_after_quiet (@mutating)); [| | done].
  { emits_step; [| emits_step]. emits_step; [| emits_step].
    emits_step; [emits_by get_snap_schedule_quiet | emits_step]. }
  intros Δ9 param_snap_schedule_name _.
  eapply (tracks_after_quiet (@mutating)); [| | done].
  { emits_step; [| emits_step].
    emits_step.
    - intros w t. exists []. rewrite app_nil_r. split_and!; [| done |].
      + by destruct (volume_modify_required_compares p
                       (Attrs param_host_id param_io_limit_pol_id
                          param_snap_schedule_name) v
                       (if truthy_int (size p)
                           && negb (bool_decide (is_Some (cap_unit p)))
                        then Some GB else cap_unit p) w t)
          as [[ou ->] | [m ->]].
      + by destruct (volume_modify_required_compares p
                       (Attrs param_host_id param_io_limit_pol_id
                          param_snap_schedule_name) v
                       (if truthy_int (size p)
                           && negb (bool_decide (is_Some (cap_unit p)))
                        then Some GB else cap_unit p) w t)
          as [[ou ->] | [m ->]].
    - emits_step; [| emits_step].
      emits_step; [emits_by host_access_modify_required_quiet | emits_step]. }
  intros Δ10 [to_modify_dict to_modify_host] _. cbn beta iota.
  eapply (tracks_bind
            (tpost (λ Δ r, r.2 = true → did_change (@mutating) Δ = true)
                   never2 never2 any2)); try done.
  { destruct obj_vol as [v |]; [by apply tracks_ret |].
    match goal with |- tracks _ (if ?b then _ else _) => destruct b end;
      [| by apply tracks_ret].
    do 5 (eapply (tracks_after_quiet (@mutating));
          [apply stands_emits, guard_stands | intros ? [] _ | done]).
    eapply (tracks_after_quiet (@mutating)); [| | done].
    { emits_step; [| emits_step].
      emits_step; [emits_by get_host_quiet | emits_step]. }
    intros Δa host_access _.
    eapply (tracks_after_quiet (@mutating)); [apply get_pool_quiet | | done].
    intros Δb obj_pool _.
    eapply tracks_bind; [apply create_volume_tracks | | done..].
    intros Δc v Hc. apply tracks_ret. cbn. intros _.
    by rewrite app_nil_r, !did_change_app, Hc, !orb_true_r. }
  intros Δ11 [obj_vol' changed1] H11. cbn in H11. cbn beta iota.
  destruct obj_vol' as [v |]; cycle 1.
  { apply tracks_exit_json. cbn. intros Hch.
    by rewrite app_nil_r, !did_change_app, (H11 Hch), !orb_true_r. }
  eapply (tracks_bind
            (tpost (λ Δ b, b = true → did_change (@mutating) (Δ11 ++ Δ) = true)
                   never2 never2 any2)); try done.
  { match goal with |- tracks _ (if ?b then _ else _) => destruct b end.
    - eapply tracks_bind; [apply modify_volume_tracks | | done..].
      intros Δa [] Ha. apply tracks_ret. cbn. intros _.
      by rewrite app_nil_r, did_change_app, Ha, orb_true_r.
    - apply tracks_ret. cbn. by rewrite app_nil_r. }
  intros Δ12 changed2 H12.
  eapply (tracks_bind
            (tpost (λ Δ b, b = true →
                           did_change (@mutating) ((Δ11 ++ Δ12) ++ Δ) = true)
                   never2 never2 any2)); try done.
  { match goal with |- tracks _ (if ?b then _ else _) => destruct b end.
    - eapply (tracks_after_quiet (@mutating)); [apply get_host_quiet | | done].
      intros Δa host _.
      eapply tracks_bind; [apply attach_to_tracks | | done..].
      intros Δb resp Hb. apply tracks_ret. cbn. intros _.
      by rewrite app_nil_r, !did_change_app, Hb, !orb_true_r.
    - apply tracks_ret. cbn. by rewrite app_nil_r. }
  intros Δ13 changed3 H13.
  eapply (tracks_bind
            (tpost (λ Δ b, b = true →
                           did_change (@mutating) (((Δ11 ++ Δ12) ++ Δ13) ++ Δ)
                           = true)
                   never2 never2 any2)); try done.
  { match goal with |- tracks _ (if ?b then _ else _) => destruct b end.
    - eapply (tracks_after_quiet (@mutating)); [apply get_host_quiet | | done].
      intros Δa host _.
      eapply tracks_bind; [apply detach_from_tracks | | done..].
      intros Δb resp Hb. apply tracks_ret. cbn. intros _.
      by rewrite app_nil_r, !did_change_app, Hb, !orb_true_r.
    - apply tracks_ret. cbn. by rewrite app_nil_r. }
  intros Δ14 changed4 H14.
  destruct (state p).
  - eapply (tracks_after_quiet (@mutating));
      [apply get_volume_display_attributes_quiet | | done].
    intros Δa volume_details _. apply tracks_exit_json. cbn. intros Hch.
    rewrite app_nil_r. do 10 apply did_change_suffix.
    rewrite !app_assoc. apply did_change_prefix. by apply H14.
  - eapply tracks_bind; [apply delete_volume_tracks | | done..].
    intros Δa changed5 Ha. apply tracks_exit_json. cbn. intros _.
    by rewrite app_nil_r, !did_change_app, Ha, !orb_true_r.
Qed.

End VolumeChanged.

(** X4. Unity volume module: [changed=True] is never reported
    without a change. When a run ends in [exit_json] with
    [changed=True], one of its create, modify, attach, detach or delete
    calls returned. *)
Theorem volume_changed_only_after_a_call (W : Type)
    (sdk : SDK UnityVolume.Op W) get_size_bytes get_size_in_gb
    (p : UnityVolume.params) (w : W) r w' t' :
  UnityVolume.perform_module_operation get_size_bytes get_size_in_gb p w []
  = (ExitJson r, w', t') →
  UnityVolume.changed r = true →
  did_change (@UnityVolume.mutating) t' = true.
Proof.
  intros Hrun.
  by destruct (tracks_run _ _ _ _ _ _ _
                 (volume_changed_tracks get_size_bytes get_size_in_gb p) Hrun)
    as (Δ & -> & HΔ).
Qed.

Lemma volume_changed_only_after_a_call_witness :
  ∃ r w' t',
    FakeUnityVolumes.run_module FakeUnityVolumes.grow_to_5gb
      FakeUnityVolumes.one_volume = (ExitJson r, w', t')
    ∧ UnityVolume.changed r = true
    ∧ did_change (@UnityVolume.mutating) t' = true.
Proof.
  eexists _, _, _. split; [vm_compute; reflexivity |].
  match goal with
  | |- UnityVolume.changed ?r = _ ∧ did_change _ ?t = _ =>
      split; [reflexivity |];
      refine (volume_changed_only_after_a_call _ FakeUnityVolumes.fake_sdk
                FakeUnityVolumes.size_bytes FakeUnityVolumes.size_in_gb
                FakeUnityVolumes.grow_to_5gb FakeUnityVolumes.one_volume
                r _ t _ _);
        [vm_compute; reflexivity | reflexivity]
  end.
Defined.
